(** * A2A book agent: the excerpt extractor, the catalog retry loop, the
      Telex task state machine and the server's middleware

    The definitions follow the TypeScript sources: bookAgent.ts,
    validation.ts, types.ts, server.ts, the validation step of
    bookWorkflow.ts, and telexIntegration.ts, the last one as it stands in
    a2a-agent-route.ts from line 225 on, whose line numbers are the ones
    quoted below. *)

From Stdlib Require Import Ascii String QArith Qround.
From stdpp Require Import base numbers option list strings gmap pretty.

Local Open Scope N_scope.

(** ** JavaScript strings

    A JavaScript string is a sequence of UTF-16 code units; [length],
    [substring], [trim] and the regular expressions of the sources (none
    carries the [u] flag) all work on code units. *)

Abbreviation jsstring := (list N).

(** A literal of the source, given by its ASCII text. *)
Fixpoint str (s : string) : jsstring :=
  match s with
  | EmptyString => []
  | String a s' => Ascii.N_of_ascii a :: str s'
  end.

(** LineTerminator: the code units [.] refuses. *)
Definition is_line_terminator (c : N) : bool :=
  (c =? 10) || (c =? 13) || (c =? 0x2028) || (c =? 0x2029).

(** WhiteSpace and LineTerminator: what [\s] matches and [trim] strips. *)
Definition is_white_space (c : N) : bool :=
  (c =? 9) || (c =? 10) || (c =? 11) || (c =? 12) || (c =? 13) || (c =? 32)
  || (c =? 0xA0) || (c =? 0x1680) || ((0x2000 <=? c) && (c <=? 0x200A))
  || (c =? 0x2028) || (c =? 0x2029) || (c =? 0x202F) || (c =? 0x205F)
  || (c =? 0x3000) || (c =? 0xFEFF).

Definition in_range (lo hi c : N) : bool := (lo <=? c) && (c <=? hi).

Definition is_digit (c : N) : bool := in_range 48 57 c.
Definition is_upper (c : N) : bool := in_range 65 90 c.
Definition is_lower (c : N) : bool := in_range 97 122 c.

(** [\w] without the [u] flag: [[A-Za-z0-9_]]. *)
Definition is_word (c : N) : bool :=
  is_upper c || is_lower c || is_digit c || (c =? 95).

(** Canonicalize of the [i] flag, for comparison with an ASCII pattern
    character: ASCII letters are upper-cased; a code unit of 128 or more is
    never mapped below 128, so it stays different from every ASCII
    pattern character and is left as it is. *)
Definition canon (c : N) : N := if is_lower c then c - 32 else c.

Definition eq_ci (p c : N) : bool := canon p =? canon c.

Fixpoint trimStart (s : jsstring) : jsstring :=
  match s with
  | [] => []
  | c :: s' => if is_white_space c then trimStart s' else s
  end.

Definition trimEnd (s : jsstring) : jsstring := rev (trimStart (rev s)).

Definition trim (s : jsstring) : jsstring := trimEnd (trimStart s).

(** [Array.prototype.join]. *)
Fixpoint join (sep : jsstring) (l : list jsstring) : jsstring :=
  match l with
  | [] => []
  | [x] => x
  | x :: l' => x ++ sep ++ join sep l'
  end.

(** [slice(a, b)] on an array and [substring(a, b)] on a string, for
    [0 <= a <= b]; both clamp to the length. *)
Definition slice {A} (a b : nat) (l : list A) : list A := take (b - a) (drop a l).

Definition substring (a b : nat) (s : jsstring) : jsstring := slice a b s.

(** [s.startsWith(p)] as a test, and the rest after the prefix. *)
Fixpoint strip_prefix (p s : jsstring) : option jsstring :=
  match p, s with
  | [], _ => Some s
  | a :: p', c :: s' => if a =? c then strip_prefix p' s' else None
  | _ :: _, [] => None
  end.

(** [s.includes(p)]. *)
Fixpoint includes (p s : jsstring) : bool :=
  match strip_prefix p s with
  | Some _ => true
  | None => match s with [] => false | _ :: s' => includes p s' end
  end.

(** [s.replace(p, '')] with a string pattern: the first occurrence only. *)
Fixpoint replace_first (p s : jsstring) : jsstring :=
  match strip_prefix p s with
  | Some rest => rest
  | None => match s with [] => [] | c :: s' => c :: replace_first p s' end
  end.

(** ** Regular expressions

    A backtracking matcher in continuation-passing style, with the
    priorities of the ECMAScript semantics: alternatives left to right,
    greedy quantifiers try one more round first, lazy ones try the rest of
    the pattern first, and a round of a starred pattern that consumes
    nothing is refused. The matcher sees the code unit before the current
    position ([None] at the start of the input) and the rest of the input. *)

Inductive regex : Type :=
  | Eps
  | Chr (p : N -> bool)
  | Seq (r1 r2 : regex)
  | Alt (r1 r2 : regex)
  | Star (greedy : bool) (r : regex)
  | Opt (r : regex)
  | Bol
  | Eol
  | WordB
  | NegLook (r : regex).

Definition orelse {A} (x y : option A) : option A :=
  match x with Some _ => x | None => y end.

Definition Cont := option N -> jsstring -> option jsstring.

(** The rounds of a starred pattern: [step] matches one round. A round
    that consumes nothing is refused; [fuel] bounds the number of rounds
    and is the length of the input where the loop starts, which is never
    exceeded since every round consumes a code unit. *)
Fixpoint star_loop (greedy : bool)
  (step : option N -> jsstring -> Cont -> option jsstring) (k : Cont)
  (fuel : nat) (prev : option N) (s : jsstring) {struct fuel} : option jsstring :=
  match fuel with
  | O => k prev s
  | S fuel' =>
      let again :=
        step prev s (fun prev' s' =>
          if (length s' <? length s)%nat
          then star_loop greedy step k fuel' prev' s' else None) in
      if greedy then orelse again (k prev s) else orelse (k prev s) again
  end.

Fixpoint rmatch (r : regex) (prev : option N) (s : jsstring) (k : Cont)
  {struct r} : option jsstring :=
  match r with
  | Eps => k prev s
  | Chr p =>
      match s with
      | c :: s' => if p c then k (Some c) s' else None
      | [] => None
      end
  | Seq r1 r2 => rmatch r1 prev s (fun prev' s' => rmatch r2 prev' s' k)
  | Alt r1 r2 => orelse (rmatch r1 prev s k) (rmatch r2 prev s k)
  | Star greedy r1 => star_loop greedy (rmatch r1) k (length s) prev s
  | Opt r1 =>
      orelse
        (rmatch r1 prev s (fun prev' s' =>
           if (length s' <? length s)%nat then k prev' s' else None))
        (k prev s)
  | Bol => match prev with None => k prev s | Some _ => None end
  | Eol => match s with [] => k prev s | _ :: _ => None end
  | WordB =>
      let a := match prev with Some c => is_word c | None => false end in
      let b := match s with c :: _ => is_word c | [] => false end in
      if xorb a b then k prev s else None
  | NegLook r1 =>
      match rmatch r1 prev s (fun _ s' => Some s') with
      | Some _ => None
      | None => k prev s
      end
  end.

(** One or more rounds. *)
Definition Plus (greedy : bool) (r : regex) : regex := Seq r (Star greedy r).

Fixpoint seq_of (rs : list regex) : regex :=
  match rs with
  | [] => Eps
  | [r] => r
  | r :: rs' => Seq r (seq_of rs')
  end.

Fixpoint alt_of (rs : list regex) : regex :=
  match rs with
  | [] => NegLook Eps
  | [r] => r
  | r :: rs' => Alt r (alt_of rs')
  end.

(** A literal under the [i] flag. *)
Definition lit_ci (s : string) : regex := seq_of (map (fun c => Chr (eq_ci c)) (str s)).

(** [.] *)
Definition dot : N -> bool := fun c => negb (is_line_terminator c).

(** A class given by its members, and the same under the [i] flag. *)
Definition one_of (s : string) : N -> bool := fun c => existsb (N.eqb c) (str s).
Definition one_of_ci (s : string) : N -> bool := fun c => existsb (fun p => eq_ci p c) (str s).

(** The rest of the input after a match that starts at the current position. *)
Definition exec_at (r : regex) (prev : option N) (s : jsstring) : option jsstring :=
  rmatch r prev s (fun _ s' => Some s').

(** [r.test(s)] from [lastIndex = 0]: is there a match at some position. *)
Fixpoint test_from (r : regex) (prev : option N) (s : jsstring) : bool :=
  match exec_at r prev s with
  | Some _ => true
  | None => match s with [] => false | c :: s' => test_from r (Some c) s' end
  end.

Definition test (r : regex) (s : jsstring) : bool := test_from r None s.

(** [s.replace(r, repl)] for a regex with the [g] flag and a replacement
    text without [$] patterns. [skip] counts the code units of the current
    match that are still to be dropped. *)
Fixpoint replace_go (r : regex) (repl : jsstring) (skip : nat) (prev : option N)
  (s : jsstring) {struct s} : jsstring :=
  match skip with
  | S n =>
      match s with
      | [] => []
      | c :: s' => replace_go r repl n (Some c) s'
      end
  | O =>
      match exec_at r prev s with
      | Some rest =>
          repl ++
          match (length s - length rest)%nat, s with
          | _, [] => []
          | O, c :: s' => c :: replace_go r repl 0 (Some c) s'
          | S n, c :: s' => replace_go r repl n (Some c) s'
          end
      | None =>
          match s with
          | [] => []
          | c :: s' => c :: replace_go r repl 0 (Some c) s'
          end
      end
  end.

Definition replace_all (r : regex) (repl : jsstring) (s : jsstring) : jsstring :=
  replace_go r repl 0 None s.

(** [s.split(r)]: [cur] is the piece collected since the last separator. *)
Fixpoint split_go (r : regex) (skip : nat) (prev : option N) (cur : jsstring)
  (s : jsstring) {struct s} : list jsstring :=
  match s with
  | [] => [cur]
  | c :: s' =>
      match skip with
      | S n => split_go r n (Some c) cur s'
      | O =>
          match exec_at r prev s with
          | Some rest =>
              match (length s - length rest)%nat with
              | O =>
                  match cur with
                  | [] => split_go r 0 (Some c) [c] s'
                  | _ :: _ => cur :: split_go r 0 (Some c) [c] s'
                  end
              | S n => cur :: split_go r n (Some c) [] s'
              end
          | None => split_go r 0 (Some c) (cur ++ [c]) s'
          end
      end
  end.

Definition split (r : regex) (s : jsstring) : list jsstring :=
  match s with
  | [] => match exec_at r None [] with Some _ => [] | None => [[]] end
  | _ :: _ => split_go r 0 None [] s
  end.

(** ** bookAgent.ts: the excerpt extractor (lines 207-252) *)

Module BookAgent.

(** [[\r\n]] *)
Definition is_crlf (c : N) : bool := (c =? 13) || (c =? 10).

(** [/.*?Project Gutenberg.*?[\r\n]+/gi] *)
Definition re_header : regex :=
  seq_of [Star false (Chr dot); lit_ci "Project Gutenberg";
          Star false (Chr dot); Plus true (Chr is_crlf)].

(** [/[\r\n]+.*?End of Project Gutenberg.*$/gi] *)
Definition re_footer_end_of : regex :=
  seq_of [Plus true (Chr is_crlf); Star false (Chr dot);
          lit_ci "End of Project Gutenberg"; Star true (Chr dot); Eol].

(** [/[\r\n]+.*?END OF.*?PROJECT GUTENBERG.*$/gi] *)
Definition re_footer_END_OF : regex :=
  seq_of [Plus true (Chr is_crlf); Star false (Chr dot); lit_ci "END OF";
          Star false (Chr dot); lit_ci "PROJECT GUTENBERG";
          Star true (Chr dot); Eol].

(** [/[\r\n]+/] *)
Definition re_newlines : regex := Plus true (Chr is_crlf).

(** [/^(chapter|contents|index|table of contents)/i] *)
Definition re_heading : regex :=
  Seq Bol (alt_of [lit_ci "chapter"; lit_ci "contents"; lit_ci "index";
                   lit_ci "table of contents"]).

(** [/^[IVX]+\.?\s*$/i] *)
Definition re_roman : regex :=
  seq_of [Bol; Plus true (Chr (one_of_ci "IVX")); Opt (Chr (N.eqb 46));
          Star true (Chr is_white_space); Eol].

(** [/^\d+\.?\s*$/] *)
Definition re_number : regex :=
  seq_of [Bol; Plus true (Chr is_digit); Opt (Chr (N.eqb 46));
          Star true (Chr is_white_space); Eol].

(** [/\s+/g] *)
Definition re_spaces : regex := Plus true (Chr is_white_space).

(** Lines 237-238: the two quote classes; both members of each class are
    the plain ASCII quote (code units 34 and 39) in the source file. *)
Definition re_double_quote : regex := Chr (fun c => (c =? 34) || (c =? 34)).
Definition re_single_quote : regex := Chr (fun c => (c =? 39) || (c =? 39)).

(** Line 239: the negated class of word characters, white space and the
    punctuation marks . , ! ? ; : ( ) - and both ASCII quotes. *)
Definition re_disallowed : regex :=
  Chr (fun c => negb (is_word c || is_white_space c
                      || one_of ".,!?;:" c || (c =? 39) || (c =? 34) || one_of "()-" c)).

(** Lines 209-212: the three boilerplate replacements. *)
Definition stripBoilerplate (fullText : jsstring) : jsstring :=
  replace_all re_footer_END_OF []
    (replace_all re_footer_end_of []
       (replace_all re_header [] fullText)).

(** Line 215: [cleanedText.split(/[\r\n]+/).filter(line => line.trim().length > 0)]. *)
Definition nonBlankLines (cleanedText : jsstring) : list jsstring :=
  List.filter (fun line => (0 <? length (trim line))%nat) (split re_newlines cleanedText).

(** Lines 221-224: the test a line must pass to start the excerpt;
    [line] is already trimmed. *)
Definition isGoodStart (line : jsstring) : bool :=
  (50 <? length line)%nat
  && negb (test re_heading line)
  && negb (test re_roman line)
  && negb (test re_number line).

(** Lines 217-228: [startIndex] stays 0 unless an iteration sets it and
    breaks; [n] is the number of iterations left, [i] the loop variable. *)
Fixpoint scanStart (n i : nat) (lines : list jsstring) : nat :=
  match n with
  | O => 0%nat
  | S n' =>
      match lines !! i with
      | Some l => if isGoodStart (trim l) then i else scanStart n' (S i) lines
      | None => 0%nat
      end
  end.

Definition startIndexOf (lines : list jsstring) : nat :=
  scanStart (Nat.min 20 (length lines)) 0 lines.

(** Lines 235-239. *)
Definition cleanUp (excerpt : jsstring) : jsstring :=
  replace_all re_disallowed []
    (replace_all re_single_quote [39]
       (replace_all re_double_quote [34]
          (replace_all re_spaces (str " ") excerpt))).

(** Lines 242-249. *)
Definition ensureLength (lines : list jsstring) (startIndex : nat)
  (excerpt : jsstring) : jsstring :=
  if (500 <? length excerpt)%nat then
    substring 0 497 excerpt ++ str "..."
  else if (length excerpt <? 100)%nat && (startIndex + 10 <? length lines)%nat then
    let moreLines := slice (startIndex + 10) (startIndex + 20) lines in
    let moreText := trim (join (str " ") moreLines) in
    substring 0 497 (excerpt ++ str " " ++ moreText) ++ str "..."
  else excerpt.

Definition placeholder : jsstring := str "Excerpt not available for this book.".

Definition extractCleanExcerpt (fullText bookTitle : jsstring) : jsstring :=
  let cleanedText := stripBoilerplate fullText in
  let lines := nonBlankLines cleanedText in
  let startIndex := startIndexOf lines in
  let excerptLines := slice startIndex (startIndex + 10) lines in
  let excerpt := trim (join (str " ") excerptLines) in
  let excerpt := cleanUp excerpt in
  let excerpt := ensureLength lines startIndex excerpt in
  match excerpt with
  | [] => placeholder
  | _ :: _ => excerpt
  end.

(** Line 147: [encodeURIComponent]. The unreserved code units are kept;
    every other code point is written as the bytes of its UTF-8 form, each
    as a percent sign and two upper-case hexadecimal digits. A surrogate
    that is not half of a pair makes the call throw a [URIError]: the
    result is [None] then. *)
Definition is_high_surrogate (c : N) : bool := in_range 0xD800 0xDBFF c.
Definition is_low_surrogate (c : N) : bool := in_range 0xDC00 0xDFFF c.

Definition uriUnreserved (c : N) : bool :=
  is_upper c || is_lower c || is_digit c || one_of "-_.!~*'()" c.

Definition hexDigit (n : N) : N := if n <? 10 then 48 + n else 55 + n.

Definition percentByte (b : N) : jsstring := [37; hexDigit (b / 16); hexDigit (b mod 16)].

Definition utf8 (cp : N) : list N :=
  if cp <? 0x80 then [cp]
  else if cp <? 0x800 then [0xC0 + cp / 64; 0x80 + cp mod 64]
  else if cp <? 0x10000 then
    [0xE0 + cp / 4096; 0x80 + (cp / 64) mod 64; 0x80 + cp mod 64]
  else
    [0xF0 + cp / 262144; 0x80 + (cp / 4096) mod 64; 0x80 + (cp / 64) mod 64;
     0x80 + cp mod 64].

Definition percentEncoded (cp : N) : jsstring := flat_map percentByte (utf8 cp).

Fixpoint encodeURIComponent (s : jsstring) : option jsstring :=
  match s with
  | [] => Some []
  | c :: rest =>
      if uriUnreserved c then (fun e => c :: e) <$> encodeURIComponent rest
      else if is_low_surrogate c then None
      else if is_high_surrogate c then
        match rest with
        | d :: rest' =>
            if is_low_surrogate d then
              let cp := 0x10000 + (c - 0xD800) * 0x400 + (d - 0xDC00) in
              (fun e => percentEncoded cp ++ e) <$> encodeURIComponent rest'
            else None
        | [] => None
        end
      else (fun e => percentEncoded c ++ e) <$> encodeURIComponent rest
  end.

(** Lines 146-148. *)
Definition baseUrl : jsstring := str "https://gutendex.com/books".

Definition searchUrl (encodedQuery : jsstring) : jsstring :=
  baseUrl ++ str "?search=" ++ encodedQuery.

(** Line 169: [setTimeout(resolve, delay)]. The timer of Node runs [delay]
    milliseconds when [delay] lies between 1 and 2^31 - 1, and one
    millisecond otherwise. *)
Definition TIMEOUT_MAX : N := 2147483647.

Definition timerDuration (delay : N) : N :=
  if (1 <=? delay) && (delay <=? TIMEOUT_MAX) then delay else 1.

(** Lines 145-172: [searchGutenbergBooks]. The catalog is an oracle [get]
    that tells, for the url, how the request of a given attempt ends: with
    a response or with a thrown error (a timeout after 10 s is one of
    them). The effects are recorded as a trace: the requests, and the
    waits with the time the timer runs. *)
Inductive Event : Type :=
  | Request (attempt : nat)
  | Sleep (ms : N).

Inductive SearchOutcome (R E : Type) : Type :=
  | Returns (response : R)
  | Throws (error : E)
  | ThrowsURIError
  | ReturnsUndefined.
Arguments Returns {R E} response.
Arguments Throws {R E} error.
Arguments ThrowsURIError {R E}.
Arguments ReturnsUndefined {R E}.

(** [maxRetries] is a number: a finite one is a rational here, and the
    loop variable, a whole number, is compared with it. *)
Definition num (n : nat) : Q := inject_Z (Z.of_nat n).

(** The [for] loop: [n] iterations are left, [attempt] is the loop
    variable. [Math.pow(2, attempt) * 1000] is exact as a double up to
    attempt 1014 and [Infinity] from there on, when the exact product is
    above [TIMEOUT_MAX] all the same. *)
Fixpoint searchLoop {R E : Type} (get : nat -> R + E) (maxRetries : Q) (n attempt : nat)
  : list Event * SearchOutcome R E :=
  match n with
  | O => ([], ReturnsUndefined)
  | S n' =>
      match get attempt with
      | inl response => ([Request attempt], Returns response)
      | inr error =>
          if Qeq_bool (num attempt) maxRetries then ([Request attempt], Throws error)
          else
            let delay := 2 ^ N.of_nat attempt * 1000 in
            let '(events, outcome) := searchLoop get maxRetries n' (S attempt) in
            (Request attempt :: Sleep (timerDuration delay) :: events, outcome)
      end
  end.

(** The loop runs while [attempt <= maxRetries], from 1 on: for every
    whole number up to [maxRetries]. *)
Definition iterations (maxRetries : Q) : nat := Z.to_nat (Qfloor maxRetries).

Definition searchGutenbergBooks {R E : Type} (get : jsstring -> nat -> R + E)
  (searchQuery : jsstring) (maxRetries : Q) : list Event * SearchOutcome R E :=
  match encodeURIComponent searchQuery with
  | None => ([], ThrowsURIError)
  | Some encodedQuery =>
      searchLoop (get (searchUrl encodedQuery)) maxRetries (iterations maxRetries) 1
  end.

Definition defaultMaxRetries : Q := inject_Z 3.

End BookAgent.

(** ** Values, thrown errors and JSON-RPC envelopes *)

(** A value of type [unknown] or [any], as far as the code looks at it:
    absent, a string, or something else, of which only the truthiness is
    ever asked. *)
Inductive unknown : Type :=
  | Undefined
  | Str (s : jsstring)
  | Other (truthy : bool).

Definition truthy (v : unknown) : bool :=
  match v with
  | Undefined => false
  | Str s => negb (bool_decide (s = []))
  | Other b => b
  end.

Inductive TaskState : Type := working | completed | canceled.

(** A number, where the code computes one from a text: [NaN], an
    infinity, or a whole number that a double holds. *)
Inductive number : Type :=
  | NaN
  | Infinity (negative : bool)
  | Num (z : Z).

(** The double nearest to a whole number, ties to the even mantissa: a
    magnitude below 2^53 is a double itself, a larger one keeps its 53
    leading bits, and a magnitude that rounds to 2^1024 is an infinity. *)
Definition roundedMagnitude (a : Z) : Z :=
  if (a <? 2 ^ 53)%Z then a
  else
    let shift := (Z.log2 a - 52)%Z in
    let q := Z.shiftr a shift in
    let r := Z.land a (Z.ones shift) in
    let half := Z.shiftl 1 (shift - 1) in
    let q' := if (half <? r)%Z || ((r =? half)%Z && Z.odd q) then (q + 1)%Z else q in
    Z.shiftl q' shift.

Definition toDouble (z : Z) : number :=
  let m := roundedMagnitude (Z.abs z) in
  if (2 ^ 1024 <=? m)%Z then Infinity (z <? 0)%Z else Num (Z.sgn z * m).

Global Instance TaskState_eq_dec : EqDecision TaskState.
Proof. solve_decision. Defined.

(** What a [throw] can carry, and the payloads that travel in the [data]
    and [details] fields. An [AxiosError] has a [code], the status and
    the body of the response if one came, and says whether the request was
    sent. [PMessageOf e] is the [message] of the library's error [e] where
    the library words it. *)
Inductive Thrown : Type :=
  | ValidationError (message : jsstring) (statusCode : Z) (code : jsstring)
      (details : option Payload)
  | ExternalAPIError (message service code : jsstring)
  | ZodError (message : jsstring)
  | Error (message : jsstring)
  | AxiosError (code : option jsstring) (response : option (Z * option jsstring))
      (request : bool) (message : jsstring)
  | NonError (v : unknown)
with Payload : Type :=
  | PThrown (e : Thrown)
  | PCurrentState (currentState : TaskState)
  | PTimeout (timeout : N)
  | PService (service code : jsstring)
  | PAvailableMethods (availableMethods : list jsstring)
  | PText (s : jsstring)
  | PMessageOf (e : Thrown).

(** [new ValidationError(message)] with the defaults of the constructor
    (types.ts, line 277). *)
Definition newValidationError (message : string) : Thrown :=
  ValidationError (str message) 400 (str "VALIDATION_ERROR") None.

(** [error instanceof Error ? error.message : undefined] *)
Definition message_of (e : Thrown) : option jsstring :=
  match e with
  | ValidationError m _ _ _ => Some m
  | ExternalAPIError m _ _ => Some m
  | ZodError m => Some m
  | Error m => Some m
  | AxiosError _ _ _ m => Some m
  | NonError _ => None
  end.

Definition payload_truthy (d : Payload) : bool :=
  match d with
  | PThrown (NonError v) => truthy v
  | PText s => negb (bool_decide (s = []))
  | _ => true
  end.

Inductive result (A : Type) : Type :=
  | Ok (a : A)
  | Throw (e : Thrown).
Arguments Ok {A} a.
Arguments Throw {A} e.

Global Instance result_bind : MBind result := fun A B f x =>
  match x with
  | Ok a => f a
  | Throw e => Throw e
  end.

(** The request id: [string | number]. *)
Inductive ReqId : Type :=
  | IdStr (s : jsstring)
  | IdNum (n : Z).

Definition id_truthy (i : ReqId) : bool :=
  match i with
  | IdStr s => negb (bool_decide (s = []))
  | IdNum n => negb (bool_decide (n = 0%Z))
  end.

(** [id || null] *)
Definition id_or_null (i : option ReqId) : option ReqId :=
  match i with
  | Some i' => if id_truthy i' then Some i' else None
  | None => None
  end.

Record RpcError : Type := mkRpcError {
  err_code : Z;
  err_message : option jsstring;
  err_data : option Payload
}.

(** ** validation.ts *)

Module InputSanitizer.

(** [/[\x00-\x08\x0B\x0C\x0E-\x1F\x7F]/g] *)
Definition is_control (c : N) : bool :=
  in_range 0 8 c || (c =? 11) || (c =? 12) || in_range 14 31 c || (c =? 127).

Definition re_control : regex := Chr is_control.

Definition sanitizeString (input : unknown) : result jsstring :=
  match input with
  | Str s => Ok (trim (replace_all re_control [] s))
  | _ => Throw (newValidationError "Input must be a string")
  end.

(** Line 55, the script-element pattern with flags [gi]: an opening
    [<script] at a word boundary, any run without [<], then any number of
    groups made of a [<] that does not open [</script>] and a run without
    [<], then the closing [</script>]. *)
Definition re_script : regex :=
  let not_lt := fun c => negb (c =? 60) in
  seq_of [lit_ci "<script"; WordB; Star true (Chr not_lt);
          Star true (seq_of [NegLook (lit_ci "</script>"); Chr (N.eqb 60);
                             Star true (Chr not_lt)]);
          lit_ci "</script>"].

(** [/javascript:/gi] *)
Definition re_javascript : regex := lit_ci "javascript:".

(** [/on\w+\s*=/gi] *)
Definition re_handler : regex :=
  seq_of [lit_ci "on"; Plus true (Chr is_word); Star true (Chr is_white_space);
          Chr (N.eqb 61)].

Definition dangerousPatterns : list regex := [re_script; re_javascript; re_handler].

Definition sanitizeSearchQuery (query : unknown) : result jsstring :=
  sanitized ← sanitizeString query;
  if (length sanitized <? 1)%nat then
    Throw (newValidationError "Search query cannot be empty")
  else if (200 <? length sanitized)%nat then
    Throw (newValidationError "Search query is too long (max 200 characters)")
  else if existsb (fun pattern => test pattern sanitized) dangerousPatterns then
    Throw (newValidationError "Search query contains potentially dangerous content")
  else Ok sanitized.

(** [/^[a-zA-Z0-9_-]+$/] *)
Definition is_task_id_char (c : N) : bool :=
  is_lower c || is_upper c || is_digit c || (c =? 95) || (c =? 45).

Definition re_task_id : regex := seq_of [Bol; Plus true (Chr is_task_id_char); Eol].

Definition validateTaskId (taskId : unknown) : result jsstring :=
  sanitized ← sanitizeString taskId;
  match sanitized with
  | [] => Throw (newValidationError "Task ID is required")
  | _ :: _ =>
      if negb (test re_task_id sanitized) then
        Throw (newValidationError "Invalid task ID format")
      else Ok sanitized
  end.

End InputSanitizer.

Module A2AErrorHandler.

Inductive ErrorResponse : Type :=
  mkErrorResponse (error : RpcError) (id : option ReqId).

(** [...(data && { data })] keeps the field only for a truthy payload. *)
Definition createErrorResponse (code : Z) (message : option jsstring)
  (id : option ReqId) (data : option Payload) : ErrorResponse :=
  mkErrorResponse
    {| err_code := code;
       err_message := message;
       err_data := match data with
                   | Some d => if payload_truthy d then Some d else None
                   | None => None
                   end |}
    (id_or_null id).

(** The argument is typed [ValidationError] but only [message] and
    [details] are read, whatever was thrown. *)
Definition handleValidationError (error : Thrown) (id : option ReqId) : ErrorResponse :=
  createErrorResponse (-32602) (message_of error) id
    (match error with ValidationError _ _ _ d => d | _ => None end).

(** [NODE_ENV] and the stack text of the error come from the process. *)
Definition handleInternalError (NODE_ENV : option jsstring)
  (stack : Thrown -> option jsstring) (error : Thrown) (id : option ReqId)
  : ErrorResponse :=
  createErrorResponse (-32603)
    (if bool_decide (NODE_ENV = Some (str "production"))
     then Some (str "Internal error") else message_of error)
    id
    (if bool_decide (NODE_ENV = Some (str "development"))
     then PText <$> stack error else None).

Definition availableMethods : list jsstring :=
  map str ["message/send"; "message/stream"; "tasks/get"; "tasks/cancel";
           "tasks/setPushNotificationConfig"; "tasks/getPushNotificationConfig";
           "tasks/resubscribe"]%string.

Definition handleMethodNotFound (method : jsstring) (id : option ReqId) : ErrorResponse :=
  createErrorResponse (-32601) (Some (str "Method not found: " ++ method)) id
    (Some (PAvailableMethods availableMethods)).

Definition handleTaskNotFound (taskId : jsstring) (id : option ReqId) : ErrorResponse :=
  createErrorResponse (-32001) (Some (str "Task not found: " ++ taskId)) id None.

End A2AErrorHandler.

(** ** telexIntegration.ts: the data model (lines 239-294) *)

Inductive Role : Type := user | assistant.
Inductive PartType : Type := text | file | data.

Global Instance PartType_eq_dec : EqDecision PartType.
Proof. solve_decision. Defined.

Module Part.
Record t : Type := mk {
  type : PartType;
  text : option jsstring;
  file : unknown;
  data : unknown
}.
End Part.

Module TelexMessage.
Record t : Type := mk {
  role : Role;
  parts : list Part.t
}.
End TelexMessage.

(** The result of the extraction, an object bag in the source: the book
    shape, the error shape, or a mix of both (bookAgent.ts, lines 43-50,
    75-80, 109-117 and 123-139). *)
Module BookResult.
Record t : Type := mk {
  error : option jsstring;
  code : option jsstring;
  details : option Payload;
  suggestions : option (list jsstring);
  availableFormats : option (list jsstring);
  title : option jsstring;
  authors : option jsstring;
  excerpt : option jsstring;
  source : option jsstring;
  downloadCount : option N;
  languages : option (list jsstring);
  subjects : option (list jsstring)
}.
End BookResult.

(** What [bookExtractorAgent.generate] resolves with: [any]. *)
Inductive AnyResult : Type :=
  | Nullish
  | Obj (r : BookResult.t).

(** ** bookAgent.ts: the tool (lines 22-141, 175-204, 255-309) *)

Module Book.
(** A record of the catalog. An author is given by its name, [None] where
    the entry or its name is missing; [formats] lists the media types and
    their links in the order of the keys. *)
Record t : Type := mk {
  title : option jsstring;
  authors : option (list (option jsstring));
  formats : option (list (jsstring * jsstring));
  download_count : option N;
  languages : option (list jsstring);
  subjects : option (list jsstring)
}.
End Book.

(** The answer of the catalog to a search: its [data.results], with [None]
    for an entry that is not an object, or a body of another shape. *)
Inductive SearchResponse : Type :=
  | BadFormat
  | Results (results : list (option Book.t)).

Module BookTool.

Import BookAgent.

Definition quote : jsstring := [34].

Definition gutendex : jsstring := str "gutendex".

Definition externalAPIError (message : jsstring) : Thrown :=
  ExternalAPIError message gutendex (str "EXTERNAL_API_ERROR").

Definition errorResult (error code details : option jsstring) : BookResult.t :=
  {| BookResult.error := error; BookResult.code := code;
     BookResult.details := PText <$> details; BookResult.suggestions := None;
     BookResult.availableFormats := None; BookResult.title := None;
     BookResult.authors := None; BookResult.excerpt := None;
     BookResult.source := None; BookResult.downloadCount := None;
     BookResult.languages := None; BookResult.subjects := None |}.

(** Lines 255-309. *)
Definition handleAxiosError (code : option jsstring)
  (response : option (Z * option jsstring)) (request : bool) (message : jsstring)
  : BookResult.t :=
  if bool_decide (code = Some (str "ECONNABORTED")) then
    errorResult (Some (str "Request timeout while searching for books"))
      (Some (str "TIMEOUT_ERROR"))
      (Some (str "The search request took too long to complete"))
  else
    match response with
    | Some (status, body) =>
        if bool_decide (status = 429%Z) then
          errorResult (Some (str "Too many requests to Gutenberg API"))
            (Some (str "RATE_LIMIT_ERROR")) (Some (str "Please try again later"))
        else if bool_decide (status = 500%Z) || bool_decide (status = 502%Z)
                || bool_decide (status = 503%Z) then
          errorResult (Some (str "Gutenberg API is temporarily unavailable"))
            (Some (str "SERVICE_UNAVAILABLE")) (Some (str "Please try again later"))
        else if bool_decide (status = 404%Z) then
          errorResult (Some (str "Gutenberg API endpoint not found"))
            (Some (str "API_NOT_FOUND"))
            (Some (str "The search service is currently unavailable"))
        else
          errorResult
            (Some (str "Gutenberg API returned error " ++ str (pretty status)))
            (Some (str "API_ERROR"))
            (Some (match body with
                   | Some ((_ :: _) as b) => b
                   | _ => str "Unknown API error"
                   end))
    | None =>
        if request then
          errorResult (Some (str "Unable to connect to Gutenberg API"))
            (Some (str "CONNECTION_ERROR"))
            (Some (str "Please check your internet connection"))
        else
          errorResult
            (Some (str "An unexpected error occurred while searching for books"))
            (Some (str "UNKNOWN_ERROR")) (Some message)
    end.

(** Lines 119-140: the [catch] of [execute]. *)
Definition resultOfError (error : Thrown) : BookResult.t :=
  match error with
  | ValidationError message _ code details =>
      {| BookResult.error := Some message; BookResult.code := Some code;
         BookResult.details := details; BookResult.suggestions := None;
         BookResult.availableFormats := None; BookResult.title := None;
         BookResult.authors := None; BookResult.excerpt := None;
         BookResult.source := None; BookResult.downloadCount := None;
         BookResult.languages := None; BookResult.subjects := None |}
  | ExternalAPIError message service code =>
      errorResult (Some message) (Some code) (Some service)
  | AxiosError code response request message =>
      handleAxiosError code response request message
  | _ =>
      errorResult (Some (str "An unexpected error occurred while fetching book data."))
        (Some (str "UNKNOWN_ERROR"))
        (Some (default (str "Unknown error") (message_of error)))
  end.

(** Lines 175-204: [fetch] tells how the request for the text ends. *)
Definition fetchBookContent (fetch : jsstring -> unknown + Thrown)
  (textUrl bookTitle : jsstring) : result unknown :=
  match fetch textUrl with
  | inl body => Ok body
  | inr (AxiosError code response _ _ as error) =>
      if bool_decide (code = Some (str "ECONNABORTED")) then
        Throw (externalAPIError
                 (str "Timeout while fetching content for " ++ quote ++ bookTitle ++ quote))
      else if bool_decide (fst <$> response = Some 404%Z) then
        Throw (externalAPIError
                 (str "Book content not found for " ++ quote ++ bookTitle ++ quote))
      else Throw error
  | inr error => Throw error
  end.

(** [formats[key]] *)
Fixpoint formatLink (key : jsstring) (formats : list (jsstring * jsstring))
  : option jsstring :=
  match formats with
  | [] => None
  | (k, v) :: rest => if bool_decide (k = key) then Some v else formatLink key rest
  end.

(** [a || b] on links: the first that is a non-empty string. *)
Definition orLink (a b : option jsstring) : option jsstring :=
  match a with
  | Some (_ :: _) => a
  | _ => b
  end.

Definition noBooksFound : BookResult.t :=
  {| BookResult.error := Some (str "No books found for that query.");
     BookResult.code := None; BookResult.details := None;
     BookResult.suggestions :=
       Some [str "Try using different keywords";
             str "Check spelling of author names or book titles";
             str "Try more general search terms"];
     BookResult.availableFormats := None; BookResult.title := None;
     BookResult.authors := None; BookResult.excerpt := None;
     BookResult.source := None; BookResult.downloadCount := None;
     BookResult.languages := None; BookResult.subjects := None |}.

(** Lines 26-117: the [try] block of [execute], after the search. *)
Definition afterSearch (fetch : jsstring -> unknown + Thrown)
  (URL_parses : jsstring -> bool) (searchResponse : SearchResponse)
  : result BookResult.t :=
  match searchResponse with
  | BadFormat =>
      Throw (externalAPIError (str "Invalid response format from Gutenberg API"))
  | Results [] => Ok noBooksFound
  | Results (None :: _) =>
      Throw (externalAPIError (str "Invalid book data structure from Gutenberg API"))
  | Results (Some book :: _) =>
      let title :=
        match Book.title book with
        | Some ((_ :: _) as t) => t
        | _ => str "Unknown Title"
        end in
      let authors :=
        match Book.authors book with
        | Some l =>
            join (str ", ")
              (map (fun a => match a with
                             | Some ((_ :: _) as name) => name
                             | _ => str "Unknown Author"
                             end) l)
        | None => str "Unknown Author"
        end in
      let formats := default [] (Book.formats book) in
      let textUrl :=
        orLink (formatLink (str "text/plain; charset=us-ascii") formats)
          (orLink (formatLink (str "text/plain") formats)
             (formatLink (str "text/plain; charset=utf-8") formats)) in
      match textUrl with
      | Some ((_ :: _) as textUrl) =>
          if negb (URL_parses textUrl) then
            Throw (externalAPIError
                     (str "Invalid text URL format for book " ++ quote ++ title ++ quote))
          else
            content ← fetchBookContent fetch textUrl title;
            match content with
            | Str ((_ :: _) as fullText) =>
                let excerpt := extractCleanExcerpt fullText title in
                Ok {| BookResult.error := None; BookResult.code := None;
                      BookResult.details := None; BookResult.suggestions := None;
                      BookResult.availableFormats := None;
                      BookResult.title := Some title;
                      BookResult.authors := Some authors;
                      BookResult.excerpt := Some excerpt;
                      BookResult.source := Some (str "Project Gutenberg");
                      BookResult.downloadCount :=
                        Some (default 0 (Book.download_count book));
                      BookResult.languages := Some (default [] (Book.languages book));
                      BookResult.subjects := Some (default [] (Book.subjects book)) |}
            | _ =>
                Throw (externalAPIError
                         (str "Invalid content format for book " ++ quote ++ title ++ quote))
            end
      | _ =>
          Ok {| BookResult.error :=
                  Some (str "Found book " ++ quote ++ title ++ quote
                        ++ str " but no plain text version is available.");
                BookResult.code := None; BookResult.details := None;
                BookResult.suggestions := None;
                BookResult.availableFormats := Some (formats.*1);
                BookResult.title := Some title;
                BookResult.authors := Some authors;
                BookResult.excerpt := None; BookResult.source := None;
                BookResult.downloadCount := None; BookResult.languages := None;
                BookResult.subjects := None |}
      end
  end.

(** Lines 22-141: [execute], with the trace of the search. The search is
    called with its default of three attempts, so it returns a response or
    throws; reading [data] of [undefined] would be a [TypeError]. The
    [URIError] of the encoding is an [Error] as any other to the [catch]. *)
Definition execute (get : jsstring -> nat -> SearchResponse + Thrown)
  (fetch : jsstring -> unknown + Thrown) (URL_parses : jsstring -> bool)
  (searchQuery : jsstring) : list Event * BookResult.t :=
  if (length (trim searchQuery) =? 0)%nat then
    ([], resultOfError (newValidationError "Search query cannot be empty"))
  else
    let '(events, outcome) := searchGutenbergBooks get searchQuery defaultMaxRetries in
    (events,
     match outcome with
     | Returns searchResponse =>
         match afterSearch fetch URL_parses searchResponse with
         | Ok r => r
         | Throw error => resultOfError error
         end
     | Throws error => resultOfError error
     | ThrowsURIError => resultOfError (Error (str "URI malformed"))
     | ReturnsUndefined =>
         resultOfError (Error (str "Cannot read properties of undefined (reading 'data')"))
     end).

End BookTool.

Module TelexTaskStatus.
Record t : Type := mk {
  state : TaskState;
  timestamp : N;
  message : option TelexMessage.t
}.
End TelexTaskStatus.

Module TelexArtifact.
Record t : Type := mk {
  type : jsstring;
  name : option jsstring;
  data : AnyResult;
  timestamp : N
}.
End TelexArtifact.

Inductive AuthType : Type := bearer | basic.

Module Authentication.
Record t : Type := mk {
  type : AuthType;
  token : option jsstring;
  username : option jsstring;
  password : option jsstring
}.
End Authentication.

Module PushNotificationConfig.
Record t : Type := mk {
  url : option jsstring;
  authentication : option Authentication.t
}.
End PushNotificationConfig.

(** The [data] of a history record, one shape per event. *)
Inductive HistoryData : Type :=
  | TaskCreated (searchQuery userAgent : jsstring)
  | TaskCompleted (result : AnyResult)
  | TaskCanceled (reason : jsstring) (canceledAt : N)
  | PushConfigSet (configuredAt : N) (hasUrl hasAuth : bool)
  | TaskResubscribed (resubscribedAt : N) (currentState : TaskState).

Module HistoryRecord.
Record t : Type := mk {
  timestamp : N;
  event : jsstring;
  data : HistoryData
}.
End HistoryRecord.

Module TelexTask.
Record t : Type := mk {
  id : jsstring;
  status : TelexTaskStatus.t;
  artifacts : list TelexArtifact.t;
  history : list HistoryRecord.t;
  sessionId : option jsstring;
  pushNotificationConfig : option PushNotificationConfig.t
}.
End TelexTask.

(** The bodies of the [result] field, one per place that builds one. *)
Inductive ResultBody : Type :=
  | SendResult (task : TelexTask.t) (message : option TelexMessage.t)
      (processingTime : number)
  | GetResult (task : TelexTask.t) (retrievedAt : N) (age : number)
  | CancelResult (task : TelexTask.t) (canceledAt : N)
  | SetPushResult (task : TelexTask.t)
      (pushNotificationConfig : option PushNotificationConfig.t) (configuredAt : N)
  | GetPushResult (taskId : jsstring)
      (pushNotificationConfig : option PushNotificationConfig.t)
      (hasConfig : bool) (retrievedAt : N)
  | ResubscribeResult (task : TelexTask.t) (resubscribed : bool)
      (resubscribedAt : N) (currentState : TaskState) (message : jsstring)
  | StreamTask (task : TelexTask.t) (status : jsstring) (timestamp : N)
  | StreamProgress (taskId : jsstring) (status message : jsstring) (timestamp : N)
  | StreamMessage (taskId : jsstring) (message : option TelexMessage.t)
      (processingTime : number)
  | StreamStatus (taskId : jsstring) (status : jsstring) (timestamp : N).

Inductive TelexResponse : Type :=
  | Success (result : ResultBody) (id : ReqId)
  | Failure (e : A2AErrorHandler.ErrorResponse).

(** The request parameters, [any] in the source. A message or a config
    that is present but not of the shape its schema asks for is [Bad...]. *)
Inductive MessageParam : Type :=
  | NoMessage
  | BadMessage
  | Message (m : TelexMessage.t).

Inductive ConfigParam : Type :=
  | NoConfig
  | BadConfig
  | Config (c : PushNotificationConfig.t).

Module Params.
Record t : Type := mk {
  id : unknown;
  message : MessageParam;
  sessionId : unknown;
  pushNotificationConfig : ConfigParam
}.
End Params.

Module TelexRequest.
Record t : Type := mk {
  method : unknown;
  params : option Params.t;
  id : option ReqId
}.
End TelexRequest.

(** How the race between [bookExtractorAgent.generate] and the 30 s timer
    ends; the timer rejects with [Error "Request timeout"]. *)
Inductive Outcome : Type :=
  | Resolved (result : AnyResult)
  | Rejected (error : Thrown).

(** What a handler takes from its surroundings. [now k] is the [k]-th
    reading of the clock during the call, in milliseconds; a timestamp is
    kept as the reading, its ISO rendering is not modelled. *)
Record Env : Type := mkEnv {
  now : nat -> N;
  randomSuffix : jsstring;
  generate : jsstring -> Outcome;
  URL_parses : jsstring -> bool;
  zod_url : jsstring -> bool;
  NODE_ENV : option jsstring;
  stack : Thrown -> option jsstring
}.

(** The HTTP response object of [message/stream]. Its methods belong to
    the server framework: each may throw, as the object says. A frame is
    kept as the object that [JSON.stringify] would be given. *)
Module Response.
Record t : Type := mk {
  writeHead_throws : option Thrown;
  write_throws : option Thrown;
  end_throws : option Thrown;
  head : option (Z * list (string * string));
  frames : list TelexResponse;
  ended : bool
}.
End Response.

(** [TelexTaskStore]: the [taskCache] map, with the methods that read or
    write one entry. [getAllTasks], which nothing calls, lists the values
    in the order of their insertion, which this map does not keep. *)
Module TelexTaskStore.

Abbreviation t := (gmap jsstring TelexTask.t).

Definition createTask (task : TelexTask.t) (taskCache : t) : t :=
  <[TelexTask.id task := task]> taskCache.

Definition getTask (taskId : jsstring) (taskCache : t) : option TelexTask.t :=
  taskCache !! taskId.

Definition updateTask (taskId : jsstring) (task : TelexTask.t) (taskCache : t) : t :=
  <[taskId := task]> taskCache.

Definition deleteTask (taskId : jsstring) (taskCache : t) : t * bool :=
  (delete taskId taskCache, bool_decide (is_Some (taskCache !! taskId))).

End TelexTaskStore.

(** ** The zod schemas of validation.ts (lines 164-206)

    A failed check throws the [ZodError] of the library. Its message is
    the library's rendering of the failed checks; what is kept of it here
    is the text the schema gives for the check, or [Invalid input] where
    the schema gives none. The handlers send such an error on as it is or
    replace it by an error of their own; the one place that reads its
    message, the [data] of the -32600 answer of [validateRequest], carries
    it as [PMessageOf]. *)

Module schemas.

Definition telexMessage (m : MessageParam) : result TelexMessage.t :=
  match m with
  | Message m' =>
      match TelexMessage.parts m' with
      | [] => Throw (ZodError (str "Message must have at least one part"))
      | _ :: _ => Ok m'
      end
  | _ => Throw (ZodError (str "Invalid input"))
  end.

Definition telexRequest (request : TelexRequest.t) : result TelexRequest.t :=
  match TelexRequest.method request with
  | Str [] => Throw (ZodError (str "Method is required"))
  | Str (_ :: _) => Ok request
  | _ => Throw (ZodError (str "Invalid input"))
  end.

Definition taskId (v : unknown) : result jsstring :=
  match v with
  | Str [] => Throw (ZodError (str "Task ID is required"))
  | Str (_ :: _) => InputSanitizer.validateTaskId v
  | _ => Throw (ZodError (str "Invalid input"))
  end.

(** The check of [z.string().url()] is the library's own: [zod_url]. *)
Definition pushNotificationConfig (zod_url : jsstring -> bool) (c : ConfigParam)
  : result (option PushNotificationConfig.t) :=
  match c with
  | NoConfig => Ok None
  | BadConfig => Throw (ZodError (str "Invalid input"))
  | Config c' =>
      match PushNotificationConfig.url c' with
      | Some u => if zod_url u then Ok (Some c') else Throw (ZodError (str "Invalid URL format"))
      | None => Ok (Some c')
      end
  end.

End schemas.

(** ** Helpers for text built from numbers *)

(** [String(n)] for a natural number. *)
Definition decimal (n : N) : jsstring := str (pretty n).

(** [n.toLocaleString()] in the en-US locale: groups of three digits. *)
Fixpoint group_thousands (k : nat) (rev_digits : jsstring) : jsstring :=
  match rev_digits with
  | [] => []
  | d :: rest =>
      if (k =? 3)%nat then 44 :: d :: group_thousands 1 rest
      else d :: group_thousands (S k) rest
  end.

Definition toLocaleString (n : N) : jsstring :=
  rev (group_thousands 0 (rev (decimal n))).

(** [s.split(sep)] for a separator of one code unit. *)
Fixpoint split_on_go (sep : N) (cur s : jsstring) : list jsstring :=
  match s with
  | [] => [cur]
  | c :: s' =>
      if c =? sep then cur :: split_on_go sep [] s'
      else split_on_go sep (cur ++ [c]) s'
  end.

Definition split_on (sep : N) (s : jsstring) : list jsstring := split_on_go sep [] s.

Fixpoint digits_value (acc : Z) (s : jsstring) : Z :=
  match s with
  | c :: s' =>
      if is_digit c then digits_value (10 * acc + (Z.of_N c - 48)) s' else acc
  | [] => acc
  end.

(** [parseInt(v, 10)]: white space, a sign and the digits up to the first
    code unit that is no digit; the value of the digits is taken to the
    nearest double. *)
Definition parseInt10 (v : option jsstring) : number :=
  match v with
  | None => NaN
  | Some s =>
      let s := trimStart s in
      let '(sign, s) :=
        match s with
        | 45 :: s' => ((-1)%Z, s')
        | 43 :: s' => (1%Z, s')
        | _ => (1%Z, s)
        end in
      match s with
      | c :: _ => if is_digit c then toDouble (sign * digits_value 0 s) else NaN
      | [] => NaN
      end
  end.

(** [Date.now() - parseInt(id.split('_')[1], 10)]: the difference of two
    doubles is the double nearest to the exact difference. *)
Definition elapsedSince (dateNow : N) (id : jsstring) : number :=
  match parseInt10 (split_on 95 id !! 1%nat) with
  | NaN => NaN
  | Infinity negative => Infinity (negb negative)
  | Num t => toDouble (Z.of_N dateNow - t)
  end.

Definition newline : jsstring := [10].

(** ** telexIntegration.ts: [TelexIntegrationHandler] *)

Module TelexIntegrationHandler.

Import A2AErrorHandler.

(** [/^[a-zA-Z0-9_\/-]+$/] *)
Definition re_method : regex :=
  seq_of [Bol;
          Plus true (Chr (fun c => InputSanitizer.is_task_id_char c || (c =? 47)));
          Eol].

(** Lines 381-429; [None] stands for [{ valid: true }]. *)
Definition validateRequest (request : TelexRequest.t) : option ErrorResponse :=
  match schemas.telexRequest request with
  | Ok _ =>
      match TelexRequest.method request with
      | Str method =>
          if negb (truthy (Str method)) then
            Some (createErrorResponse (-32600)
                    (Some (str "Invalid Request: method is required and must be a string"))
                    (TelexRequest.id request) None)
          else if negb (test re_method method) then
            Some (createErrorResponse (-32600)
                    (Some (str "Invalid Request: method contains invalid characters"))
                    (TelexRequest.id request) None)
          else None
      | _ =>
          Some (createErrorResponse (-32600)
                  (Some (str "Invalid Request: method is required and must be a string"))
                  (TelexRequest.id request) None)
      end
  | Throw (ValidationError _ _ _ _ as error) =>
      Some (handleValidationError error (TelexRequest.id request))
  | Throw (ZodError _ as error) =>
      Some (createErrorResponse (-32600) (Some (str "Invalid Request format"))
              (TelexRequest.id request) (Some (PMessageOf error)))
  | Throw error =>
      Some (createErrorResponse (-32600) (Some (str "Invalid Request format"))
              (TelexRequest.id request)
              (Some (PText (default (str "Unknown error") (message_of error)))))
  end.

Definition queryPrefix : jsstring := str "Find a book with: query:".

(** Lines 434-470. The checks on the array of parts hold by typing; every
    throw in the body is a [ValidationError], which the [catch] rethrows. *)
Definition extractSearchQuery (message : TelexMessage.t) : result jsstring :=
  let textPart :=
    List.find (fun part =>
      bool_decide (Part.type part = text)
      && match Part.text part with Some s => truthy (Str s) | None => false end)
      (TelexMessage.parts message) in
  match textPart with
  | None => Throw (newValidationError "Message must contain a text part with content")
  | Some part =>
      match Part.text part with
      | None | Some [] =>
          Throw (newValidationError "Message must contain a text part with content")
      | Some messageText =>
          if (length (trim messageText) =? 0)%nat then
            Throw (newValidationError "Message text cannot be empty")
          else
            sanitizedText ← InputSanitizer.sanitizeString (Str messageText);
            let searchQuery :=
              if includes queryPrefix sanitizedText
              then trim (replace_first queryPrefix sanitizedText)
              else trim sanitizedText in
            InputSanitizer.sanitizeSearchQuery (Str searchQuery)
      end
  end.

Definition errorGlyph : jsstring := [0x274C].
Definition bulbGlyph : jsstring := [0xD83D; 0xDCA1].
Definition booksGlyph : jsstring := [0xD83D; 0xDCDA].

Definition truthy_text (o : option jsstring) : bool :=
  match o with Some (_ :: _) => true | _ => false end.

Fixpoint numbered (index : nat) (l : list jsstring) : jsstring :=
  match l with
  | [] => []
  | suggestion :: l' =>
      decimal (N.of_nat (index + 1)) ++ str ". " ++ suggestion ++ newline
      ++ numbered (S index) l'
  end.

(** Lines 475-531. Reading a field of a nullish result is the [TypeError]
    that the outer [catch] turns into the last message. *)
Definition formatBookResponse (result : AnyResult) : jsstring :=
  match result with
  | Nullish => errorGlyph ++ str " Error: Failed to format book response"
  | Obj r =>
      if truthy_text (BookResult.error r) then
        let errorMessage := errorGlyph ++ str " Error: " ++ default [] (BookResult.error r) in
        let errorMessage :=
          match BookResult.suggestions r with
          | Some suggestions =>
              errorMessage ++ newline ++ newline ++ bulbGlyph ++ str " Suggestions:"
              ++ newline ++ numbered 0 suggestions
          | None => errorMessage
          end in
        if truthy_text (BookResult.code r) then
          errorMessage ++ newline ++ newline ++ str "Error Code: "
          ++ default [] (BookResult.code r)
        else errorMessage
      else if negb (truthy_text (BookResult.title r))
              || negb (truthy_text (BookResult.authors r))
              || negb (truthy_text (BookResult.excerpt r)) then
        errorGlyph ++ str " Error: "
        ++ str "Invalid book result format: missing required fields"
      else
        let response :=
          booksGlyph ++ str " **" ++ default [] (BookResult.title r) ++ str "**"
          ++ newline ++ newline ++ str "*By " ++ default [] (BookResult.authors r)
          ++ str "*" ++ newline ++ newline ++ default [] (BookResult.excerpt r) in
        let response :=
          if truthy_text (BookResult.source r) then
            response ++ newline ++ newline ++ str "*Source: "
            ++ default [] (BookResult.source r) ++ str "*"
          else response in
        let response :=
          match BookResult.downloadCount r with
          | Some n =>
              if n =? 0 then response
              else response ++ newline ++ str "*Downloads: " ++ toLocaleString n ++ str "*"
          | None => response
          end in
        let response :=
          match BookResult.languages r with
          | Some ((_ :: _) as languages) =>
              response ++ newline ++ str "*Languages: " ++ join (str ", ") languages
              ++ str "*"
          | _ => response
          end in
        let response :=
          match BookResult.subjects r with
          | Some ((_ :: _) as subjects) =>
              response ++ newline ++ str "*Topics: "
              ++ join (str ", ") (slice 0 5 subjects)
              ++ (if (5 <? length subjects)%nat then str "..." else [])
              ++ str "*"
          | _ => response
          end in
        response ++ newline ++ newline
        ++ str "*Excerpt from Project Gutenberg - Public Domain*"
  end.

(** Lines 536-588. [clock k] is the [k]-th reading of the clock in the
    call. The checks on [message] hold by typing. *)
Definition createTask (clock : nat -> N) (randomSuffix : jsstring)
  (searchQuery : jsstring) (message : TelexMessage.t) (sessionId : unknown)
  : result TelexTask.t :=
  if negb (truthy (Str searchQuery)) then
    Throw (newValidationError "Search query is required and must be a string")
  else
    let timestamp := clock 0%nat in
    let taskId := str "task_" ++ decimal timestamp ++ str "_" ++ randomSuffix in
    validSessionId ←
      (if truthy sessionId then
         validSessionId ← InputSanitizer.sanitizeString sessionId;
         match validSessionId with
         | [] => Throw (newValidationError "Invalid session ID")
         | _ :: _ => Ok (Some validSessionId)
         end
       else Ok None);
    searchQuery' ← InputSanitizer.sanitizeString (Str searchQuery);
    Ok {| TelexTask.id := taskId;
          TelexTask.sessionId :=
            Some (default (str "session_" ++ decimal timestamp) validSessionId);
          TelexTask.status :=
            {| TelexTaskStatus.state := working;
               TelexTaskStatus.timestamp := clock 1%nat;
               TelexTaskStatus.message :=
                 Some {| TelexMessage.role := user;
                         TelexMessage.parts := TelexMessage.parts message |} |};
          TelexTask.artifacts := [];
          TelexTask.history :=
            [ {| HistoryRecord.timestamp := clock 2%nat;
                 HistoryRecord.event := str "task_created";
                 HistoryRecord.data :=
                   TaskCreated searchQuery' (str "A2A-Book-Agent/1.0.0") |} ];
          TelexTask.pushNotificationConfig := None |}.

Definition textMessage (role : Role) (s : jsstring) : TelexMessage.t :=
  {| TelexMessage.role := role;
     TelexMessage.parts :=
       [ {| Part.type := text; Part.text := Some s;
            Part.file := Undefined; Part.data := Undefined |} ] |}.

(** Lines 593-620: the task is changed in place and written back. *)
Definition completeTask (clock : nat -> N) (task : TelexTask.t) (result : AnyResult)
  (taskCache : TelexTaskStore.t) : TelexTaskStore.t * TelexTask.t :=
  let task' :=
    {| TelexTask.id := TelexTask.id task;
       TelexTask.sessionId := TelexTask.sessionId task;
       TelexTask.pushNotificationConfig := TelexTask.pushNotificationConfig task;
       TelexTask.status :=
         {| TelexTaskStatus.state := completed;
            TelexTaskStatus.timestamp := clock 0%nat;
            TelexTaskStatus.message :=
              Some (textMessage assistant (formatBookResponse result)) |};
       TelexTask.artifacts :=
         [ {| TelexArtifact.type := str "book_excerpt";
              TelexArtifact.name := Some (str "Book Excerpt");
              TelexArtifact.data := result;
              TelexArtifact.timestamp := clock 1%nat |} ];
       TelexTask.history :=
         TelexTask.history task ++
         [ {| HistoryRecord.timestamp := clock 2%nat;
              HistoryRecord.event := str "task_completed";
              HistoryRecord.data := TaskCompleted result |} ] |} in
  (TelexTaskStore.updateTask (TelexTask.id task') task' taskCache, task').

Definition extractionPrompt (searchQuery : jsstring) : jsstring :=
  str "Find a book with: query: " ++ searchQuery.

Definition isRequestTimeout (error : Thrown) : bool :=
  bool_decide (message_of error = Some (str "Request timeout")).

Definition internalError (env : Env) (error : Thrown) (id : option ReqId) : ErrorResponse :=
  handleInternalError (NODE_ENV env) (stack env) error id.

(** Lines 625-757. The outer [catch] of this and of the other handlers
    that answer with one envelope guards the logger and the store, which
    do not throw here. *)
Definition handleMessageSend (env : Env) (params : option Params.t) (id : ReqId)
  (taskCache : TelexTaskStore.t) : TelexTaskStore.t * TelexResponse :=
  match params with
  | None =>
      (taskCache,
       Failure (createErrorResponse (-32602)
                  (Some (str "Invalid params: params object is required")) (Some id) None))
  | Some params =>
      match schemas.telexMessage (Params.message params) with
      | Throw error =>
          (taskCache,
           Failure (handleValidationError
                      (ValidationError (str "Invalid message structure") 400
                         (str "VALIDATION_ERROR") (Some (PThrown error)))
                      (Some id)))
      | Ok message =>
          match extractSearchQuery message with
          | Throw error => (taskCache, Failure (handleValidationError error (Some id)))
          | Ok searchQuery =>
              match createTask (now env) (randomSuffix env) searchQuery message
                      (Params.sessionId params) with
              | Throw error => (taskCache, Failure (handleValidationError error (Some id)))
              | Ok task =>
                  let taskCache := TelexTaskStore.createTask task taskCache in
                  match generate env (extractionPrompt searchQuery) with
                  | Rejected error =>
                      if isRequestTimeout error then
                        (taskCache,
                         Failure (createErrorResponse (-32603)
                                    (Some (str "Book extraction request timed out"))
                                    (Some id) (Some (PTimeout 30000))))
                      else
                        match error with
                        | ExternalAPIError message service code =>
                            (taskCache,
                             Failure (createErrorResponse (-32603)
                                        (Some (str "External API error: " ++ message))
                                        (Some id) (Some (PService service code))))
                        | _ => (taskCache, Failure (internalError env error (Some id)))
                        end
                  | Resolved result =>
                      let '(taskCache, task) :=
                        completeTask (fun k => now env (3 + k)%nat) task result taskCache in
                      (taskCache,
                       Success
                         (SendResult task
                            (TelexTaskStatus.message (TelexTask.status task))
                            (elapsedSince (now env 6%nat) (TelexTask.id task)))
                         id)
                  end
              end
          end
      end
  end.

(** Lines 974-986: a throw of [res.write] is logged and swallowed. *)
Definition sendStreamData (res : Response.t) (data : TelexResponse) : Response.t :=
  match Response.write_throws res with
  | Some _ => res
  | None =>
      {| Response.writeHead_throws := Response.writeHead_throws res;
         Response.write_throws := Response.write_throws res;
         Response.end_throws := Response.end_throws res;
         Response.head := Response.head res;
         Response.frames := Response.frames res ++ [data];
         Response.ended := Response.ended res |}
  end.

(** Lines 991-1004. *)
Definition sendStreamError (res : Response.t) (id : ReqId) (code : Z)
  (message : jsstring) (data : option Payload) : Response.t :=
  sendStreamData res (Failure (createErrorResponse code (Some message) (Some id) data)).

Definition streamHeaders : list (string * string) :=
  [("Content-Type", "text/event-stream"); ("Cache-Control", "no-cache");
   ("Connection", "keep-alive"); ("Access-Control-Allow-Origin", "*");
   ("X-Accel-Buffering", "no")]%string.

Definition writeHead (res : Response.t) : result Response.t :=
  match Response.writeHead_throws res with
  | Some e => Throw e
  | None =>
      Ok {| Response.writeHead_throws := Response.writeHead_throws res;
            Response.write_throws := Response.write_throws res;
            Response.end_throws := Response.end_throws res;
            Response.head := Some (200%Z, streamHeaders);
            Response.frames := Response.frames res;
            Response.ended := Response.ended res |}
  end.

Definition endResponse (res : Response.t) : result Response.t :=
  match Response.end_throws res with
  | Some e => Throw e
  | None =>
      Ok {| Response.writeHead_throws := Response.writeHead_throws res;
            Response.write_throws := Response.write_throws res;
            Response.end_throws := Response.end_throws res;
            Response.head := Response.head res;
            Response.frames := Response.frames res;
            Response.ended := true |}
  end.

(** The state the [try] block of [handleMessageStream] leaves behind: the
    store, the response object, the local variable [task], the number of
    clock readings made, and how the block ended ([Ok] for a [return] or
    for its last statement, [Throw] for what reaches the outer [catch]). *)
Record StreamTry : Type := mkStreamTry {
  try_cache : TelexTaskStore.t;
  try_res : Response.t;
  try_task : option TelexTask.t;
  try_ticks : nat;
  try_end : result unit
}.

(** Lines 885-920: the [catch] around the extraction; it sends one error
    frame and returns. *)
Definition streamExtractionFailed (res : Response.t) (id : ReqId) (error : Thrown)
  : Response.t :=
  if isRequestTimeout error then
    sendStreamError res id (-32603) (str "Book extraction request timed out")
      (Some (PTimeout 30000))
  else
    match error with
    | ExternalAPIError message service code =>
        sendStreamError res id (-32603) (str "External API error: " ++ message)
          (Some (PService service code))
    | _ =>
        sendStreamError res id (-32603) (str "Error during book extraction")
          (Some (PThrown error))
    end.

(** Lines 765-933: the [try] block. *)
Definition handleMessageStream_try (env : Env) (params : option Params.t) (id : ReqId)
  (res : Response.t) (taskCache : TelexTaskStore.t) : StreamTry :=
  let invalid :=
    mkStreamTry taskCache
      (sendStreamError res id (-32602) (str "Invalid params: message is required") None)
      None 0 (Ok ()) in
  match params with
  | None => invalid
  | Some params =>
      match Params.message params with
      | NoMessage => invalid
      | _ =>
          match schemas.telexMessage (Params.message params) with
          | Throw error =>
              mkStreamTry taskCache
                (sendStreamError res id (-32602) (str "Invalid message structure")
                   (Some (PThrown error)))
                None 0 (Ok ())
          | Ok message =>
              match writeHead res with
              | Throw error => mkStreamTry taskCache res None 0 (Throw error)
              | Ok res =>
                  match extractSearchQuery message with
                  | Throw error =>
                      mkStreamTry taskCache
                        (sendStreamError res id (-32602)
                           (str "Could not extract search query") (Some (PThrown error)))
                        None 0 (Ok ())
                  | Ok searchQuery =>
                      match createTask (now env) (randomSuffix env) searchQuery message
                              (Params.sessionId params) with
                      | Throw error =>
                          mkStreamTry taskCache
                            (sendStreamError res id (-32602) (str "Failed to create task")
                               (Some (PThrown error)))
                            None 1 (Ok ())
                      | Ok task =>
                          let taskCache := TelexTaskStore.createTask task taskCache in
                          let res :=
                            sendStreamData res
                              (Success (StreamTask task (str "started") (now env 3%nat)) id) in
                          let res :=
                            sendStreamData res
                              (Success
                                 (StreamProgress (TelexTask.id task) (str "searching")
                                    (str "Searching for books...") (now env 4%nat))
                                 id) in
                          match generate env (extractionPrompt searchQuery) with
                          | Rejected error =>
                              mkStreamTry taskCache (streamExtractionFailed res id error)
                                (Some task) 5 (Ok ())
                          | Resolved result =>
                              let res :=
                                sendStreamData res
                                  (Success
                                     (StreamProgress (TelexTask.id task) (str "processing")
                                        (str "Processing book content...") (now env 5%nat))
                                     id) in
                              let '(taskCache, task) :=
                                completeTask (fun k => now env (6 + k)%nat) task result
                                  taskCache in
                              let res :=
                                sendStreamData res
                                  (Success
                                     (StreamTask task (str "completed") (now env 9%nat)) id) in
                              let res :=
                                sendStreamData res
                                  (Success
                                     (StreamMessage (TelexTask.id task)
                                        (TelexTaskStatus.message (TelexTask.status task))
                                        (elapsedSince (now env 10%nat) (TelexTask.id task)))
                                     id) in
                              let res :=
                                sendStreamData res
                                  (Success
                                     (StreamStatus (TelexTask.id task)
                                        (str "stream_complete") (now env 11%nat))
                                     id) in
                              match endResponse res with
                              | Throw error =>
                                  mkStreamTry taskCache res (Some task) 12 (Throw error)
                              | Ok res => mkStreamTry taskCache res (Some task) 12 (Ok ())
                              end
                          end
                      end
                  end
              end
          end
      end
  end.

(** Lines 942-964 of the outer [catch]: a task that was created is set to
    [canceled] and written back. *)
Definition cancelAfterError (timestamp : N) (error : Thrown) (task : TelexTask.t)
  (taskCache : TelexTaskStore.t) : TelexTaskStore.t :=
  let task' :=
    {| TelexTask.id := TelexTask.id task;
       TelexTask.sessionId := TelexTask.sessionId task;
       TelexTask.pushNotificationConfig := TelexTask.pushNotificationConfig task;
       TelexTask.artifacts := TelexTask.artifacts task;
       TelexTask.history := TelexTask.history task;
       TelexTask.status :=
         {| TelexTaskStatus.state := canceled;
            TelexTaskStatus.timestamp := timestamp;
            TelexTaskStatus.message :=
              Some (textMessage assistant
                      (str "Error: "
                       ++ default (str "Unknown error") (message_of error))) |} |} in
  TelexTaskStore.updateTask (TelexTask.id task') task' taskCache.

(** Lines 762-969. The last [res.end()] stands in the [catch]: what it
    throws leaves the handler. *)
Definition handleMessageStream (env : Env) (params : option Params.t) (id : ReqId)
  (res : Response.t) (taskCache : TelexTaskStore.t)
  : TelexTaskStore.t * Response.t * result unit :=
  let t := handleMessageStream_try env params id res taskCache in
  match try_end t with
  | Ok _ => (try_cache t, try_res t, Ok ())
  | Throw error =>
      let taskCache :=
        match try_task t with
        | Some task => cancelAfterError (now env (try_ticks t)) error task (try_cache t)
        | None => try_cache t
        end in
      let res :=
        sendStreamError (try_res t) id (-32603)
          (str "Internal error during message streaming") (Some (PThrown error)) in
      match endResponse res with
      | Throw error' => (taskCache, res, Throw error')
      | Ok res => (taskCache, res, Ok ())
      end
  end.

Definition taskIdRequired (id : ReqId) : TelexResponse :=
  Failure (createErrorResponse (-32602)
             (Some (str "Invalid params: task id is required")) (Some id) None).

Definition invalidTaskId (id : ReqId) : TelexResponse :=
  Failure (handleValidationError (newValidationError "Invalid task ID format") (Some id)).

(** [!params || !params.id] *)
Definition missingId (params : option Params.t) : bool :=
  match params with
  | None => true
  | Some p => negb (truthy (Params.id p))
  end.

Definition idOf (params : option Params.t) : unknown :=
  match params with
  | None => Undefined
  | Some p => Params.id p
  end.

(** Lines 1009-1058. *)
Definition handleTaskGet (env : Env) (params : option Params.t) (id : ReqId)
  (taskCache : TelexTaskStore.t) : TelexTaskStore.t * TelexResponse :=
  if missingId params then (taskCache, taskIdRequired id)
  else
    match schemas.taskId (idOf params) with
    | Throw _ => (taskCache, invalidTaskId id)
    | Ok taskId =>
        match TelexTaskStore.getTask taskId taskCache with
        | None => (taskCache, Failure (handleTaskNotFound taskId (Some id)))
        | Some task =>
            (taskCache,
             Success
               (GetResult task (now env 0%nat)
                  (elapsedSince (now env 1%nat) (TelexTask.id task)))
               id)
        end
    end.

(** Lines 1063-1152. *)
Definition handleTaskCancel (env : Env) (params : option Params.t) (id : ReqId)
  (taskCache : TelexTaskStore.t) : TelexTaskStore.t * TelexResponse :=
  if missingId params then (taskCache, taskIdRequired id)
  else
    match schemas.taskId (idOf params) with
    | Throw _ => (taskCache, invalidTaskId id)
    | Ok taskId =>
        match TelexTaskStore.getTask taskId taskCache with
        | None => (taskCache, Failure (handleTaskNotFound taskId (Some id)))
        | Some task =>
            match TelexTaskStatus.state (TelexTask.status task) with
            | completed =>
                (taskCache,
                 Failure (createErrorResponse (-32002)
                            (Some (str "Task not cancelable: " ++ taskId
                                   ++ str " (already completed)"))
                            (Some id) (Some (PCurrentState completed))))
            | canceled =>
                (taskCache,
                 Failure (createErrorResponse (-32002)
                            (Some (str "Task already canceled: " ++ taskId))
                            (Some id) (Some (PCurrentState canceled))))
            | working =>
                let task' :=
                  {| TelexTask.id := TelexTask.id task;
                     TelexTask.sessionId := TelexTask.sessionId task;
                     TelexTask.pushNotificationConfig :=
                       TelexTask.pushNotificationConfig task;
                     TelexTask.artifacts := TelexTask.artifacts task;
                     TelexTask.status :=
                       {| TelexTaskStatus.state := canceled;
                          TelexTaskStatus.timestamp := now env 0%nat;
                          TelexTaskStatus.message :=
                            Some (textMessage assistant
                                    (str "Task was canceled by user request")) |};
                     TelexTask.history :=
                       TelexTask.history task ++
                       [ {| HistoryRecord.timestamp := now env 1%nat;
                            HistoryRecord.event := str "task_canceled";
                            HistoryRecord.data :=
                              TaskCanceled (str "user_request") (now env 2%nat) |} ] |} in
                (TelexTaskStore.updateTask taskId task' taskCache,
                 Success (CancelResult task' (now env 3%nat)) id)
            end
        end
    end.

(** [!!pushNotificationConfig.url]: a present, non-empty string. *)
Definition hasUrl (c : PushNotificationConfig.t) : bool :=
  truthy_text (PushNotificationConfig.url c).

(** Lines 1157-1251. *)
Definition handleSetTaskPushNotificationConfig (env : Env) (params : option Params.t)
  (id : ReqId) (taskCache : TelexTaskStore.t) : TelexTaskStore.t * TelexResponse :=
  if missingId params then (taskCache, taskIdRequired id)
  else
    let configParam :=
      match params with
      | Some p => Params.pushNotificationConfig p
      | None => NoConfig
      end in
    match configParam with
    | NoConfig =>
        (taskCache,
         Failure (createErrorResponse (-32602)
                    (Some (str "Invalid params: pushNotificationConfig is required"))
                    (Some id) None))
    | _ =>
        match schemas.taskId (idOf params) with
        | Throw _ => (taskCache, invalidTaskId id)
        | Ok taskId =>
            match schemas.pushNotificationConfig (zod_url env) configParam with
            | Throw _ | Ok None =>
                (* the schema answers [undefined] only for an absent config,
                   which the check above has answered already *)
                (taskCache,
                 Failure (handleValidationError
                            (newValidationError "Invalid push notification configuration")
                            (Some id)))
            | Ok (Some pushNotificationConfig) =>
                match TelexTaskStore.getTask taskId taskCache with
                | None => (taskCache, Failure (handleTaskNotFound taskId (Some id)))
                | Some task =>
                    if hasUrl pushNotificationConfig
                       && negb (URL_parses env
                                  (default [] (PushNotificationConfig.url
                                                 pushNotificationConfig))) then
                      (taskCache,
                       Failure (createErrorResponse (-32602)
                                  (Some (str "Invalid URL in push notification configuration"))
                                  (Some id) None))
                    else
                      let task' :=
                        {| TelexTask.id := TelexTask.id task;
                           TelexTask.sessionId := TelexTask.sessionId task;
                           TelexTask.status := TelexTask.status task;
                           TelexTask.artifacts := TelexTask.artifacts task;
                           TelexTask.pushNotificationConfig := Some pushNotificationConfig;
                           TelexTask.history :=
                             TelexTask.history task ++
                             [ {| HistoryRecord.timestamp := now env 0%nat;
                                  HistoryRecord.event := str "push_notification_config_set";
                                  HistoryRecord.data :=
                                    PushConfigSet (now env 1%nat)
                                      (hasUrl pushNotificationConfig)
                                      (bool_decide
                                         (is_Some (PushNotificationConfig.authentication
                                                     pushNotificationConfig))) |} ] |} in
                      (TelexTaskStore.updateTask taskId task' taskCache,
                       Success
                         (SetPushResult task' (TelexTask.pushNotificationConfig task')
                            (now env 2%nat))
                         id)
                end
            end
        end
    end.

(** Lines 1256-1304. *)
Definition handleGetTaskPushNotificationConfig (env : Env) (params : option Params.t)
  (id : ReqId) (taskCache : TelexTaskStore.t) : TelexTaskStore.t * TelexResponse :=
  if missingId params then (taskCache, taskIdRequired id)
  else
    match schemas.taskId (idOf params) with
    | Throw _ => (taskCache, invalidTaskId id)
    | Ok taskId =>
        match TelexTaskStore.getTask taskId taskCache with
        | None => (taskCache, Failure (handleTaskNotFound taskId (Some id)))
        | Some task =>
            (taskCache,
             Success
               (GetPushResult (TelexTask.id task)
                  (TelexTask.pushNotificationConfig task)
                  (bool_decide (is_Some (TelexTask.pushNotificationConfig task)))
                  (now env 0%nat))
               id)
        end
    end.

(** Lines 1309-1371. *)
Definition handleTaskResubscribe (env : Env) (params : option Params.t) (id : ReqId)
  (taskCache : TelexTaskStore.t) : TelexTaskStore.t * TelexResponse :=
  if missingId params then (taskCache, taskIdRequired id)
  else
    match schemas.taskId (idOf params) with
    | Throw _ => (taskCache, invalidTaskId id)
    | Ok taskId =>
        match TelexTaskStore.getTask taskId taskCache with
        | None => (taskCache, Failure (handleTaskNotFound taskId (Some id)))
        | Some task =>
            let currentState := TelexTaskStatus.state (TelexTask.status task) in
            let task' :=
              {| TelexTask.id := TelexTask.id task;
                 TelexTask.sessionId := TelexTask.sessionId task;
                 TelexTask.status := TelexTask.status task;
                 TelexTask.artifacts := TelexTask.artifacts task;
                 TelexTask.pushNotificationConfig := TelexTask.pushNotificationConfig task;
                 TelexTask.history :=
                   TelexTask.history task ++
                   [ {| HistoryRecord.timestamp := now env 0%nat;
                        HistoryRecord.event := str "task_resubscribed";
                        HistoryRecord.data :=
                          TaskResubscribed (now env 1%nat) currentState |} ] |} in
            (TelexTaskStore.updateTask taskId task' taskCache,
             Success
               (ResubscribeResult task' true (now env 2%nat) currentState
                  (str "Successfully resubscribed to task updates"))
               id)
        end
    end.

(** Lines 1376-1433. The answer is [None] where the source returns
    nothing because the stream took the response over. *)
Definition routeRequest (env : Env) (request : TelexRequest.t) (res : option Response.t)
  (taskCache : TelexTaskStore.t)
  : TelexTaskStore.t * option Response.t * option TelexResponse :=
  match validateRequest request with
  | Some error => (taskCache, res, Some (Failure error))
  | None =>
      let params := TelexRequest.params request in
      let requestId :=
        match id_or_null (TelexRequest.id request) with
        | Some i => i
        | None => IdStr (str "default")
        end in
      let answer (r : TelexTaskStore.t * TelexResponse) := (r.1, res, Some r.2) in
      let method :=
        match TelexRequest.method request with Str m => m | _ => [] end in
      if bool_decide (method = str "message/send") then
        answer (handleMessageSend env params requestId taskCache)
      else if bool_decide (method = str "message/stream") then
        match res with
        | Some res =>
            match handleMessageStream env params requestId res taskCache with
            | (taskCache, res, Ok _) => (taskCache, Some res, None)
            | (taskCache, res, Throw error) =>
                (taskCache, Some res,
                 Some (Failure (internalError env error (TelexRequest.id request))))
            end
        | None =>
            (taskCache, res,
             Some (Failure (createErrorResponse (-32603)
                              (Some (str "Response object required for streaming"))
                              (Some requestId) None)))
        end
      else if bool_decide (method = str "tasks/get") then
        answer (handleTaskGet env params requestId taskCache)
      else if bool_decide (method = str "tasks/cancel") then
        answer (handleTaskCancel env params requestId taskCache)
      else if bool_decide (method = str "tasks/setPushNotificationConfig") then
        answer (handleSetTaskPushNotificationConfig env params requestId taskCache)
      else if bool_decide (method = str "tasks/getPushNotificationConfig") then
        answer (handleGetTaskPushNotificationConfig env params requestId taskCache)
      else if bool_decide (method = str "tasks/resubscribe") then
        answer (handleTaskResubscribe env params requestId taskCache)
      else
        (taskCache, res, Some (Failure (handleMethodNotFound method (Some requestId))))
  end.

End TelexIntegrationHandler.

Import BookAgent InputSanitizer A2AErrorHandler TelexIntegrationHandler.

(** ** validation.ts: the rate limiter (lines 283-317)

    [maxRequests] and [windowMs] are numbers that [parseInt] gave: a
    comparison with [NaN] is false and a sum with [NaN] is [NaN]. The
    readings of the clock and the counters are whole numbers. *)

Module RateLimiter.

Record Entry : Type := mkEntry {
  count : Z;
  resetTime : number
}.

(** What [checkLimit] returns: [{ allowed: true }] or
    [{ allowed: false, resetTime }]. *)
Inductive Verdict : Type :=
  | Allowed
  | Refused (resetTime : number).

(** [a > b] *)
Definition gt (a : Z) (b : number) : bool :=
  match b with
  | NaN => false
  | Infinity negative => negative
  | Num y => (y <? a)%Z
  end.

(** [a >= b] *)
Definition ge (a : Z) (b : number) : bool :=
  match b with
  | NaN => false
  | Infinity negative => negative
  | Num y => (y <=? a)%Z
  end.

(** [a + b] *)
Definition plus (a : Z) (b : number) : number :=
  match b with
  | NaN => NaN
  | Infinity negative => Infinity negative
  | Num y => toDouble (a + y)
  end.

(** [dateNow] is the reading of [Date.now()]; [requests] is the static
    map. [count++] is an addition of doubles. *)
Definition checkLimit (dateNow : Z) (identifier : jsstring)
  (maxRequests windowMs : number) (requests : gmap jsstring Entry)
  : gmap jsstring Entry * Verdict :=
  let key := identifier in
  match requests !! key with
  | Some current =>
      if gt dateNow (resetTime current) then
        (<[key := mkEntry 1 (plus dateNow windowMs)]> requests, Allowed)
      else if ge (count current) maxRequests then
        (requests, Refused (resetTime current))
      else
        (<[key := mkEntry (roundedMagnitude (count current + 1)) (resetTime current)]>
           requests,
         Allowed)
  | None =>
      (<[key := mkEntry 1 (plus dateNow windowMs)]> requests, Allowed)
  end.

End RateLimiter.

(** ** validation.ts: the environment (lines 209-280) *)

Module EnvironmentValidator.

(** [process.env]: the variables that are set, each with its text. *)
Abbreviation ProcessEnv := (gmap jsstring jsstring).

Definition requiredVars : list jsstring := [str "NODE_ENV"].

Definition validEnvs : list jsstring :=
  map str ["development"; "production"; "test"]%string.

(** Lines 223-261. [None] when [validate] returns; [Some message] when it
    throws an [EnvironmentError] with that message (its code is
    [ENVIRONMENT_ERROR], its status code 500: types.ts, lines 287-298). *)
Definition validate (env : ProcessEnv) : option jsstring :=
  let missing :=
    List.filter (fun varName => negb (truthy_text (env !! varName))) requiredVars in
  if (0 <? length missing)%nat then
    Some (str "Missing required environment variables: " ++ join (str ", ") missing)
  else if truthy_text (env !! str "PORT")
          && match parseInt10 (env !! str "PORT") with
             | NaN => true
             | Infinity _ => true
             | Num port => (port <? 1)%Z || (65535 <? port)%Z
             end then
    Some (str "PORT must be a valid port number (1-65535)")
  else if truthy_text (env !! str "HOST")
          && negb (truthy (Str (trim (default [] (env !! str "HOST"))))) then
    Some (str "HOST cannot be empty")
  else if truthy_text (env !! str "NODE_ENV")
          && negb (bool_decide (default [] (env !! str "NODE_ENV") ∈ validEnvs)) then
    Some (str "NODE_ENV must be one of: " ++ join (str ", ") validEnvs)
  else None.

(** Lines 266-272: the value, or the message of the error thrown. *)
Definition get (env : ProcessEnv) (key : jsstring) : jsstring + jsstring :=
  match env !! key with
  | Some ((_ :: _) as value) => inl value
  | _ => inr (str "Environment variable " ++ key ++ str " is not set")
  end.

(** Lines 277-279. *)
Definition getOptional (env : ProcessEnv) (key defaultValue : jsstring) : jsstring :=
  match env !! key with
  | Some ((_ :: _) as value) => value
  | _ => defaultValue
  end.

End EnvironmentValidator.

(** ** validation.ts: the Express middleware (lines 320-414) *)

Module Express.

Import RateLimiter.

Record Request : Type := mkRequest {
  ip : option jsstring;
  method : jsstring;
  path : jsstring
}.

(** An issue of a [ZodError] is kept as its message; the library's own
    message for a value of the wrong type is written [Invalid input], as in
    the schemas above. *)
Abbreviation Issue := jsstring.

(** The [details] of an error response. *)
Inductive Details : Type :=
  | ResetTime (resetTime : number)
  | Service (service : jsstring)
  | Issues (issues : list Issue)
  | Carried (d : Payload).

(** What the error handler is given: one of the three error classes of
    types.ts, a [ZodError], or any other error, of which only the
    properties that the code sets are kept. *)
Inductive ServerError : Type :=
  | SValidationError (message : jsstring) (statusCode : Z) (code : jsstring)
      (details : option Details)
  | SEnvironmentError (message code : jsstring)
  | SExternalAPIError (message service code : jsstring)
  | SZodError (issues : list Issue)
  | SOther (message : option jsstring) (statusCode : option Z) (code : option jsstring).

(** An error of the agent layer, as the error handler sees it; of a
    [ZodError] that layer keeps the message of its one issue. *)
Definition ofThrown (e : Thrown) : ServerError :=
  match e with
  | ValidationError message statusCode code details =>
      SValidationError message statusCode code (Carried <$> details)
  | ExternalAPIError message service code => SExternalAPIError message service code
  | ZodError message => SZodError [message]
  | Error message => SOther (Some message) None None
  | AxiosError code _ _ message => SOther (Some message) None code
  | NonError _ => SOther None None None
  end.

Record ErrorBody : Type := mkErrorBody {
  code : jsstring;
  message : jsstring;
  timestamp : Z;
  err_path : jsstring;
  err_method : jsstring;
  details : option Details;
  stack : option jsstring
}.

Definition details_truthy (d : Details) : bool :=
  match d with
  | Carried p => payload_truthy p
  | _ => true
  end.

(** What the handlers take from the process: [NODE_ENV], the stack text of
    an error and the readings of the clock; a [timestamp] is written as
    the reading of the clock that [new Date()] takes. *)
Record Process : Type := mkProcess {
  NODE_ENV : option jsstring;
  stackOf : ServerError -> option jsstring;
  clock : nat -> Z
}.

(** Lines 361-414: the status and the body given to [res.status().json()]. *)
Definition handleError (proc : Process) (tick : nat) (error : ServerError)
  (req : Request) : Z * ErrorBody :=
  let '(statusCode, errorCode, message, details) :=
    match error with
    | SValidationError message statusCode code details =>
        (statusCode, code, message, details)
    | SEnvironmentError message code => (500%Z, code, message, None)
    | SExternalAPIError message service code =>
        (502%Z, code, message, Some (Service service))
    | SZodError issues =>
        (400%Z, str "VALIDATION_ERROR", str "Invalid request data", Some (Issues issues))
    | SOther _ _ _ =>
        (500%Z, str "INTERNAL_ERROR", str "Internal server error", None)
    end in
  (statusCode,
   {| code := errorCode; message := message; timestamp := clock proc tick;
      err_path := path req; err_method := method req;
      details := match details with
                 | Some d => if details_truthy d then Some d else None
                 | None => None
                 end;
      stack := if bool_decide (NODE_ENV proc = Some (str "development"))
               then stackOf proc error else None |}).

(** What a middleware does: it calls [next()], here with what it leaves
    in the request, it calls [next(error)], or it sends a response. *)
Inductive Step (A B : Type) : Type :=
  | Next (a : A)
  | NextError (error : ServerError)
  | Sent (status : Z) (body : B).
Arguments Next {A B} a.
Arguments NextError {A B} error.
Arguments Sent {A B} status body.

(** Lines 341-358. *)
Definition rateLimit (maxRequests windowMs : number) (proc : Process)
  (req : Request) (requests : gmap jsstring Entry)
  : gmap jsstring Entry * Step unit ErrorBody :=
  let identifier :=
    match ip req with
    | Some ((_ :: _) as ip) => ip
    | _ => str "unknown"
    end in
  let '(requests, result) :=
    checkLimit (clock proc 0) identifier maxRequests windowMs requests in
  match result with
  | Refused resetTime =>
      let error :=
        SValidationError (str "Too many requests") 429 (str "RATE_LIMIT_EXCEEDED")
          (Some (ResetTime resetTime)) in
      let '(status, body) := handleError proc 1 error req in
      (requests, Sent status body)
  | Allowed => (requests, Next ())
  end.

(** How [schema.parse] ends. *)
Inductive Parse (A : Type) : Type :=
  | Parsed (a : A)
  | Fails (issues : list Issue)
  | Raises (error : Thrown).
Arguments Parsed {A} a.
Arguments Fails {A} issues.
Arguments Raises {A} error.

(** Lines 320-338; the parsed body replaces [req.body]. *)
Definition validateRequest {A B : Type} (schema : A -> Parse B) (proc : Process)
  (req : Request) (body : A) : Step B ErrorBody :=
  match schema body with
  | Parsed body' => Next body'
  | Fails issues =>
      let validationError :=
        SValidationError (str "Invalid request data") 400 (str "VALIDATION_ERROR")
          (Some (Issues issues)) in
      let '(status, errorBody) := handleError proc 0 validationError req in
      Sent status errorBody
  | Raises error => NextError (ofThrown error)
  end.

End Express.

(** The body of a request to [/api/extract-book], as far as the schema
    looks at it: not an object, or an object with its [searchQuery]. *)
Inductive ExtractBody : Type :=
  | NotAnObject
  | WithQuery (searchQuery : unknown).

(** validation.ts, lines 166-171: [schemas.bookExtractionRequest]. An
    error thrown by the transform leaves [parse] as it is. *)
Definition bookExtractionRequest (body : ExtractBody) : Express.Parse jsstring :=
  match body with
  | NotAnObject => Express.Fails [str "Invalid input"]
  | WithQuery (Str searchQuery) =>
      if (length searchQuery <? 1)%nat then
        Express.Fails [str "Search query is required"]
      else if (200 <? length searchQuery)%nat then
        Express.Fails [str "Search query is too long (max 200 characters)"]
      else
        match InputSanitizer.sanitizeSearchQuery (Str searchQuery) with
        | Ok val => Express.Parsed val
        | Throw error => Express.Raises error
        end
  | WithQuery _ => Express.Fails [str "Invalid input"]
  end.

(** ** server.ts *)

Module Server.

Import EnvironmentValidator Express.

(** Lines 86-89 and 260-261: what the server reads from the environment. *)
Definition rateLimitMax (env : ProcessEnv) : number :=
  parseInt10 (Some (getOptional env (str "RATE_LIMIT_MAX") (str "100"))).

Definition rateLimitWindowMs (env : ProcessEnv) : number :=
  parseInt10 (Some (getOptional env (str "RATE_LIMIT_WINDOW_MS") (str "60000"))).

Definition port (env : ProcessEnv) : number :=
  parseInt10 (Some (getOptional env (str "PORT") (str "4111"))).

Definition host (env : ProcessEnv) : jsstring :=
  getOptional env (str "HOST") (str "localhost").

(** Lines 86-89: the limiter that every request passes. *)
Definition limiter (env : ProcessEnv) (proc : Process) (req : Request)
  (requests : gmap jsstring RateLimiter.Entry)
  : gmap jsstring RateLimiter.Entry * Step unit ErrorBody :=
  rateLimit (rateLimitMax env) (rateLimitWindowMs env) proc req requests.

(** Lines 220-222: the error middleware. *)
Definition errorMiddleware (proc : Process) (tick : nat) (err : ServerError)
  (req : Request) : Z * ErrorBody :=
  handleError proc tick err req.

(** Lines 225-230: the last handler, for a request that no route took. *)
Definition notFound (proc : Process) (req : Request) : Z * ErrorBody :=
  let error :=
    SOther (Some (str "Route " ++ method req ++ str " " ++ path req ++ str " not found"))
      (Some 404%Z) (Some (str "NOT_FOUND")) in
  handleError proc 0 error req.

(** What [/api/extract-book] answers with. *)
Inductive ExtractAnswer : Type :=
  | ExtractOk (data : AnyResult) (timestamp : Z)
  | ExtractError (body : ErrorBody).

(** Lines 145-171: the route with its validation middleware and the error
    middleware behind it. The answer comes with its status and with the
    prompts given to the agent. *)
Definition extractBook (proc : Process) (generate : jsstring -> Outcome)
  (req : Request) (body : ExtractBody) : list jsstring * (Z * ExtractAnswer) :=
  match validateRequest bookExtractionRequest proc req body with
  | Sent status errorBody => ([], (status, ExtractError errorBody))
  | NextError error =>
      let '(status, errorBody) := errorMiddleware proc 0 error req in
      ([], (status, ExtractError errorBody))
  | Next searchQuery =>
      let prompt := str "Find a book with: query: " ++ searchQuery in
      match generate prompt with
      | Resolved result => ([prompt], (200%Z, ExtractOk result (clock proc 0)))
      | Rejected error =>
          let '(status, errorBody) := errorMiddleware proc 0 (ofThrown error) req in
          ([prompt], (status, ExtractError errorBody))
      end
  end.

End Server.


(** ** bookWorkflow.ts: the validation step (lines 58-100) *)

Module BookWorkflow.

Import InputSanitizer.

(** The [validate-input] step. What it returns is
    [{ searchQuery, isValid: true }]; every throw of the body is a
    [ValidationError], which the [catch] rethrows. *)
Definition validateInput (searchQuery : jsstring) : result jsstring :=
  if negb (truthy (Str searchQuery)) then
    Throw (newValidationError "Search query must be a non-empty string")
  else
    let trimmedQuery := trim searchQuery in
    if (length trimmedQuery =? 0)%nat then
      Throw (newValidationError "Search query cannot be empty")
    else if (200 <? length trimmedQuery)%nat then
      Throw (newValidationError "Search query is too long (max 200 characters)")
    else if existsb (fun pattern => test pattern trimmedQuery) dangerousPatterns then
      Throw (newValidationError "Search query contains potentially dangerous content")
    else Ok trimmedQuery.

End BookWorkflow.

(** * Vocabulary of the properties *)

(** ** Simple forms of the quantifiers over one class of code units *)

Fixpoint lazy_star (p : N -> bool) (k : Cont) (prev : option N) (s : jsstring)
  : option jsstring :=
  orelse (k prev s)
    match s with
    | c :: s' => if p c then lazy_star p k (Some c) s' else None
    | [] => None
    end.

Fixpoint greedy_star (p : N -> bool) (k : Cont) (prev : option N) (s : jsstring)
  : option jsstring :=
  match s with
  | c :: s' => if p c then orelse (greedy_star p k (Some c) s') (k prev s) else k prev s
  | [] => k prev s
  end.

Fixpoint match_chars (f : N -> N -> bool) (l : jsstring) (k : Cont) (prev : option N)
  (s : jsstring) : option jsstring :=
  match l with
  | [] => k prev s
  | a :: l' =>
      match s with
      | c :: s' => if f a c then match_chars f l' k (Some c) s' else None
      | [] => None
      end
  end.

Definition Kend : Cont := fun _ s' => Some s'.

Fixpoint drop_while (p : N -> bool) (s : jsstring) : jsstring :=
  match s with
  | c :: s' => if p c then drop_while p s' else s
  | [] => []
  end.

(** ** Lines and markers *)

(** [m] stands at the start of [s], under the [i] flag. *)
Fixpoint prefix_ci (m s : jsstring) : bool :=
  match m, s with
  | [], _ => true
  | a :: m', c :: s' => eq_ci a c && prefix_ci m' s'
  | _ :: _, [] => false
  end.

(** [q] holds at the start of [s] or further along its first line. *)
Fixpoint occurs_where (q : jsstring -> bool) (s : jsstring) : bool :=
  q s || match s with
         | c :: s' => dot c && occurs_where q s'
         | [] => false
         end.

(** [m] occurs, under the [i] flag, in the first line of [s]. *)
Definition occurs_in_line (m : jsstring) : jsstring -> bool := occurs_where (prefix_ci m).

(** [m] occurs somewhere in [s], under the [i] flag. *)
Fixpoint mentions (m s : jsstring) : bool :=
  prefix_ci m s || match s with
                   | _ :: s' => mentions m s'
                   | [] => false
                   end.

(** A run of CR and LF at the start of [s], and what follows it. *)
Definition crlf_run (s : jsstring) : option jsstring :=
  match s with
  | c :: s' => if is_crlf c then Some (drop_while is_crlf s') else None
  | [] => None
  end.

(** What follows the first line of [s] and the line breaks after it, if
    the line ends with a CR or LF. *)
Definition after_line (s : jsstring) : option jsstring :=
  match drop_while dot s with
  | c :: rest => if is_crlf c then Some (drop_while is_crlf rest) else None
  | [] => None
  end.

(** No character of the literal can match a line terminator. *)
Definition line_literal (m : jsstring) : bool :=
  forallb (fun a => negb (is_line_terminator (canon a))) m.

Definition headerMarker : jsstring := str "Project Gutenberg".
Definition footerMarker : jsstring := str "End of Project Gutenberg".
Definition footerMarker1 : jsstring := str "END OF".
Definition footerMarker2 : jsstring := str "PROJECT GUTENBERG".

(** What one match of the header pattern at the start of [s] leaves. *)
Definition headerStep (s : jsstring) : option jsstring :=
  if occurs_in_line headerMarker s then after_line s else None.

(** What one match of a footer pattern at the start of [s] leaves: [s]
    starts with line breaks and what follows them is one line, the last
    one, in which [q] holds somewhere. *)
Definition last_line_with (q : jsstring -> bool) (s : jsstring) : option jsstring :=
  match s with
  | c :: s' =>
      if is_crlf c then
        let r := drop_while is_crlf s' in
        if forallb dot r && occurs_where q r then Some [] else None
      else None
  | [] => None
  end.

(** [END OF] here and [PROJECT GUTENBERG] later in the same line. *)
Definition twoMarkers (s : jsstring) : bool :=
  prefix_ci footerMarker1 s
  && occurs_in_line footerMarker2 (drop (length footerMarker1) s).

Definition head_is (p : N -> bool) (s : jsstring) : bool :=
  match s with c :: _ => p c | [] => false end.

Definition last_is (p : N -> bool) (s : jsstring) : bool :=
  match last s with Some c => p c | None => false end.

(** The text is empty or ends with a line terminator. *)
Definition ends_line (s : jsstring) : bool :=
  match last s with Some c => is_line_terminator c | None => true end.

(** Lines joined by LF. *)
Definition text_of (lines : list string) : jsstring := join [10] (map str lines).




(** ** The retry loop *)

(** The trace of [count] failed attempts from [first] on, each followed by
    its wait. *)
Definition backoffTrace (first count : nat) : list Event :=
  flat_map (fun attempt =>
              [Request attempt; Sleep (timerDuration (2 ^ N.of_nat attempt * 1000))])
    (seq first count).

Definition requests (events : list Event) : list nat :=
  omap (fun e => match e with Request a => Some a | Sleep _ => None end) events.

Definition sleeps (events : list Event) : list N :=
  omap (fun e => match e with Sleep ms => Some ms | Request _ => None end) events.

(** [s.isWellFormed()]: no surrogate stands alone. *)
Fixpoint wellFormed (s : jsstring) : bool :=
  match s with
  | [] => true
  | c :: rest =>
      if is_high_surrogate c then
        match rest with
        | d :: rest' => is_low_surrogate d && wellFormed rest'
        | [] => false
        end
      else negb (is_low_surrogate c) && wellFormed rest
  end.

(** ** Tasks, requests and responses *)

Definition stateOf (t : TelexTask.t) : TaskState :=
  TelexTaskStatus.state (TelexTask.status t).

(** The task a response carries. *)
Definition responseTask (r : TelexResponse) : option TelexTask.t :=
  match r with
  | Success (SendResult t _ _) _ | Success (GetResult t _ _) _
  | Success (CancelResult t _) _ | Success (SetPushResult t _ _) _
  | Success (ResubscribeResult t _ _ _ _) _ | Success (StreamTask t _ _) _ => Some t
  | _ => None
  end.

Definition errorCode (r : TelexResponse) : option Z :=
  match r with
  | Failure (mkErrorResponse e _) => Some (err_code e)
  | Success _ _ => None
  end.

Definition responseConfig (r : TelexResponse) : option PushNotificationConfig.t :=
  match r with
  | Success (SetPushResult _ c _) _ | Success (GetPushResult _ c _ _) _ => c
  | _ => None
  end.

Definition configToken (c : option PushNotificationConfig.t) : list jsstring :=
  match c with
  | Some c' =>
      match PushNotificationConfig.authentication c' with
      | Some a => match Authentication.token a with Some t => [t] | None => [] end
      | None => []
      end
  | None => []
  end.

(** Every authentication token that a response carries, in the order of
    its fields. *)
Definition tokensIn (r : TelexResponse) : list jsstring :=
  match r with
  | Success (SendResult t _ _) _ | Success (GetResult t _ _) _
  | Success (CancelResult t _) _ | Success (ResubscribeResult t _ _ _ _) _
  | Success (StreamTask t _ _) _ => configToken (TelexTask.pushNotificationConfig t)
  | Success (SetPushResult t c _) _ =>
      configToken (TelexTask.pushNotificationConfig t) ++ configToken c
  | Success (GetPushResult _ c _ _) _ => configToken c
  | _ => []
  end.

(** The request names the stored key: its [id] is present, passes the
    schema and comes out as [key]. *)
Definition names (params : option Params.t) (key : jsstring) : Prop :=
  missingId params = false /\ schemas.taskId (idOf params) = Ok key.

(** The message request passes validation: [message] is its message,
    [searchQuery] the query taken from it and [task] the task created for
    it. *)
Definition accepted (env : Env) (params : Params.t) (message : TelexMessage.t)
  (searchQuery : jsstring) (task : TelexTask.t) : Prop :=
  schemas.telexMessage (Params.message params) = Ok message
  /\ extractSearchQuery message = Ok searchQuery
  /\ createTask (now env) (randomSuffix env) searchQuery message
       (Params.sessionId params) = Ok task.

(** The task that [tasks/cancel] writes back for a working [task]. *)
Definition canceledTask (env : Env) (task : TelexTask.t) : TelexTask.t :=
  {| TelexTask.id := TelexTask.id task;
     TelexTask.sessionId := TelexTask.sessionId task;
     TelexTask.pushNotificationConfig := TelexTask.pushNotificationConfig task;
     TelexTask.artifacts := TelexTask.artifacts task;
     TelexTask.status :=
       {| TelexTaskStatus.state := canceled;
          TelexTaskStatus.timestamp := now env 0%nat;
          TelexTaskStatus.message :=
            Some (textMessage assistant (str "Task was canceled by user request")) |};
     TelexTask.history :=
       TelexTask.history task ++
       [ {| HistoryRecord.timestamp := now env 1%nat;
            HistoryRecord.event := str "task_canceled";
            HistoryRecord.data := TaskCanceled (str "user_request") (now env 2%nat) |} ] |}.

(** An operation leaves the artifacts of every stored task as they are. *)
Definition keepsArtifacts
  (h : option Params.t -> ReqId -> gmap jsstring TelexTask.t
       -> gmap jsstring TelexTask.t * TelexResponse) : Prop :=
  forall params id taskCache key task',
    (h params id taskCache).1 !! key = Some task' ->
    exists task, taskCache !! key = Some task
                 /\ TelexTask.artifacts task' = TelexTask.artifacts task.

(** A failure outcome: a result of the error shape. *)
Definition isFailureOutcome (r : AnyResult) : bool :=
  match r with
  | Obj b => truthy_text (BookResult.error b)
  | Nullish => false
  end.

(** bookAgent.ts, lines 43-50: what the tool returns for an empty result
    list. *)
Definition noBooksFound : BookResult.t := BookTool.noBooksFound.

(** A catalog that knows no book. *)
Definition emptyCatalog : jsstring -> nat -> SearchResponse + Thrown :=
  fun _ _ => inl (Results []).

(** What [sanitizeString] strips: white space at the ends, and the
    control characters of its class anywhere. *)
Definition stripped (c : N) : bool := is_white_space c || is_control c.

(** [raw] is [key] with white space and stripped control characters around
    it and stripped control characters inside it. *)
Definition differsByStripped (raw key : jsstring) : Prop :=
  exists pre mid post,
    raw = pre ++ mid ++ post
    /\ forallb stripped pre = true
    /\ forallb stripped post = true
    /\ List.filter (fun c => negb (is_control c)) mid = key.

Definition wellFormedTaskId (key : jsstring) : Prop :=
  key <> [] /\ forallb is_task_id_char key = true.

Definition withId (p : Params.t) (v : unknown) : option Params.t :=
  Some {| Params.id := v; Params.message := Params.message p;
          Params.sessionId := Params.sessionId p;
          Params.pushNotificationConfig := Params.pushNotificationConfig p |}.

(** ** Sample values *)

Definition sampleEnv (g : jsstring -> Outcome) : Env :=
  {| now := fun k => 1700000000000 + N.of_nat k;
     randomSuffix := str "abc123xyz";
     generate := g;
     URL_parses := fun _ => true;
     zod_url := fun _ => true;
     NODE_ENV := None;
     stack := fun _ => None |}.

Definition noGenerate : jsstring -> Outcome := fun _ => Resolved Nullish.

Definition sampleId : jsstring := str "task_1700000000000_abc123xyz".

Definition sampleTask : TelexTask.t :=
  {| TelexTask.id := sampleId;
     TelexTask.sessionId := Some (str "session_1700000000000");
     TelexTask.status :=
       {| TelexTaskStatus.state := working;
          TelexTaskStatus.timestamp := 1700000000001;
          TelexTaskStatus.message := Some (textMessage user (str "Sherlock Holmes")) |};
     TelexTask.artifacts := [];
     TelexTask.history :=
       [ {| HistoryRecord.timestamp := 1700000000002;
            HistoryRecord.event := str "task_created";
            HistoryRecord.data :=
              TaskCreated (str "Sherlock Holmes") (str "A2A-Book-Agent/1.0.0") |} ];
     TelexTask.pushNotificationConfig := None |}.

Definition sampleCache : gmap jsstring TelexTask.t := {[ sampleId := sampleTask ]}.

Definition sampleConfig : PushNotificationConfig.t :=
  {| PushNotificationConfig.url := Some (str "https://example.com/webhook");
     PushNotificationConfig.authentication :=
       Some {| Authentication.type := bearer;
               Authentication.token := Some (str "test-token");
               Authentication.username := None;
               Authentication.password := None |} |}.

Definition paramsFor (v : unknown) (c : ConfigParam) : option Params.t :=
  Some {| Params.id := v; Params.message := NoMessage;
          Params.sessionId := Undefined; Params.pushNotificationConfig := c |}.

Definition sendParams (s : string) : Params.t :=
  {| Params.id := Undefined; Params.message := Message (textMessage user (str s));
     Params.sessionId := Undefined; Params.pushNotificationConfig := NoConfig |}.

Definition freshResponse : Response.t :=
  {| Response.writeHead_throws := None; Response.write_throws := None;
     Response.end_throws := None; Response.head := None;
     Response.frames := []; Response.ended := false |}.

(** A stored id with a tab put after its fourth code unit. *)
Definition idWithTab : jsstring := take 4 sampleId ++ [9] ++ drop 4 sampleId.

(** A stored id with a space before it, a NUL inside it and a space and a
    line feed after it. *)
Definition idWithNoise : jsstring :=
  [32] ++ take 4 sampleId ++ [0] ++ drop 4 sampleId ++ [32; 10].

Definition sampleBook : jsstring :=
  text_of ["Preface"; "The Project Gutenberg EBook of X"; "Body text";
           "End of Project Gutenberg's X"; "License"].

(** A text laid out as the plain-text editions of the catalog are. *)
Definition gutenbergText : jsstring :=
  text_of ["The Project Gutenberg eBook of A Tale of Two Cities"; "";
           "This ebook is for the use of anyone anywhere in the United States and";
           "most other parts of the world at no cost and with almost no restrictions";
           "whatsoever. You may copy it, give it away or re-use it under the terms";
           "of the Project Gutenberg License included with this ebook or online";
           "at www.gutenberg.org."; "";
           "Title: A Tale of Two Cities"; "";
           "*** START OF THE PROJECT GUTENBERG EBOOK A TALE OF TWO CITIES ***"; "";
           "It was the best of times, it was the worst of times, it was the age of wisdom,";
           "it was the age of foolishness, it was the epoch of belief."; "";
           "*** END OF THE PROJECT GUTENBERG EBOOK A TALE OF TWO CITIES ***"; "";
           "Updated editions will replace the previous one--the old editions will be renamed."].

Definition sampleOpening : jsstring :=
  text_of ["CONTENTS"; "I.";
           "It was the best of times, it was the worst of times, it was the age of wisdom";
           "second line"].

Ltac bool_to_prop :=
  repeat match goal with
    | H : _ || _ = true |- _ => apply orb_true_iff in H
    | H : _ && _ = true |- _ => apply andb_true_iff in H
    | H : _ \/ _ |- _ => destruct H
    | H : _ /\ _ |- _ => destruct H
    | H : (_ =? _) = true |- _ => apply N.eqb_eq in H
    | H : (_ <=? _) = true |- _ => apply N.leb_le in H
    end.

Ltac bool_false :=
  repeat match goal with
    | |- _ || _ = false => apply orb_false_iff; split
    | |- _ && _ = false => apply andb_false_iff
    | |- (_ =? _) = false => apply N.eqb_neq; lia
    end.

(** ** Vocabulary of the further properties *)

(** The class of [/^[a-zA-Z0-9_\/-]+$/]. *)
Definition is_method_char (c : N) : bool := is_task_id_char c || (c =? 47).

(** [s] holds, under the [i] flag, the letters [on] followed by one or
    more word characters, any white space and an equals sign. *)
Definition handlerLike (s : jsstring) : Prop :=
  exists pre o n w ws post,
    s = pre ++ [o; n] ++ w ++ ws ++ [61] ++ post
    /\ eq_ci 111 o = true /\ eq_ci 110 n = true
    /\ w <> [] /\ forallb is_word w = true /\ forallb is_white_space ws = true.

Definition dangerousContent : Thrown :=
  newValidationError "Search query contains potentially dangerous content".

(** The id that [createTask] gives to the task it builds. *)
Definition newTaskId (clock : nat -> N) (randomSuffix : jsstring) : jsstring :=
  str "task_" ++ decimal (clock 0%nat) ++ str "_" ++ randomSuffix.

(** The id that a response carries. *)
Definition responseId (r : TelexResponse) : option ReqId :=
  match r with
  | Success _ id => Some id
  | Failure (mkErrorResponse _ id) => id
  end.

(** [id || 'default'] *)
Definition requestIdOf (request : TelexRequest.t) : ReqId :=
  default (IdStr (str "default")) (id_or_null (TelexRequest.id request)).

(** [t'] is [t] some steps later: the same id and session, the history of
    [t] with records added at its end, and the state of [t] unless [t] was
    working and [t'] is canceled. *)
Definition extends (t t' : TelexTask.t) : Prop :=
  TelexTask.id t' = TelexTask.id t
  /\ TelexTask.sessionId t' = TelexTask.sessionId t
  /\ TelexTask.artifacts t' = TelexTask.artifacts t
  /\ TelexTask.history t `prefix_of` TelexTask.history t'
  /\ (length (TelexTask.history t') <= S (length (TelexTask.history t)))%nat
  /\ (stateOf t' = stateOf t \/ (stateOf t = working /\ stateOf t' = canceled)).

Definition messageMethods : list unknown :=
  [Str (str "message/send"); Str (str "message/stream")].

(** What a handler does to the store at the keys other than [k]. *)
Definition touchesOnly (k : jsstring) (before after : gmap jsstring TelexTask.t) : Prop :=
  (forall key, key <> k -> after !! key = before !! key)
  /\ (forall key, is_Some (before !! key) -> is_Some (after !! key)).

Definition extendsStore (before after : gmap jsstring TelexTask.t) : Prop :=
  forall key t, before !! key = Some t ->
    exists t', after !! key = Some t' /\ extends t t'.

(** The sum of the waits of a trace. *)
Definition totalWait (events : list Event) : N := foldr N.add 0 (sleeps events).


Definition timeoutResult : BookResult.t :=
  BookTool.errorResult (Some (str "Request timeout while searching for books"))
    (Some (str "TIMEOUT_ERROR"))
    (Some (str "The search request took too long to complete")).

(** The book shape of a result: no error, and a title, the authors, an
    excerpt of 1 to 500 code units, the source and the three optional
    fields, all present. *)
Definition isBookRecord (r : BookResult.t) : Prop :=
  BookResult.error r = None
  /\ (exists title, BookResult.title r = Some title /\ title <> [])
  /\ is_Some (BookResult.authors r)
  /\ (exists excerpt, BookResult.excerpt r = Some excerpt
                      /\ (1 <= length excerpt <= 500)%nat)
  /\ BookResult.source r = Some (str "Project Gutenberg")
  /\ is_Some (BookResult.downloadCount r)
  /\ is_Some (BookResult.languages r)
  /\ is_Some (BookResult.subjects r).

Definition emptyQueryResult : BookResult.t :=
  BookTool.errorResult (Some (str "Search query cannot be empty"))
    (Some (str "VALIDATION_ERROR")) None.

Definition uriMalformedResult : BookResult.t :=
  BookTool.errorResult
    (Some (str "An unexpected error occurred while fetching book data."))
    (Some (str "UNKNOWN_ERROR")) (Some (str "URI malformed")).

(** The code units that line 239 keeps. *)
Definition allowedChar (c : N) : bool :=
  is_word c || is_white_space c || one_of ".,!?;:" c || (c =? 39) || (c =? 34)
  || one_of "()-" c.

Definition noLineBreak (s : jsstring) : bool := forallb (fun c => negb (is_crlf c)) s.

(** A run of calls of [checkLimit] for one identifier, at the given
    readings of the clock: the store it leaves and the verdicts. *)
Fixpoint limitRun (identifier : jsstring) (maxRequests windowMs : number)
  (times : list Z) (requests : gmap jsstring RateLimiter.Entry)
  : gmap jsstring RateLimiter.Entry * list RateLimiter.Verdict :=
  match times with
  | [] => (requests, [])
  | dateNow :: times' =>
      let '(requests', verdict) :=
        RateLimiter.checkLimit dateNow identifier maxRequests windowMs requests in
      let '(requests'', verdicts) :=
        limitRun identifier maxRequests windowMs times' requests' in
      (requests'', verdict :: verdicts)
  end.

Definition allowedCount (verdicts : list RateLimiter.Verdict) : nat :=
  length (List.filter (fun v => match v with RateLimiter.Allowed => true | _ => false end)
            verdicts).

(** [req.ip || 'unknown'] *)
Definition identifierOf (req : Express.Request) : jsstring :=
  match Express.ip req with
  | Some ((_ :: _) as ip) => ip
  | _ => str "unknown"
  end.



(** * Lemmas on the matcher *)

Lemma orelse_None_r {A} (x : option A) : orelse x None = x.
Proof. by destruct x. Qed.

Lemma star_loop_lazy_chr (p : N -> bool) (k : Cont) (fuel : nat) :
  forall prev s, (length s <= fuel)%nat ->
    star_loop false (rmatch (Chr p)) k fuel prev s = lazy_star p k prev s.
Proof.
  induction fuel as [|fuel IH]; intros prev s Hlen.
  - destruct s; [|cbn in Hlen; lia]. cbn. by rewrite orelse_None_r.
  - destruct s as [|c s']; cbn [star_loop rmatch lazy_star]; [done|].
    destruct (p c); [|done].
    assert ((length s' <? length (c :: s'))%nat = true) as ->
      by (apply Nat.ltb_lt; cbn; lia).
    rewrite IH by (cbn in Hlen; lia). done.
Qed.

Lemma star_loop_greedy_chr (p : N -> bool) (k : Cont) (fuel : nat) :
  forall prev s, (length s <= fuel)%nat ->
    star_loop true (rmatch (Chr p)) k fuel prev s = greedy_star p k prev s.
Proof.
  induction fuel as [|fuel IH]; intros prev s Hlen.
  - destruct s; [|cbn in Hlen; lia]. done.
  - destruct s as [|c s']; cbn [star_loop rmatch greedy_star]; [done|].
    destruct (p c); [|done].
    assert ((length s' <? length (c :: s'))%nat = true) as ->
      by (apply Nat.ltb_lt; cbn; lia).
    rewrite IH by (cbn in Hlen; lia). done.
Qed.

Lemma rmatch_star_lazy (p : N -> bool) (k : Cont) prev s :
  rmatch (Star false (Chr p)) prev s k = lazy_star p k prev s.
Proof. cbn [rmatch]. by apply star_loop_lazy_chr. Qed.

Lemma rmatch_star_greedy (p : N -> bool) (k : Cont) prev s :
  rmatch (Star true (Chr p)) prev s k = greedy_star p k prev s.
Proof. cbn [rmatch]. by apply star_loop_greedy_chr. Qed.

Lemma rmatch_chars (f : N -> N -> bool) (l : jsstring) :
  forall (k : Cont) prev s,
    rmatch (seq_of (map (fun c => Chr (f c)) l)) prev s k = match_chars f l k prev s.
Proof.
  induction l as [|a l IH]; intros k prev s; [done|].
  destruct l as [|b l'].
  - cbn. destruct s as [|c s']; [done|]. by destruct (f a c).
  - change (seq_of (map (fun c => Chr (f c)) (a :: b :: l')))
      with (Seq (Chr (f a)) (seq_of (map (fun c => Chr (f c)) (b :: l')))).
    cbn [rmatch match_chars]. destruct s as [|c s']; [done|].
    destruct (f a c); [|done]. apply IH.
Qed.

Lemma rmatch_lit_ci (m : string) (k : Cont) prev s :
  rmatch (lit_ci m) prev s k = match_chars eq_ci (str m) k prev s.
Proof. apply rmatch_chars. Qed.

Lemma replace_go_chr (p : N -> bool) :
  forall prev s, replace_go (Chr p) [] 0 prev s = List.filter (fun c => negb (p c)) s.
Proof.
  intros prev s. revert prev. induction s as [|c s IH]; intros prev; [done|].
  cbn [replace_go exec_at rmatch List.filter].
  destruct (p c); cbn [negb].
  - replace (length (c :: s) - length s)%nat with 1%nat by (cbn; lia).
    cbn. apply IH.
  - by rewrite IH.
Qed.

Lemma replace_all_chr (p : N -> bool) (s : jsstring) :
  replace_all (Chr p) [] s = List.filter (fun c => negb (p c)) s.
Proof. apply replace_go_chr. Qed.

Lemma rmatch_Seq r1 r2 prev s (k : Cont) :
  rmatch (Seq r1 r2) prev s k = rmatch r1 prev s (fun prev' s' => rmatch r2 prev' s' k).
Proof. reflexivity. Qed.

Lemma rmatch_Chr p prev s (k : Cont) :
  rmatch (Chr p) prev s k =
    match s with c :: s' => if p c then k (Some c) s' else None | [] => None end.
Proof. reflexivity. Qed.

Lemma rmatch_Plus_chr greedy p prev s (k : Cont) :
  rmatch (Plus greedy (Chr p)) prev s k =
    match s with
    | c :: s' => if p c then rmatch (Star greedy (Chr p)) (Some c) s' k else None
    | [] => None
    end.
Proof. reflexivity. Qed.

Lemma rmatch_Bol prev s (k : Cont) :
  rmatch Bol prev s k = match prev with None => k prev s | Some _ => None end.
Proof. reflexivity. Qed.

Lemma rmatch_Eol prev s (k : Cont) :
  rmatch Eol prev s k = match s with [] => k prev s | _ :: _ => None end.
Proof. reflexivity. Qed.

Lemma crlf_not_dot c : is_crlf c = true -> dot c = false.
Proof.
  unfold is_crlf, dot, is_line_terminator. intros H.
  apply orb_true_iff in H as [H|H]; apply N.eqb_eq in H; subst; reflexivity.
Qed.

Lemma dot_not_crlf c : dot c = true -> is_crlf c = false.
Proof.
  intros H. destruct (is_crlf c) eqn:Hc; [|done].
  apply crlf_not_dot in Hc. congruence.
Qed.

Lemma canon_line_terminator c : is_line_terminator c = true -> canon c = c.
Proof.
  unfold is_line_terminator, canon, is_lower, in_range. intros H.
  repeat (apply orb_true_iff in H as [H|H]); apply N.eqb_eq in H; subst; reflexivity.
Qed.

Lemma eq_ci_dot a c :
  is_line_terminator (canon a) = false -> eq_ci a c = true -> dot c = true.
Proof.
  intros Ha Heq. unfold dot. destruct (is_line_terminator c) eqn:Hc; [|done].
  unfold eq_ci in Heq. apply N.eqb_eq in Heq.
  rewrite (canon_line_terminator c Hc) in Heq. congruence.
Qed.

Lemma line_literal_cons a m :
  line_literal (a :: m) = true ->
  is_line_terminator (canon a) = false /\ line_literal m = true.
Proof.
  unfold line_literal. cbn. intros H. apply andb_true_iff in H as [H1 H2].
  by apply negb_true_iff in H1.
Qed.

Lemma greedy_star_Kend p prev s : greedy_star p Kend prev s = Some (drop_while p s).
Proof.
  revert prev. induction s as [|c s IH]; intros prev; [done|].
  cbn. destruct (p c); [|done]. by rewrite IH.
Qed.

Lemma greedy_star_skip p (k : Cont) (f : jsstring -> option jsstring) :
  (forall prev s, k prev s = f s) ->
  (forall c s, p c = true -> f (c :: s) = None) ->
  forall prev s, greedy_star p k prev s = f (drop_while p s).
Proof.
  intros Hk Hf prev s. revert prev. induction s as [|c s IH]; intros prev.
  - cbn. apply Hk.
  - cbn. destruct (p c) eqn:Hc; [|apply Hk].
    rewrite IH, Hk, (Hf c s Hc). by rewrite orelse_None_r.
Qed.

Lemma match_chars_indep (m : jsstring) (k : Cont) (f : jsstring -> option jsstring) :
  (forall prev s, k prev s = f s) ->
  forall prev s,
    match_chars eq_ci m k prev s =
      if prefix_ci m s then f (drop (length m) s) else None.
Proof.
  intros Hk. induction m as [|a m IH]; intros prev s.
  - cbn. by rewrite drop_0.
  - cbn. destruct s as [|c s]; [done|]. destruct (eq_ci a c); [|done]. apply IH.
Qed.

Lemma greedy_dot_eol (k : Cont) :
  (forall prev s, k prev s = match s with [] => Some [] | _ :: _ => None end) ->
  forall prev s, greedy_star dot k prev s = if forallb dot s then Some [] else None.
Proof.
  intros Hk prev s. revert prev. induction s as [|c s IH]; intros prev.
  - cbn. by rewrite Hk.
  - cbn. destruct (dot c); cbn.
    + rewrite IH, Hk. by destruct (forallb dot s).
    + by rewrite Hk.
Qed.

Lemma forallb_dot_drop_prefix m s :
  line_literal m = true -> prefix_ci m s = true ->
  forallb dot (drop (length m) s) = forallb dot s.
Proof.
  revert s. induction m as [|a m IH]; intros s Hm Hp; [by rewrite drop_0|].
  apply line_literal_cons in Hm as [Ha Hm].
  destruct s as [|c s]; [done|]. cbn in Hp. apply andb_true_iff in Hp as [Hac Hp].
  cbn. rewrite (eq_ci_dot a c Ha Hac). cbn. by apply IH.
Qed.

Lemma drop_while_dot_drop_prefix m s :
  line_literal m = true -> prefix_ci m s = true ->
  drop_while dot (drop (length m) s) = drop_while dot s.
Proof.
  revert s. induction m as [|a m IH]; intros s Hm Hp; [by rewrite drop_0|].
  apply line_literal_cons in Hm as [Ha Hm].
  destruct s as [|c s]; [done|]. cbn in Hp. apply andb_true_iff in Hp as [Hac Hp].
  cbn. rewrite (eq_ci_dot a c Ha Hac). by apply IH.
Qed.

Lemma after_line_drop_prefix m s :
  line_literal m = true -> prefix_ci m s = true ->
  after_line (drop (length m) s) = after_line s.
Proof. intros Hm Hp. unfold after_line. by rewrite drop_while_dot_drop_prefix. Qed.

Lemma after_line_dot c s : dot c = true -> after_line (c :: s) = after_line s.
Proof. intros H. unfold after_line. cbn. by rewrite H. Qed.

Lemma after_line_not_dot c s :
  dot c = false ->
  after_line (c :: s) = if is_crlf c then Some (drop_while is_crlf s) else None.
Proof. intros H. unfold after_line. cbn. by rewrite H. Qed.

Lemma lazy_dot_then_line (q : jsstring -> bool) (k : Cont) :
  (forall prev s, k prev s = if q s then after_line s else None) ->
  forall prev s,
    lazy_star dot k prev s = if occurs_where q s then after_line s else None.
Proof.
  intros Hk prev s. revert prev. induction s as [|c s IH]; intros prev.
  - cbn. rewrite Hk, orelse_None_r, orb_false_r. done.
  - cbn [lazy_star occurs_where]. rewrite Hk.
    destruct (dot c) eqn:Hc; cbn [andb].
    + rewrite IH, (after_line_dot c s Hc).
      destruct (q (c :: s)); cbn; [|done].
      destruct (after_line s); cbn; [done|]. by destruct (occurs_where q s).
    + rewrite orelse_None_r, orb_false_r. done.
Qed.

Lemma lazy_dot_then_last_line (q : jsstring -> bool) (k : Cont) :
  (forall prev s, k prev s = if q s && forallb dot s then Some [] else None) ->
  forall prev s,
    lazy_star dot k prev s =
      if forallb dot s && occurs_where q s then Some [] else None.
Proof.
  intros Hk prev s. revert prev. induction s as [|c s IH]; intros prev.
  - cbn. rewrite Hk, orelse_None_r. cbn. by rewrite andb_true_r, orb_false_r.
  - cbn [lazy_star occurs_where forallb]. rewrite Hk. cbn [forallb].
    destruct (dot c) eqn:Hc; cbn [andb].
    + rewrite IH. destruct (forallb dot s); cbn.
      * rewrite andb_true_r. destruct (q (c :: s)); cbn; [done|].
        by destruct (occurs_where q s).
      * by rewrite andb_false_r.
    + by rewrite andb_false_r.
Qed.

Lemma plus_crlf_Kend prev s :
  rmatch (Plus true (Chr is_crlf)) prev s Kend = crlf_run s.
Proof.
  rewrite rmatch_Plus_chr. destruct s as [|c s]; [done|]. cbn [crlf_run].
  destruct (is_crlf c); [|done]. by rewrite rmatch_star_greedy, greedy_star_Kend.
Qed.

Lemma lazy_dot_crlf (k : Cont) :
  (forall prev s, k prev s = crlf_run s) ->
  forall prev s, lazy_star dot k prev s = after_line s.
Proof.
  intros Hk prev s. revert prev. induction s as [|c s IH]; intros prev.
  - cbn. by rewrite Hk.
  - cbn [lazy_star]. rewrite Hk. cbn [crlf_run].
    destruct (dot c) eqn:Hc.
    + rewrite (dot_not_crlf c Hc), IH. cbn. by rewrite after_line_dot.
    + rewrite orelse_None_r. by rewrite after_line_not_dot.
Qed.

(** What one match of the header pattern at the start of [s] leaves. *)
Lemma exec_header prev s :
  exec_at re_header prev s =
    if occurs_in_line headerMarker s then after_line s else None.
Proof.
  unfold exec_at, re_header. cbn [seq_of].
  rewrite rmatch_Seq, rmatch_star_lazy.
  apply lazy_dot_then_line. clear. intros prev s.
  rewrite rmatch_Seq, rmatch_lit_ci.
  rewrite (match_chars_indep _ _ after_line).
  - fold headerMarker. destruct (prefix_ci headerMarker s) eqn:Hp; [|done].
    by apply after_line_drop_prefix.
  - clear. intros prev s. rewrite rmatch_Seq, rmatch_star_lazy.
    apply lazy_dot_crlf. apply plus_crlf_Kend.
Qed.

Lemma eol_Kend prev s :
  rmatch Eol prev s (fun _ s' => Some s') = match s with [] => Some [] | _ :: _ => None end.
Proof. rewrite rmatch_Eol. by destruct s. Qed.

Lemma plus_crlf_then_last_line (q : jsstring -> bool) (k : Cont) :
  (forall prev s,
     k prev s = if forallb dot s && occurs_where q s then Some [] else None) ->
  forall prev s, rmatch (Plus true (Chr is_crlf)) prev s k = last_line_with q s.
Proof.
  intros Hk prev s. rewrite rmatch_Plus_chr. destruct s as [|c s]; [done|].
  cbn [last_line_with]. destruct (is_crlf c); [|done].
  rewrite rmatch_star_greedy.
  rewrite (greedy_star_skip is_crlf k
             (fun s => if forallb dot s && occurs_where q s then Some [] else None) Hk).
  - done.
  - intros c' s' Hc'. cbn. by rewrite (crlf_not_dot c' Hc').
Qed.

Lemma tail_marker_then_eol (m : jsstring) (prev : option N) (s : jsstring) (r : regex) :
  line_literal m = true ->
  (forall k prev s, rmatch r prev s k = match_chars eq_ci m k prev s) ->
  rmatch (Seq r (Seq (Star true (Chr dot)) Eol)) prev s (fun _ s' => Some s')
  = if prefix_ci m s && forallb dot s then Some [] else None.
Proof.
  intros Hm Hr. rewrite rmatch_Seq, Hr.
  rewrite (match_chars_indep _ _ (fun s => if forallb dot s then Some [] else None)).
  - destruct (prefix_ci m s) eqn:Hp; [|done]. cbn.
    by rewrite forallb_dot_drop_prefix.
  - clear. intros prev s. rewrite rmatch_Seq, rmatch_star_greedy.
    apply greedy_dot_eol. intros prev' s'. apply eol_Kend.
Qed.

Lemma exec_footer_end_of prev s :
  exec_at re_footer_end_of prev s = last_line_with (prefix_ci footerMarker) s.
Proof.
  unfold exec_at, re_footer_end_of. cbn [seq_of]. rewrite rmatch_Seq.
  apply plus_crlf_then_last_line. clear. intros prev s.
  rewrite rmatch_Seq, rmatch_star_lazy.
  apply lazy_dot_then_last_line. clear. intros prev s.
  apply (tail_marker_then_eol footerMarker); [reflexivity|].
  intros. apply rmatch_lit_ci.
Qed.

Lemma exec_footer_END_OF prev s :
  exec_at re_footer_END_OF prev s = last_line_with twoMarkers s.
Proof.
  unfold exec_at, re_footer_END_OF. cbn [seq_of]. rewrite rmatch_Seq.
  apply plus_crlf_then_last_line. clear. intros prev s.
  rewrite rmatch_Seq, rmatch_star_lazy.
  apply lazy_dot_then_last_line. clear. intros prev s.
  rewrite rmatch_Seq, rmatch_lit_ci.
  rewrite (match_chars_indep _ _
             (fun s => if forallb dot s && occurs_in_line footerMarker2 s
                       then Some [] else None)).
  - unfold twoMarkers. fold footerMarker1.
    destruct (prefix_ci footerMarker1 s) eqn:Hp; [|done]. cbn [andb].
    rewrite forallb_dot_drop_prefix by done. by rewrite andb_comm.
  - clear. intros prev s. rewrite rmatch_Seq, rmatch_star_lazy.
    apply lazy_dot_then_last_line. clear. intros prev s.
    apply (tail_marker_then_eol footerMarker2); [reflexivity|].
    intros. apply rmatch_lit_ci.
Qed.

Section Replace.
Context (r : regex) (repl : jsstring) (e : jsstring -> option jsstring).
Context (He : forall prev s, exec_at r prev s = e s).

Lemma replace_go_prev n prev prev' s :
  replace_go r repl n prev s = replace_go r repl n prev' s.
Proof. destruct s as [|c s], n as [|n]; cbn; rewrite ?He; done. Qed.

Lemma replace_go_skip (m rest : jsstring) prev prev' :
  replace_go r repl (length m) prev (m ++ rest) = replace_go r repl 0 prev' rest.
Proof.
  revert prev. induction m as [|c m IH]; intros prev.
  - apply replace_go_prev.
  - cbn. apply IH.
Qed.

Lemma replace_go_match (m rest : jsstring) prev prev' :
  m <> [] -> e (m ++ rest) = Some rest ->
  replace_go r repl 0 prev (m ++ rest) = repl ++ replace_go r repl 0 prev' rest.
Proof.
  intros Hm Hex. destruct m as [|c m]; [done|].
  cbn [app replace_go]. rewrite He. cbn [app] in Hex. rewrite Hex.
  replace (length (c :: m ++ rest) - length rest)%nat with (S (length m))
    by (cbn; rewrite length_app; lia).
  f_equal. apply replace_go_skip.
Qed.

Lemma replace_go_no_match (x tail : jsstring) prev prev' :
  (forall x1 x2, x = x1 ++ x2 -> x2 <> [] -> e (x2 ++ tail) = None) ->
  replace_go r repl 0 prev (x ++ tail) = x ++ replace_go r repl 0 prev' tail.
Proof.
  revert prev. induction x as [|c x IH]; intros prev Hno.
  - apply replace_go_prev.
  - cbn [app replace_go]. rewrite He.
    assert (e (c :: x ++ tail) = None) as -> by (by apply (Hno [] (c :: x))).
    f_equal. apply IH.
    intros x1 x2 -> Hx2. by apply (Hno (c :: x1) x2).
Qed.

Lemma replace_go_nil prev : e [] = None -> replace_go r repl 0 prev [] = [].
Proof. intros H. cbn. by rewrite He, H. Qed.

Lemma replace_all_no_match (x : jsstring) :
  e [] = None ->
  (forall x1 x2, x = x1 ++ x2 -> x2 <> [] -> e x2 = None) ->
  replace_all r repl x = x.
Proof.
  intros Hnil Hno. unfold replace_all.
  rewrite <- (app_nil_r x) at 1.
  rewrite (replace_go_no_match x [] None None).
  - by rewrite (replace_go_nil None Hnil), app_nil_r.
  - intros x1 x2 Hx Hx2. rewrite app_nil_r. by apply (Hno x1).
Qed.

End Replace.

Lemma prefix_ci_app m a b : prefix_ci m a = true -> prefix_ci m (a ++ b) = true.
Proof.
  revert a. induction m as [|x m IH]; intros a H; [done|].
  destruct a as [|c a]; [done|]. cbn in *.
  apply andb_true_iff in H as [-> H]. by apply IH.
Qed.

Lemma prefix_ci_stop m x c rest :
  line_literal m = true -> dot c = false ->
  prefix_ci m (x ++ c :: rest) = prefix_ci m x.
Proof.
  revert x. induction m as [|a m IH]; intros x Hm Hc; [done|].
  apply line_literal_cons in Hm as [Ha Hm]. destruct x as [|d x]; cbn.
  - destruct (eq_ci a c) eqn:Hac; [|done].
    apply (eq_ci_dot a c Ha) in Hac. congruence.
  - by rewrite IH.
Qed.

Lemma occurs_in_line_stop m x c rest :
  line_literal m = true -> dot c = false ->
  occurs_in_line m (x ++ c :: rest) = occurs_in_line m x.
Proof.
  intros Hm Hc. unfold occurs_in_line.
  induction x as [|d x IH].
  - pose proof (prefix_ci_stop m [] c rest Hm Hc) as Hp.
    cbn [app occurs_where] in *. rewrite Hc, Hp. done.
  - pose proof (prefix_ci_stop m (d :: x) c rest Hm Hc) as Hp.
    cbn [app occurs_where] in *. by rewrite IH, Hp.
Qed.

Lemma occurs_where_app (m a b : jsstring) :
  occurs_in_line m a = true -> occurs_in_line m (a ++ b) = true.
Proof.
  unfold occurs_in_line. induction a as [|c a IH]; cbn [app occurs_where].
  - rewrite orb_false_r. intros H. destruct m; [|done]. by destruct b.
  - intros H. apply orb_true_iff in H as [H|H].
    + apply (prefix_ci_app m (c :: a) b) in H. cbn [app] in H. by rewrite H.
    + apply andb_true_iff in H as [-> H]. rewrite (IH H). apply orb_true_r.
Qed.

Lemma occurs_where_suffix (q : jsstring -> bool) (s : jsstring) :
  occurs_where q s = true -> exists z, z `suffix_of` s /\ q z = true.
Proof.
  induction s as [|c s IH]; cbn.
  - rewrite orb_false_r. intros H. by exists [].
  - intros H. apply orb_true_iff in H as [H|H].
    + by exists (c :: s).
    + apply andb_true_iff in H as [_ H]. destruct (IH H) as (z & Hz & Hq).
      exists z. split; [by apply suffix_cons_r|done].
Qed.

Lemma mentions_suffix (m z s : jsstring) :
  z `suffix_of` s -> prefix_ci m z = true -> mentions m s = true.
Proof.
  intros [k ->] Hz. induction k as [|c k IH]; cbn [app].
  - destruct z; cbn; by rewrite Hz.
  - cbn. rewrite IH. apply orb_true_r.
Qed.

Lemma mentions_app_r (m a b : jsstring) :
  mentions m (a ++ b) = false -> mentions m b = false.
Proof.
  intros H. destruct (mentions m b) eqn:Hb; [|done].
  assert (exists z, z `suffix_of` b /\ prefix_ci m z = true) as (z & Hz & Hp).
  { clear H. induction b as [|c b IH]; cbn in Hb.
    - rewrite orb_false_r in Hb. by exists [].
    - apply orb_true_iff in Hb as [Hb|Hb]; [by exists (c :: b)|].
      destruct (IH Hb) as (z & Hz & Hp). exists z. split; [by apply suffix_cons_r|done]. }
  rewrite (mentions_suffix m z (a ++ b)) in H; [done| |done].
  by apply suffix_app_r.
Qed.

Lemma mentions_app_l (m a b : jsstring) :
  mentions m (a ++ b) = false -> mentions m a = false.
Proof.
  intros H. destruct (mentions m a) eqn:Ha; [|done]. rewrite <- H. symmetry.
  clear H. induction a as [|c a IH]; cbn [app].
  - cbn in Ha. rewrite orb_false_r in Ha. destruct m; [|done]. by destruct b.
  - cbn in Ha. apply orb_true_iff in Ha as [Ha|Ha]; cbn [mentions].
    + apply (prefix_ci_app m (c :: a) b) in Ha. cbn [app] in Ha. by rewrite Ha.
    + rewrite (IH Ha). apply orb_true_r.
Qed.

Lemma occurs_in_line_mentions (m x y : jsstring) :
  mentions m (x ++ y) = false -> occurs_in_line m x = false.
Proof.
  intros H. destruct (occurs_in_line m x) eqn:Ho; [|done].
  apply occurs_where_suffix in Ho as (z & Hz & Hp).
  apply mentions_app_l in H. by rewrite (mentions_suffix m z x Hz Hp) in H.
Qed.

Lemma last_of_suffix (x1 x2 : jsstring) : x2 <> [] -> last (x1 ++ x2) = last x2.
Proof.
  intros Hne. rewrite last_app. apply last_is_Some in Hne as [y Hy]. by rewrite Hy.
Qed.

Lemma drop_while_all (p : N -> bool) (a b : jsstring) :
  forallb p a = true -> head_is p b = false -> drop_while p (a ++ b) = b.
Proof.
  intros Ha Hb. induction a as [|c a IH].
  - destruct b as [|d b]; [done|]. cbn in *. by rewrite Hb.
  - cbn in *. apply andb_true_iff in Ha as [-> Ha]. by apply IH.
Qed.

Lemma drop_while_keeps_last (p : N -> bool) (a b : jsstring) :
  last_is p a = false -> a <> [] ->
  exists y, y <> [] /\ drop_while p (a ++ b) = y ++ b.
Proof.
  intros Hlast Hne. induction a as [|c a IH]; [done|].
  cbn. destruct (p c) eqn:Hc.
  - destruct a as [|d a].
    + unfold last_is in Hlast. cbn in Hlast. congruence.
    + apply IH; [|done]. unfold last_is in *. by rewrite last_cons_cons in Hlast.
  - by exists (c :: a).
Qed.

Lemma forallb_dot_all_head (s : jsstring) :
  forallb dot s = true -> head_is is_crlf s = false.
Proof.
  destruct s as [|c s]; [done|]. cbn. intros H.
  apply andb_true_iff in H as [H _]. by apply dot_not_crlf.
Qed.

Lemma forallb_dot_suffix (x1 x2 : jsstring) :
  forallb dot (x1 ++ x2) = true -> forallb dot x2 = true.
Proof. rewrite forallb_app. intros H. by apply andb_true_iff in H as [_ H]. Qed.

Lemma forallb_dot_break (y brk rest : jsstring) :
  brk <> [] -> forallb is_crlf brk = true -> forallb dot (y ++ brk ++ rest) = false.
Proof.
  intros Hne Hbrk. destruct brk as [|c brk]; [done|]. cbn in Hbrk.
  apply andb_true_iff in Hbrk as [Hc _].
  rewrite forallb_app. cbn. rewrite (crlf_not_dot c Hc). apply andb_false_r.
Qed.

Lemma after_line_of_line (line brk post : jsstring) :
  forallb dot line = true -> brk <> [] -> forallb is_crlf brk = true ->
  head_is is_crlf post = false ->
  after_line (line ++ brk ++ post) = Some post.
Proof.
  intros Hline Hne Hbrk Hpost. destruct brk as [|c brk]; [done|].
  cbn in Hbrk. apply andb_true_iff in Hbrk as [Hc Hbrk].
  unfold after_line. rewrite drop_while_all; [|done|cbn; by apply crlf_not_dot].
  cbn [app]. rewrite Hc. by rewrite drop_while_all.
Qed.

Lemma after_line_all_dot (s : jsstring) : forallb dot s = true -> after_line s = None.
Proof.
  intros H. unfold after_line.
  rewrite <- (app_nil_r s). by rewrite drop_while_all.
Qed.

(** The header pattern, one line: the text before the line stays, the
    line and its line breaks go, the rest is treated in the same way. *)
Lemma strip_header_line (pre line brk post : jsstring) :
  ends_line pre = true ->
  mentions headerMarker pre = false ->
  forallb dot line = true ->
  occurs_in_line headerMarker line = true ->
  brk <> [] -> forallb is_crlf brk = true ->
  head_is is_crlf post = false ->
  replace_all re_header [] (pre ++ line ++ brk ++ post)
  = pre ++ replace_all re_header [] post.
Proof.
  intros Hends Hpre Hline Hocc Hne Hbrk Hpost. unfold replace_all.
  rewrite (replace_go_no_match re_header [] headerStep exec_header pre _ None None).
  - f_equal. rewrite (app_assoc line brk post).
    rewrite (replace_go_match re_header [] headerStep exec_header (line ++ brk) post
               None None); [done| |].
    + destruct line; [by destruct brk|done].
    + unfold headerStep. rewrite <- app_assoc.
      rewrite (occurs_where_app headerMarker line _ Hocc).
      by apply after_line_of_line.
  - intros x1 x2 -> Hx2. unfold headerStep.
    unfold ends_line in Hends. rewrite (last_of_suffix x1 x2 Hx2) in Hends.
    destruct (last x2) as [c|] eqn:Hlast; [|by apply last_None in Hlast].
    apply last_Some in Hlast as [x2' ->].
    rewrite <- app_assoc. cbn [app].
    rewrite occurs_in_line_stop; [|reflexivity|unfold dot; by rewrite Hends].
    apply mentions_app_r in Hpre.
    by rewrite (occurs_in_line_mentions headerMarker x2' [c] Hpre).
Qed.

(** A text without the marker in its lines, whose last line has no line
    break after it, is left as it is by the header pattern. *)
Lemma strip_header_nothing (body brk fline : jsstring) :
  mentions headerMarker body = false ->
  brk <> [] -> forallb is_crlf brk = true ->
  forallb dot fline = true ->
  replace_all re_header [] (body ++ brk ++ fline) = body ++ brk ++ fline.
Proof.
  intros Hbody Hne Hbrk Hf. unfold replace_all.
  rewrite (replace_go_no_match re_header [] headerStep exec_header body _ None None).
  - f_equal.
    rewrite (replace_go_no_match re_header [] headerStep exec_header brk _ None None).
    + f_equal. apply (replace_all_no_match re_header [] headerStep exec_header).
      * reflexivity.
      * intros x1 x2 -> _. unfold headerStep.
        rewrite (after_line_all_dot x2) by (by eapply forallb_dot_suffix).
        by destruct (occurs_in_line _ _).
    + intros x1 x2 -> Hx2. unfold headerStep. destruct x2 as [|c x2]; [done|].
      rewrite forallb_app in Hbrk. apply andb_true_iff in Hbrk as [_ Hbrk].
      cbn in Hbrk. apply andb_true_iff in Hbrk as [Hc _].
      change ((c :: x2) ++ fline) with ([] ++ c :: (x2 ++ fline)).
      rewrite occurs_in_line_stop; [done|reflexivity|by apply crlf_not_dot].
  - intros x1 x2 -> Hx2. unfold headerStep.
    destruct brk as [|c brk]; [done|]. cbn in Hbrk.
    apply andb_true_iff in Hbrk as [Hc _]. cbn [app].
    rewrite occurs_in_line_stop; [|reflexivity|by apply crlf_not_dot].
    apply mentions_app_r in Hbody.
    rewrite <- (app_nil_r x2) in Hbody.
    by rewrite (occurs_in_line_mentions headerMarker x2 [] Hbody).
Qed.

Section LastLine.
Context (r : regex) (q : jsstring -> bool).
Context (He : forall prev s, exec_at r prev s = last_line_with q s).

Lemma last_line_not_inside (x1 x2 brk rest : jsstring) :
  last_is is_crlf (x1 ++ x2) = false -> x2 <> [] ->
  brk <> [] -> forallb is_crlf brk = true ->
  last_line_with q (x2 ++ brk ++ rest) = None.
Proof.
  intros Hlast Hx2 Hne Hbrk. unfold last_is in Hlast.
  rewrite (last_of_suffix x1 x2 Hx2) in Hlast.
  destruct x2 as [|c x2]; [done|]. cbn [app last_line_with].
  destruct (is_crlf c) eqn:Hc; [|done].
  destruct (drop_while_keeps_last is_crlf x2 (brk ++ rest)) as (y & Hy & ->).
  - unfold last_is. destruct x2 as [|d x2]; [cbn in Hlast; congruence|].
    by rewrite last_cons_cons in Hlast.
  - intros ->. cbn in Hlast. congruence.
  - by rewrite forallb_dot_break.
Qed.

(** The footer patterns: the line breaks before the last line and the
    last line go when the last line carries the marker. *)
Lemma strip_last_line (body brk lastline : jsstring) :
  last_is is_crlf body = false ->
  brk <> [] -> forallb is_crlf brk = true ->
  forallb dot lastline = true ->
  occurs_where q lastline = true ->
  replace_all r [] (body ++ brk ++ lastline) = body.
Proof.
  intros Hlast Hne Hbrk Hline Hocc. unfold replace_all.
  rewrite (replace_go_no_match r [] (last_line_with q) He body _ None None).
  - rewrite <- (app_nil_r (brk ++ lastline)).
    rewrite (replace_go_match r [] (last_line_with q) He (brk ++ lastline) []
               None None).
    + rewrite (replace_go_nil r [] (last_line_with q) He); [|done].
      by rewrite !app_nil_r.
    + by destruct brk.
    + rewrite app_nil_r. destruct brk as [|c brk]; [done|].
      cbn in Hbrk. apply andb_true_iff in Hbrk as [Hc Hbrk].
      cbn [app last_line_with]. rewrite Hc.
      rewrite drop_while_all by (done || by apply forallb_dot_all_head).
      by rewrite Hline, Hocc.
  - intros x1 x2 -> Hx2. by apply (last_line_not_inside x1).
Qed.

(** ... and stay when it does not. *)
Lemma keep_last_line (body brk lastline : jsstring) :
  last_is is_crlf body = false ->
  brk <> [] -> forallb is_crlf brk = true ->
  forallb dot lastline = true ->
  occurs_where q lastline = false ->
  replace_all r [] (body ++ brk ++ lastline) = body ++ brk ++ lastline.
Proof.
  intros Hlast Hne Hbrk Hline Hocc. unfold replace_all.
  rewrite (replace_go_no_match r [] (last_line_with q) He body _ None None).
  - f_equal.
    rewrite (replace_go_no_match r [] (last_line_with q) He brk _ None None).
    + f_equal. apply (replace_all_no_match r [] (last_line_with q) He); [done|].
      intros x1 x2 -> Hx2. destruct x2 as [|c x2]; [done|].
      apply forallb_dot_suffix in Hline. cbn in Hline.
      apply andb_true_iff in Hline as [Hc _]. cbn.
      by rewrite (dot_not_crlf c Hc).
    + intros x1 x2 -> Hx2. destruct x2 as [|c x2]; [done|].
      rewrite forallb_app in Hbrk. apply andb_true_iff in Hbrk as [_ Hbrk].
      cbn in Hbrk. apply andb_true_iff in Hbrk as [Hc Hbrk].
      cbn [app last_line_with]. rewrite Hc.
      rewrite drop_while_all by (done || by apply forallb_dot_all_head).
      by rewrite Hocc, andb_false_r.
  - intros x1 x2 -> Hx2. by apply (last_line_not_inside x1).
Qed.

End LastLine.

Lemma drop_while_suffix (p : N -> bool) (s : jsstring) : drop_while p s `suffix_of` s.
Proof.
  induction s as [|c s IH]; [done|]. cbn. destruct (p c); [|done].
  by apply suffix_cons_r.
Qed.

Lemma prefix_ci_canon (m1 m2 : jsstring) :
  map canon m1 = map canon m2 -> forall s, prefix_ci m1 s = prefix_ci m2 s.
Proof.
  revert m2. induction m1 as [|a m1 IH]; intros [|b m2] Heq s; try done.
  cbn in Heq. injection Heq as Hab Heq. destruct s as [|c s]; [done|].
  cbn. unfold eq_ci. rewrite Hab. f_equal. by apply IH.
Qed.

Lemma twoMarkers_mentions (u z : jsstring) :
  mentions headerMarker u = false -> z `suffix_of` u -> twoMarkers z = false.
Proof.
  intros Hu Hz. destruct (twoMarkers z) eqn:Ht; [|done].
  unfold twoMarkers in Ht. apply andb_true_iff in Ht as [_ Ht].
  apply occurs_where_suffix in Ht as (z' & Hz' & Hp).
  rewrite (prefix_ci_canon footerMarker2 headerMarker) in Hp by reflexivity.
  rewrite (mentions_suffix headerMarker z' u) in Hu; [done| |done].
  etrans; [exact Hz'|]. etrans; [apply suffix_drop|exact Hz].
Qed.

Lemma footer_END_OF_nothing (u : jsstring) :
  mentions headerMarker u = false -> replace_all re_footer_END_OF [] u = u.
Proof.
  intros Hu.
  apply (replace_all_no_match re_footer_END_OF [] (last_line_with twoMarkers)
           exec_footer_END_OF); [done|].
  intros x1 x2 -> Hx2. destruct x2 as [|c x2]; [done|]. cbn.
  destruct (is_crlf c); [|done].
  destruct (occurs_where twoMarkers (drop_while is_crlf x2)) eqn:Ho;
    [|by rewrite andb_false_r].
  apply occurs_where_suffix in Ho as (z & Hz & Hq).
  rewrite (twoMarkers_mentions (x1 ++ c :: x2) z Hu) in Hq; [done|].
  etrans; [exact Hz|]. etrans; [apply drop_while_suffix|].
  apply suffix_app_r, suffix_cons_r. done.
Qed.

Lemma head_is_app (p : N -> bool) (a b : jsstring) :
  a <> [] -> head_is p (a ++ b) = head_is p a.
Proof. by destruct a. Qed.

Lemma last_is_app (p : N -> bool) (a b : jsstring) :
  b <> [] -> last_is p (a ++ b) = last_is p b.
Proof. intros H. unfold last_is. by rewrite last_of_suffix. Qed.

Lemma strip_marked_text (pre hline brk1 body brk2 fline : jsstring) :
  ends_line pre = true ->
  mentions headerMarker (pre ++ body) = false ->
  forallb dot hline = true ->
  occurs_in_line headerMarker hline = true ->
  brk1 <> [] -> forallb is_crlf brk1 = true ->
  body <> [] -> head_is is_crlf body = false -> last_is is_crlf body = false ->
  brk2 <> [] -> forallb is_crlf brk2 = true ->
  forallb dot fline = true ->
  occurs_in_line footerMarker fline || occurs_where twoMarkers fline = true ->
  stripBoilerplate (pre ++ hline ++ brk1 ++ body ++ brk2 ++ fline) = pre ++ body.
Proof.
  intros Hends Hno Hh Hocc Hb1 Hc1 Hbody Hhead Hlast Hb2 Hc2 Hf Hfoot.
  unfold stripBoilerplate.
  rewrite strip_header_line; try done.
  2: { by apply mentions_app_l in Hno. }
  2: { by rewrite head_is_app. }
  rewrite strip_header_nothing; try done.
  2: { by apply mentions_app_r in Hno. }
  rewrite (app_assoc pre body).
  assert (last_is is_crlf (pre ++ body) = false) as Hlast'
    by (by rewrite last_is_app).
  destruct (occurs_in_line footerMarker fline) eqn:Ho.
  - rewrite (strip_last_line re_footer_end_of (prefix_ci footerMarker)
               exec_footer_end_of); try done.
    by apply footer_END_OF_nothing.
  - rewrite (keep_last_line re_footer_end_of (prefix_ci footerMarker)
               exec_footer_end_of); try done.
    by rewrite (strip_last_line re_footer_END_OF twoMarkers exec_footer_END_OF).
Qed.



Lemma test_from_Bol_later (r0 : regex) (s : jsstring) :
  forall c, test_from (Seq Bol r0) (Some c) s = false.
Proof.
  induction s as [|d s IH]; intros c; cbn [test_from]; unfold exec_at;
    rewrite rmatch_Seq, rmatch_Bol; [done|apply IH].
Qed.

Lemma test_anchored (r0 : regex) (s : jsstring) :
  test (Seq Bol r0) s =
    match rmatch r0 None s Kend with Some _ => true | None => false end.
Proof.
  unfold test. destruct s as [|c s]; cbn [test_from]; unfold exec_at;
    rewrite rmatch_Seq, rmatch_Bol; fold Kend;
    destruct (rmatch r0 None _ Kend); try done.
  apply test_from_Bol_later.
Qed.

Lemma lit_ci_Kend (w : string) prev s :
  rmatch (lit_ci w) prev s Kend =
    if prefix_ci (str w) s then Some (drop (length (str w)) s) else None.
Proof. rewrite rmatch_lit_ci. by apply (match_chars_indep _ _ Some). Qed.


Lemma greedy_class_eol (p : N -> bool) (k : Cont) :
  (forall prev s, k prev s = match s with [] => Some [] | _ :: _ => None end) ->
  forall prev s, greedy_star p k prev s = if forallb p s then Some [] else None.
Proof.
  intros Hk prev s. revert prev. induction s as [|c s IH]; intros prev.
  - cbn. by rewrite Hk.
  - cbn. destruct (p c); cbn.
    + rewrite IH, Hk. by destruct (forallb p s).
    + by rewrite Hk.
Qed.




Lemma digit_is_no_space (c : N) :
  is_digit c = true -> (c =? 46) = false /\ is_white_space c = false.
Proof.
  unfold is_digit, in_range, is_white_space. intros H. bool_to_prop.
  split; [apply N.eqb_neq; lia|].
  bool_false; try (left; apply N.leb_gt; lia); try (right; apply N.leb_gt; lia).
Qed.




(** * The excerpt extractor *)

Lemma length_str_dots : length (str "...") = 3%nat.
Proof. reflexivity. Qed.

Lemma ensureLength_bound lines startIndex excerpt :
  (length (ensureLength lines startIndex excerpt) <= 500)%nat.
Proof.
  unfold ensureLength, substring, slice.
  destruct (Nat.ltb_spec 500 (length excerpt)).
  - rewrite length_app, length_take, length_str_dots. lia.
  - destruct (_ && _).
    + rewrite length_app, length_take, length_str_dots. lia.
    + lia.
Qed.

(** C5: the output of the extractor is never empty and never longer than
    500 code units. A cleaned excerpt of more than 500 code units is cut to
    its first 497 and an ellipsis; a cleaned excerpt of fewer than 100 code
    units with lines left after the ten taken gets the next ten lines
    appended after a space and is cut to 497 code units and an ellipsis;
    otherwise the cleaned excerpt is returned as it is, and the fixed
    placeholder if it is empty. *)
Theorem excerpt_length_policy (fullText bookTitle : jsstring) :
  let lines := nonBlankLines (stripBoilerplate fullText) in
  let startIndex := startIndexOf lines in
  let cleaned :=
    cleanUp (trim (join (str " ") (slice startIndex (startIndex + 10) lines))) in
  let more := trim (join (str " ") (slice (startIndex + 10) (startIndex + 20) lines)) in
  let excerpt := extractCleanExcerpt fullText bookTitle in
  (1 <= length excerpt <= 500)%nat
  /\ ((500 < length cleaned)%nat ->
      excerpt = take 497 cleaned ++ str "..." /\ length excerpt = 500%nat)
  /\ ((length cleaned < 100)%nat -> (startIndex + 10 < length lines)%nat ->
      excerpt = take 497 (cleaned ++ str " " ++ more) ++ str "...")
  /\ (cleaned <> [] -> (length cleaned <= 500)%nat ->
      (100 <= length cleaned)%nat \/ (length lines <= startIndex + 10)%nat ->
      excerpt = cleaned)
  /\ (cleaned = [] -> (length lines <= startIndex + 10)%nat -> excerpt = placeholder).
Proof.
  intros lines startIndex cleaned more excerpt.
  assert (Hex : excerpt =
                match ensureLength lines startIndex cleaned with
                | [] => placeholder
                | _ :: _ => ensureLength lines startIndex cleaned
                end) by reflexivity.
  assert (Hdots : forall s : jsstring, s ++ str "..." <> []).
  { intros s Hs. apply (f_equal length) in Hs. rewrite length_app in Hs. cbn in Hs. lia. }
  split; [|split; [|split; [|split]]].
  - rewrite Hex. pose proof (ensureLength_bound lines startIndex cleaned) as Hb.
    destruct (ensureLength lines startIndex cleaned) eqn:He.
    + vm_compute. lia.
    + cbn in *. lia.
  - intros Hlong. rewrite Hex. unfold ensureLength, substring, slice.
    apply Nat.ltb_lt in Hlong as Hlong'. rewrite Hlong'.
    replace (497 - 0)%nat with 497%nat by lia. rewrite drop_0.
    destruct (take 497 cleaned ++ str "...") eqn:He; [by apply Hdots in He|].
    rewrite <- He. split; [done|].
    rewrite length_app, length_take, length_str_dots. lia.
  - intros Hshort Hmore. rewrite Hex. unfold ensureLength, substring, slice.
    assert ((500 <? length cleaned)%nat = false) as -> by (apply Nat.ltb_ge; lia).
    apply Nat.ltb_lt in Hshort as ->. apply Nat.ltb_lt in Hmore as ->.
    cbn [andb]. replace (497 - 0)%nat with 497%nat by lia. rewrite drop_0.
    destruct (take 497 _ ++ str "...") eqn:He; [by apply Hdots in He|].
    done.
  - intros Hne Hle Hcase. rewrite Hex. unfold ensureLength.
    assert ((500 <? length cleaned)%nat = false) as -> by (apply Nat.ltb_ge; lia).
    assert ((length cleaned <? 100)%nat && (startIndex + 10 <? length lines)%nat = false)
      as ->.
    { apply andb_false_iff. destruct Hcase; [left|right]; apply Nat.ltb_ge; lia. }
    by destruct cleaned.
  - intros Hnil Hno. rewrite Hex. unfold ensureLength. rewrite Hnil.
    assert ((startIndex + 10 <? length lines)%nat = false) as ->
      by (apply Nat.ltb_ge; lia).
    done.
Qed.

Lemma excerpt_length_policy_witness :
  (1 <= length (extractCleanExcerpt sampleOpening []) <= 500)%nat
  /\ extractCleanExcerpt sampleOpening [] =
     str "It was the best of times, it was the worst of times, it was the age of wisdom second line".
Proof.
  destruct (excerpt_length_policy sampleOpening []) as (Hb & _ & _ & Hmid & _).
  split; [exact Hb|].
  rewrite Hmid.
  - vm_compute. reflexivity.
  - vm_compute. discriminate.
  - vm_compute. lia.
  - right. vm_compute. lia.
Defined.




(** X30: the exact effect of the three replacements: the header pattern
    removes a line that carries the header marker, in any case, and ends
    with a line break, together with its line breaks; the text before
    that line stays and the text after it is treated in the same way.
    Each footer pattern removes the line breaks before the last line of
    the text and that line when it carries the end-of marker of the
    pattern, in any case. For a text made of front matter, a header line,
    a body without the marker and a last line with an end-of marker, the
    step returns the front matter and the body. *)
Theorem boilerplate_stripped_by_lines :
  (forall pre line brk post : jsstring,
      ends_line pre = true ->
      mentions headerMarker pre = false ->
      forallb dot line = true ->
      occurs_in_line headerMarker line = true ->
      brk <> [] -> forallb is_crlf brk = true ->
      head_is is_crlf post = false ->
      replace_all re_header [] (pre ++ line ++ brk ++ post)
      = pre ++ replace_all re_header [] post)
  /\ (forall body brk lastline : jsstring,
        last_is is_crlf body = false ->
        brk <> [] -> forallb is_crlf brk = true ->
        forallb dot lastline = true ->
        occurs_in_line footerMarker lastline = true ->
        replace_all re_footer_end_of [] (body ++ brk ++ lastline) = body)
  /\ (forall body brk lastline : jsstring,
        last_is is_crlf body = false ->
        brk <> [] -> forallb is_crlf brk = true ->
        forallb dot lastline = true ->
        occurs_where twoMarkers lastline = true ->
        replace_all re_footer_END_OF [] (body ++ brk ++ lastline) = body)
  /\ (forall pre hline brk1 body brk2 fline : jsstring,
        ends_line pre = true ->
        mentions headerMarker (pre ++ body) = false ->
        forallb dot hline = true ->
        occurs_in_line headerMarker hline = true ->
        brk1 <> [] -> forallb is_crlf brk1 = true ->
        body <> [] -> head_is is_crlf body = false -> last_is is_crlf body = false ->
        brk2 <> [] -> forallb is_crlf brk2 = true ->
        forallb dot fline = true ->
        occurs_in_line footerMarker fline || occurs_where twoMarkers fline = true ->
        stripBoilerplate (pre ++ hline ++ brk1 ++ body ++ brk2 ++ fline) = pre ++ body).
Proof.
  split_and!.
  - apply strip_header_line.
  - apply (strip_last_line re_footer_end_of (prefix_ci footerMarker) exec_footer_end_of).
  - apply (strip_last_line re_footer_END_OF twoMarkers exec_footer_END_OF).
  - apply strip_marked_text.
Qed.

Lemma boilerplate_stripped_by_lines_witness :
  stripBoilerplate
    ((str "Preface" ++ [10]) ++ str "The Project Gutenberg EBook of X" ++ [10]
     ++ (str "Body text" ++ [10] ++ str "more") ++ [13; 10]
     ++ str "End of Project Gutenberg's X")
  = (str "Preface" ++ [10]) ++ (str "Body text" ++ [10] ++ str "more").
Proof.
  apply (proj2 (proj2 (proj2 boilerplate_stripped_by_lines))); vm_compute; done.
Defined.

(** C6: on a text laid out as the plain-text editions of the catalog are
    (a title line, the licence notice, the start marker, the body, the end
    marker, the closing notice), the step removes the four lines that
    carry the header marker, the end marker among them, and nothing else:
    the notice before the start marker and the text after the end marker
    stay, neither footer pattern matches, and the excerpt the extractor
    returns begins with the licence notice. On a text with front matter
    before the header line and a licence after the end line, both stay. *)
Theorem boilerplate_left_in_catalog_text :
  stripBoilerplate gutenbergText =
    text_of ["This ebook is for the use of anyone anywhere in the United States and";
             "most other parts of the world at no cost and with almost no restrictions";
             "whatsoever. You may copy it, give it away or re-use it under the terms";
             "at www.gutenberg.org."; "";
             "Title: A Tale of Two Cities"; "";
             "It was the best of times, it was the worst of times, it was the age of wisdom,";
             "it was the age of foolishness, it was the epoch of belief."; "";
             "Updated editions will replace the previous one--the old editions will be renamed."]
  /\ replace_all re_footer_END_OF []
       (replace_all re_footer_end_of [] gutenbergText) = gutenbergText
  /\ includes (str "This ebook is for the use of anyone anywhere")
       (stripBoilerplate gutenbergText) = true
  /\ includes (str "Updated editions will replace") (stripBoilerplate gutenbergText) = true
  /\ take 44 (extractCleanExcerpt gutenbergText (str "A Tale of Two Cities"))
     = str "This ebook is for the use of anyone anywhere"
  /\ stripBoilerplate sampleBook = text_of ["Preface"; "Body text"; "License"].
Proof. vm_compute. done. Qed.

(** * The catalog retry loop *)

Lemma num_eqb (a b : nat) : Qeq_bool (num a) (num b) = (a =? b)%nat.
Proof.
  destruct (Nat.eqb_spec a b) as [->|Hne].
  - apply Qeq_bool_refl.
  - destruct (Qeq_bool (num a) (num b)) eqn:Heq; [|done].
    apply Qeq_bool_eq in Heq. unfold num in Heq.
    rewrite inject_Z_injective in Heq. lia.
Qed.

Lemma iterations_num (n : nat) : iterations (num n) = n.
Proof. unfold iterations, num. rewrite Qfloor_Z. lia. Qed.

Lemma searchLoop_S {R E : Type} (get : nat -> R + E) (maxRetries : Q) (n attempt : nat) :
  searchLoop get maxRetries (S n) attempt =
    match get attempt with
    | inl response => ([Request attempt], Returns response)
    | inr error =>
        if Qeq_bool (num attempt) maxRetries then ([Request attempt], Throws error)
        else
          let '(events, outcome) := searchLoop get maxRetries n (S attempt) in
          (Request attempt :: Sleep (timerDuration (2 ^ N.of_nat attempt * 1000)) :: events,
           outcome)
    end.
Proof. reflexivity. Qed.

Lemma searchLoop_all_fail {R E : Type} (get : nat -> R + E) (err : nat -> E)
  (maxRetries : nat) :
  forall n attempt,
    (attempt + n = maxRetries)%nat ->
    (forall k, (attempt <= k <= maxRetries)%nat -> get k = inr (err k)) ->
    searchLoop get (num maxRetries) (S n) attempt =
      (backoffTrace attempt n ++ [Request maxRetries], Throws (err maxRetries)).
Proof.
  induction n as [|n IH]; intros attempt Hsum Hfail.
  - assert (attempt = maxRetries) by lia. subst attempt.
    rewrite searchLoop_S, Hfail by lia. by rewrite num_eqb, Nat.eqb_refl.
  - rewrite searchLoop_S, (Hfail attempt), num_eqb by lia.
    destruct (Nat.eqb_spec attempt maxRetries) as [->|_]; [lia|].
    rewrite (IH (S attempt)) by (try lia; intros; apply Hfail; lia).
    reflexivity.
Qed.

Lemma requests_backoffTrace first count :
  requests (backoffTrace first count) = seq first count.
Proof.
  revert first. induction count as [|n IH]; intros first; [done|].
  cbn. unfold requests, backoffTrace in IH. by rewrite IH.
Qed.

Lemma sleeps_backoffTrace first count :
  sleeps (backoffTrace first count) =
    map (fun attempt => timerDuration (2 ^ N.of_nat attempt * 1000)) (seq first count).
Proof.
  revert first. induction count as [|n IH]; intros first; [done|].
  cbn -[timerDuration]. unfold sleeps, backoffTrace in IH. by rewrite IH.
Qed.

(** Up to attempt 21 the delay is below the limit of the timer. *)
Lemma timerDuration_backoff (attempt : nat) :
  (attempt <= 21)%nat ->
  timerDuration (2 ^ N.of_nat attempt * 1000) = 2 ^ N.of_nat attempt * 1000.
Proof.
  intros Hle. unfold timerDuration, TIMEOUT_MAX.
  assert (1 <= 2 ^ N.of_nat attempt) as Hlo.
  { pose proof (N.pow_nonzero 2 (N.of_nat attempt)). lia. }
  assert (2 ^ N.of_nat attempt <= 2 ^ 21) as Hhi by (apply N.pow_le_mono_r; lia).
  change (2 ^ 21) with 2097152 in Hhi.
  destruct (N.leb_spec 1 (2 ^ N.of_nat attempt * 1000)); [|lia].
  destruct (N.leb_spec (2 ^ N.of_nat attempt * 1000) 2147483647); [done|lia].
Qed.



(** A query with a lone surrogate: the encoding throws before any
    request. *)
Lemma uriUnreserved_ascii (c : N) : uriUnreserved c = true -> c < 128.
Proof.
  unfold uriUnreserved, is_upper, is_lower, is_digit, in_range, one_of.
  cbn [str existsb Ascii.N_of_ascii Ascii.N_of_digits N.add N.mul].
  intros H. repeat (apply orb_true_iff in H as [H|H]); try done;
    repeat match goal with
      | H : _ && _ = true |- _ => apply andb_true_iff in H as [? ?]
      | H : (_ <=? _) = true |- _ => apply N.leb_le in H
      | H : (_ =? _) = true |- _ => apply N.eqb_eq in H
      end; lia.
Qed.

Lemma surrogate_not_ascii (c : N) :
  c < 128 -> is_high_surrogate c = false /\ is_low_surrogate c = false.
Proof.
  intros H. unfold is_high_surrogate, is_low_surrogate, in_range.
  split; apply andb_false_iff; left; apply N.leb_gt; lia.
Qed.

Lemma high_not_low (c : N) : is_high_surrogate c = true -> is_low_surrogate c = false.
Proof.
  unfold is_high_surrogate, is_low_surrogate, in_range.
  intros [_ H]%andb_true_iff. apply N.leb_le in H.
  apply andb_false_iff. left. apply N.leb_gt. lia.
Qed.

Lemma encodeURIComponent_wellFormed (s : jsstring) :
  is_Some (encodeURIComponent s) <-> wellFormed s = true.
Proof.
  assert (forall n s, (length s <= n)%nat ->
                      is_Some (encodeURIComponent s) <-> wellFormed s = true) as Hall.
  { clear s. induction n as [|n IH]; intros [|c rest] Hlen; cbn [length] in Hlen;
      try lia; cbn [encodeURIComponent wellFormed]; try done.
    destruct (uriUnreserved c) eqn:Hu.
    - apply uriUnreserved_ascii, surrogate_not_ascii in Hu as [-> ->].
      cbn [negb andb]. rewrite fmap_is_Some. apply IH. lia.
    - destruct (is_low_surrogate c) eqn:Hlow.
      + destruct (is_high_surrogate c) eqn:Hhigh.
        * apply high_not_low in Hhigh. congruence.
        * cbn. split; [by intros [? ?]|done].
      + destruct (is_high_surrogate c).
        * destruct rest as [|d rest']; [split; [by intros [? ?]|done]|].
          destruct (is_low_surrogate d); cbn [andb].
          -- rewrite fmap_is_Some. apply IH. cbn [length] in Hlen. lia.
          -- split; [by intros [? ?]|done].
        * cbn [negb andb]. rewrite fmap_is_Some. apply IH. lia. }
  apply (Hall (length s)). lia.
Qed.

Lemma search_lone_surrogate {R E : Type} (get : jsstring -> nat -> R + E)
  (searchQuery : jsstring) (maxRetries : Q) :
  wellFormed searchQuery = false ->
  searchGutenbergBooks get searchQuery maxRetries = ([], ThrowsURIError).
Proof.
  intros Hwf. unfold searchGutenbergBooks.
  destruct (encodeURIComponent searchQuery) as [e|] eqn:He; [|done].
  assert (wellFormed searchQuery = true) as Hwf'
    by (apply encodeURIComponent_wellFormed; by rewrite He).
  congruence.
Qed.

(** * The task operations *)

Lemma handleTaskGet_cache (env : Env) (params : option Params.t) (id : ReqId)
  (taskCache : gmap jsstring TelexTask.t) :
  (handleTaskGet env params id taskCache).1 = taskCache.
Proof.
  unfold handleTaskGet.
  destruct (missingId params); [done|].
  destruct (schemas.taskId _); [|done].
  by destruct (TelexTaskStore.getTask _ _).
Qed.

Lemma handleTaskGet_found (env : Env) (params : option Params.t) (id : ReqId)
  (taskCache : gmap jsstring TelexTask.t) (key : jsstring) (task : TelexTask.t) :
  names params key -> taskCache !! key = Some task ->
  handleTaskGet env params id taskCache =
    (taskCache,
     Success (GetResult task (now env 0%nat)
                (elapsedSince (now env 1%nat) (TelexTask.id task))) id).
Proof.
  intros [Hid Hkey] Hget. unfold handleTaskGet, TelexTaskStore.getTask.
  by rewrite Hid, Hkey, Hget.
Qed.

(** C9: [tasks/get] on a stored task leaves the store as it is, so the
    status, artifacts and history of the task are unchanged and no record
    is appended; two calls in a row answer with the same task. *)
Theorem tasks_get_reads_only (env env' : Env) (params : option Params.t) (id : ReqId)
  (taskCache : gmap jsstring TelexTask.t) (key : jsstring) (task : TelexTask.t) :
  names params key ->
  taskCache !! key = Some task ->
  let first := handleTaskGet env params id taskCache in
  let second := handleTaskGet env' params id first.1 in
  first.1 = taskCache /\ second.1 = taskCache
  /\ second.1 !! key = Some task
  /\ responseTask first.2 = Some task
  /\ responseTask second.2 = Some task.
Proof.
  intros Hn Hget first second. subst first second.
  rewrite !handleTaskGet_cache.
  rewrite !(handleTaskGet_found _ _ _ _ key task) by done.
  done.
Qed.

Lemma tasks_get_reads_only_witness :
  let params := paramsFor (Str sampleId) NoConfig in
  let first := handleTaskGet (sampleEnv noGenerate) params (IdNum 1) sampleCache in
  let second := handleTaskGet (sampleEnv noGenerate) params (IdNum 1) first.1 in
  first.1 = sampleCache /\ second.1 = sampleCache
  /\ second.1 !! sampleId = Some sampleTask
  /\ responseTask first.2 = Some sampleTask
  /\ responseTask second.2 = Some sampleTask.
Proof.
  apply (tasks_get_reads_only (sampleEnv noGenerate) (sampleEnv noGenerate)
           (paramsFor (Str sampleId) NoConfig) (IdNum 1) sampleCache sampleId sampleTask).
  - split; vm_compute; reflexivity.
  - vm_compute. reflexivity.
Defined.

Lemma handleTaskCancel_working (env : Env) (params : option Params.t) (id : ReqId)
  (taskCache : gmap jsstring TelexTask.t) (key : jsstring) (task : TelexTask.t) :
  names params key -> taskCache !! key = Some task -> stateOf task = working ->
  handleTaskCancel env params id taskCache =
    (<[key := canceledTask env task]> taskCache,
     Success (CancelResult (canceledTask env task) (now env 3%nat)) id).
Proof.
  intros [Hid Hkey] Hget Hst. unfold handleTaskCancel, TelexTaskStore.getTask.
  rewrite Hid, Hkey, Hget. unfold stateOf in Hst. by rewrite Hst.
Qed.

Lemma handleTaskCancel_terminal (env : Env) (params : option Params.t) (id : ReqId)
  (taskCache : gmap jsstring TelexTask.t) (key : jsstring) (task : TelexTask.t) :
  names params key -> taskCache !! key = Some task -> stateOf task <> working ->
  (handleTaskCancel env params id taskCache).1 = taskCache
  /\ errorCode (handleTaskCancel env params id taskCache).2 = Some (-32002)%Z.
Proof.
  intros [Hid Hkey] Hget Hst. unfold handleTaskCancel, TelexTaskStore.getTask.
  rewrite Hid, Hkey, Hget. unfold stateOf in Hst.
  by destruct (TelexTaskStatus.state _).
Qed.

(** C2: [tasks/cancel] on a stored task in state [working] writes the task
    back in state [canceled] with exactly one record appended to its
    history, and a second cancel is then answered with the error -32002
    and changes nothing; on a stored task in state [completed] or
    [canceled] it is answered with the error -32002 and leaves the store,
    hence the status, artifacts and history of the task, as they are. *)
Theorem cancel_is_one_way (env env' : Env) (params : option Params.t) (id : ReqId)
  (taskCache : gmap jsstring TelexTask.t) (key : jsstring) (task : TelexTask.t) :
  names params key ->
  taskCache !! key = Some task ->
  let first := handleTaskCancel env params id taskCache in
  let second := handleTaskCancel env' params id first.1 in
  match stateOf task with
  | working =>
      exists task',
        first.1 = <[key := task']> taskCache
        /\ responseTask first.2 = Some task'
        /\ stateOf task' = canceled
        /\ (exists record, TelexTask.history task' = TelexTask.history task ++ [record])
        /\ length (TelexTask.history task') = S (length (TelexTask.history task))
        /\ TelexTask.artifacts task' = TelexTask.artifacts task
        /\ errorCode second.2 = Some (-32002)%Z
        /\ second.1 = first.1
  | completed | canceled =>
      first.1 = taskCache
      /\ errorCode first.2 = Some (-32002)%Z
      /\ first.1 !! key = Some task
  end.
Proof.
  intros Hn Hget first second.
  destruct (stateOf task) eqn:Hst.
  - subst first second.
    rewrite (handleTaskCancel_working _ _ _ _ key task) by done. cbn [fst snd].
    exists (canceledTask env task).
    assert (Hget' : (<[key:=canceledTask env task]> taskCache) !! key
                    = Some (canceledTask env task)) by apply lookup_insert_eq.
    destruct (handleTaskCancel_terminal env' params id _ key _ Hn Hget') as [Hc He]; [done|].
    split_and!; try done.
    + by eexists.
    + cbn. rewrite length_app. cbn. lia.
  - subst first second.
    destruct (handleTaskCancel_terminal env params id _ key _ Hn Hget) as [Hc He].
    { by rewrite Hst. }
    rewrite Hc. done.
  - subst first second.
    destruct (handleTaskCancel_terminal env params id _ key _ Hn Hget) as [Hc He].
    { by rewrite Hst. }
    rewrite Hc. done.
Qed.

Lemma cancel_is_one_way_witness :
  let params := paramsFor (Str sampleId) NoConfig in
  let first := handleTaskCancel (sampleEnv noGenerate) params (IdNum 1) sampleCache in
  let second := handleTaskCancel (sampleEnv noGenerate) params (IdNum 2) first.1 in
  exists task',
    first.1 = <[sampleId := task']> sampleCache
    /\ responseTask first.2 = Some task'
    /\ stateOf task' = canceled
    /\ (exists record,
          TelexTask.history task' = TelexTask.history sampleTask ++ [record])
    /\ length (TelexTask.history task') = S (length (TelexTask.history sampleTask))
    /\ TelexTask.artifacts task' = TelexTask.artifacts sampleTask
    /\ errorCode second.2 = Some (-32002)%Z
    /\ second.1 = first.1.
Proof.
  apply (cancel_is_one_way (sampleEnv noGenerate) (sampleEnv noGenerate)
           (paramsFor (Str sampleId) NoConfig) (IdNum 1) sampleCache sampleId sampleTask).
  - split; vm_compute; reflexivity.
  - vm_compute. reflexivity.
Defined.

Lemma set_then_get_returns_config (env env' : Env) (params : option Params.t)
  (id id' : ReqId) (taskCache : gmap jsstring TelexTask.t) (key : jsstring)
  (c : PushNotificationConfig.t) :
  responseConfig (handleSetTaskPushNotificationConfig env params id taskCache).2 = Some c ->
  names params key ->
  responseConfig
    (handleGetTaskPushNotificationConfig env' params id'
       (handleSetTaskPushNotificationConfig env params id taskCache).1).2 = Some c.
Proof.
  intros Hset [Hid Hkey]. revert Hset.
  unfold handleSetTaskPushNotificationConfig, handleGetTaskPushNotificationConfig.
  rewrite Hid, Hkey.
  destruct params as [p|]; [|done]. cbn [idOf].
  destruct (Params.pushNotificationConfig p) eqn:Hc; [done| |].
  - cbn. done.
  - destruct (schemas.pushNotificationConfig _ _) as [[c'|]|]; [|done|done].
    unfold TelexTaskStore.getTask, TelexTaskStore.updateTask.
    destruct (taskCache !! key) as [task|] eqn:Hget; [|done].
    destruct (_ && _); [done|]. cbn [fst snd responseConfig].
    intros [= ->]. by rewrite lookup_insert_eq.
Qed.

(** C1: a config set on a stored task with a bearer token comes back from
    [tasks/getPushNotificationConfig] with the url that was set, and both
    the answer to the set and the answer to the get carry the token as it
    was given. *)
Theorem push_config_token_is_echoed :
  let params := paramsFor (Str sampleId) (Config sampleConfig) in
  let set :=
    handleSetTaskPushNotificationConfig (sampleEnv noGenerate) params (IdNum 1)
      sampleCache in
  let get :=
    handleGetTaskPushNotificationConfig (sampleEnv noGenerate) params (IdNum 2) set.1 in
  (PushNotificationConfig.url <$> responseConfig get.2)
  = Some (Some (str "https://example.com/webhook"))
  /\ tokensIn set.2 = [str "test-token"; str "test-token"]
  /\ tokensIn get.2 = [str "test-token"].
Proof. vm_compute. done. Qed.

Lemma createTask_fresh clock rnd q m sid task :
  createTask clock rnd q m sid = Ok task ->
  stateOf task = working /\ TelexTask.artifacts task = []
  /\ length (TelexTask.history task) = 1%nat.
Proof.
  unfold createTask. destruct (negb _); [done|].
  destruct (truthy sid).
  - destruct (sanitizeString sid) as [[|c v]|]; cbn; try done.
    intros [= <-]. done.
  - cbn. intros [= <-]. done.
Qed.

Lemma handleMessageSend_resolved (env : Env) (params : Params.t) (id : ReqId)
  (taskCache : gmap jsstring TelexTask.t) message searchQuery task result :
  accepted env params message searchQuery task ->
  generate env (extractionPrompt searchQuery) = Resolved result ->
  (handleMessageSend env (Some params) id taskCache).1 =
    (completeTask (fun k => now env (3 + k)%nat) task result
       (TelexTaskStore.createTask task taskCache)).1.
Proof.
  intros (Hm & Hq & Ht) Hg. unfold handleMessageSend.
  rewrite Hm, Hq, Ht, Hg. done.
Qed.

Lemma handleMessageSend_rejected (env : Env) (params : Params.t) (id : ReqId)
  (taskCache : gmap jsstring TelexTask.t) message searchQuery task error :
  accepted env params message searchQuery task ->
  generate env (extractionPrompt searchQuery) = Rejected error ->
  (handleMessageSend env (Some params) id taskCache).1 =
    TelexTaskStore.createTask task taskCache
  /\ exists e, (handleMessageSend env (Some params) id taskCache).2 = Failure e.
Proof.
  intros (Hm & Hq & Ht) Hg. unfold handleMessageSend.
  rewrite Hm, Hq, Ht, Hg.
  destruct (isRequestTimeout error); [by eauto|].
  destruct error; by eauto.
Qed.

Lemma insert_keeps_artifacts (taskCache : gmap jsstring TelexTask.t) k t t0 key task' :
  taskCache !! k = Some t0 -> TelexTask.artifacts t = TelexTask.artifacts t0 ->
  <[k := t]> taskCache !! key = Some task' ->
  exists task, taskCache !! key = Some task
               /\ TelexTask.artifacts task' = TelexTask.artifacts task.
Proof.
  intros Hk Ha. destruct (decide (k = key)) as [->|Hne].
  - rewrite lookup_insert_eq. intros [= <-]. eauto.
  - rewrite lookup_insert_ne by done. eauto.
Qed.

Lemma task_operations_keep_artifacts (env : Env) :
  keepsArtifacts (handleTaskGet env)
  /\ keepsArtifacts (handleTaskCancel env)
  /\ keepsArtifacts (handleSetTaskPushNotificationConfig env)
  /\ keepsArtifacts (handleGetTaskPushNotificationConfig env)
  /\ keepsArtifacts (handleTaskResubscribe env).
Proof.
  unfold keepsArtifacts. split_and!; intros params id taskCache key task'.
  - unfold handleTaskGet. destruct (missingId _); [by eauto|].
    destruct (schemas.taskId _); [|by eauto].
    destruct (TelexTaskStore.getTask _ _); by eauto.
  - unfold handleTaskCancel. destruct (missingId _); [by eauto|].
    destruct (schemas.taskId _) as [k|]; [|by eauto].
    unfold TelexTaskStore.getTask, TelexTaskStore.updateTask.
    destruct (taskCache !! k) as [t0|] eqn:Hk; [|by eauto].
    destruct (TelexTaskStatus.state _); [|by eauto..].
    cbn [fst]. by apply insert_keeps_artifacts with (t0 := t0).
  - unfold handleSetTaskPushNotificationConfig. destruct (missingId _); [by eauto|].
    destruct (match params with Some p => _ | None => _ end); [by eauto| |].
    + destruct (schemas.taskId _) as [k|]; [|by eauto]. cbn. by eauto.
    + destruct (schemas.taskId _) as [k|]; [|by eauto].
      destruct (schemas.pushNotificationConfig _ _) as [[c'|]|]; [|by eauto..].
      unfold TelexTaskStore.getTask, TelexTaskStore.updateTask.
      destruct (taskCache !! k) as [t0|] eqn:Hk; [|by eauto].
      destruct (_ && _); [by eauto|].
      cbn [fst]. by apply insert_keeps_artifacts with (t0 := t0).
  - unfold handleGetTaskPushNotificationConfig. destruct (missingId _); [by eauto|].
    destruct (schemas.taskId _); [|by eauto].
    destruct (TelexTaskStore.getTask _ _); by eauto.
  - unfold handleTaskResubscribe. destruct (missingId _); [by eauto|].
    destruct (schemas.taskId _) as [k|]; [|by eauto].
    unfold TelexTaskStore.getTask, TelexTaskStore.updateTask.
    destruct (taskCache !! k) as [t0|] eqn:Hk; [|by eauto].
    cbn [fst]. by apply insert_keeps_artifacts with (t0 := t0).
Qed.

Lemma sendStreamData_end_throws (res : Response.t) (d : TelexResponse) :
  Response.end_throws (sendStreamData res d) = Response.end_throws res.
Proof. unfold sendStreamData. by destruct (Response.write_throws res). Qed.

Lemma handleMessageStream_store (env : Env) (params : Params.t) (id : ReqId)
  (res : Response.t) (taskCache : gmap jsstring TelexTask.t) message searchQuery task :
  accepted env params message searchQuery task ->
  (handleMessageStream env (Some params) id res taskCache).1.1 =
    match Response.writeHead_throws res with
    | Some _ => taskCache
    | None =>
        match generate env (extractionPrompt searchQuery) with
        | Rejected _ => TelexTaskStore.createTask task taskCache
        | Resolved result =>
            let done :=
              completeTask (fun k => now env (6 + k)%nat) task result
                (TelexTaskStore.createTask task taskCache) in
            match Response.end_throws res with
            | None => done.1
            | Some error => cancelAfterError (now env 12%nat) error done.2 done.1
            end
        end
    end.
Proof.
  intros (Hm & Hq & Ht).
  assert (Params.message params <> NoMessage) as Hnm.
  { intros Heq. by rewrite Heq in Hm. }
  unfold handleMessageStream, handleMessageStream_try.
  rewrite Hm. unfold writeHead.
  destruct (Response.writeHead_throws res) as [e|] eqn:Hhead.
  - destruct (Params.message params); [done|..];
      cbn [try_end try_task try_cache]; destruct (endResponse _); reflexivity.
  - rewrite Hq, Ht. set (res0 := Response.mk _ _ _ _ _ _).
    assert (Response.end_throws res0 = Response.end_throws res) as Hend0 by done.
    clearbody res0.
    destruct (generate env _) as [result|error].
    + destruct (completeTask _ task result _) as [cache' task'] eqn:Hdone.
      cbv zeta.
      set (r6 := sendStreamData _ (Success (StreamStatus _ _ _) id)).
      assert (Response.end_throws r6 = Response.end_throws res) as Hend6.
      { unfold r6. by rewrite !sendStreamData_end_throws. }
      clearbody r6.
      destruct (endResponse r6) as [r7|e] eqn:He6; unfold endResponse in He6;
        rewrite Hend6 in He6;
        destruct (Response.end_throws res) as [e'|] eqn:Hend; try done.
      * destruct (Params.message params); [done|..]; reflexivity.
      * injection He6 as ->.
        destruct (Params.message params); [done|..];
          cbn [try_end try_task try_cache try_ticks fst snd];
          destruct (endResponse _); reflexivity.
    + destruct (Params.message params); [done|..]; reflexivity.
Qed.

Lemma handleMessageSend_store (env : Env) (params : Params.t) (id : ReqId)
  (taskCache : gmap jsstring TelexTask.t) message searchQuery task :
  accepted env params message searchQuery task ->
  (handleMessageSend env (Some params) id taskCache).1 =
    match generate env (extractionPrompt searchQuery) with
    | Rejected _ => TelexTaskStore.createTask task taskCache
    | Resolved result =>
        (completeTask (fun k => now env (3 + k)%nat) task result
           (TelexTaskStore.createTask task taskCache)).1
    end.
Proof.
  intros Hacc. destruct (generate env _) as [result|error] eqn:Hg.
  - exact (handleMessageSend_resolved _ _ id taskCache _ _ _ _ Hacc Hg).
  - exact (proj1 (handleMessageSend_rejected _ _ id taskCache _ _ _ _ Hacc Hg)).
Qed.

(** C3 (amended): the task that [message/send] or [message/stream]
    creates has no artifact. When the extraction call resolves, with a
    book or with a result of the error shape alike, [message/send] stores
    the task in state [completed] with exactly one artifact, which carries
    that result, and so does [message/stream] on every response object
    whose [writeHead] does not throw (the task is [completed], or
    [canceled] when the last [res.end()] throws, and keeps that one
    artifact). When the extraction call rejects, both store the task as it
    was created, without an artifact. When [writeHead] throws,
    [message/stream] leaves the store as it is. Neither request changes a
    task stored under another id, and the operations on an existing task
    leave the artifacts of every stored task as they are. *)
Theorem artifacts_set_by_completion (env : Env) (params : Params.t) (id : ReqId)
  (res : Response.t) (taskCache : gmap jsstring TelexTask.t) (message : TelexMessage.t)
  (searchQuery : jsstring) (task : TelexTask.t) :
  accepted env params message searchQuery task ->
  let sent := (handleMessageSend env (Some params) id taskCache).1 in
  let streamed := (handleMessageStream env (Some params) id res taskCache).1.1 in
  (TelexTask.artifacts task = [] /\ stateOf task = working)
  /\ match generate env (extractionPrompt searchQuery) with
     | Resolved result =>
         (exists task',
            sent !! TelexTask.id task = Some task'
            /\ stateOf task' = completed
            /\ length (TelexTask.artifacts task') = 1%nat
            /\ TelexArtifact.data <$> TelexTask.artifacts task' = [result])
         /\ (Response.writeHead_throws res = None ->
             exists task',
               streamed !! TelexTask.id task = Some task'
               /\ stateOf task' =
                  match Response.end_throws res with
                  | None => completed
                  | Some _ => canceled
                  end
               /\ length (TelexTask.artifacts task') = 1%nat
               /\ TelexArtifact.data <$> TelexTask.artifacts task' = [result])
     | Rejected _ =>
         sent !! TelexTask.id task = Some task
         /\ (Response.writeHead_throws res = None ->
             streamed !! TelexTask.id task = Some task)
     end
  /\ (Response.writeHead_throws res <> None -> streamed = taskCache)
  /\ (forall key, key <> TelexTask.id task ->
        sent !! key = taskCache !! key /\ streamed !! key = taskCache !! key)
  /\ keepsArtifacts (handleTaskGet env)
  /\ keepsArtifacts (handleTaskCancel env)
  /\ keepsArtifacts (handleSetTaskPushNotificationConfig env)
  /\ keepsArtifacts (handleGetTaskPushNotificationConfig env)
  /\ keepsArtifacts (handleTaskResubscribe env).
Proof.
  intros Hacc sent streamed.
  pose proof Hacc as (_ & _ & Hcreate).
  apply createTask_fresh in Hcreate as (Hw & Hart & _).
  pose proof (handleMessageSend_store env params id taskCache _ _ _ Hacc) as Hsent.
  pose proof (handleMessageStream_store env params id res taskCache _ _ _ Hacc) as Hstr.
  fold sent in Hsent. fold streamed in Hstr. clearbody sent streamed.
  unfold completeTask, cancelAfterError, TelexTaskStore.updateTask,
    TelexTaskStore.createTask in Hsent, Hstr.
  cbn [fst snd TelexTask.id] in Hsent, Hstr.
  split; [done|]. split; [|split; [|split; [|apply task_operations_keep_artifacts]]].
  - destruct (generate env _) as [result|error].
    + split.
      * rewrite Hsent, lookup_insert_eq. by eexists.
      * intros Hhead. rewrite Hhead in Hstr.
        destruct (Response.end_throws res);
          rewrite Hstr, lookup_insert_eq; by eexists.
    + split.
      * by rewrite Hsent, lookup_insert_eq.
      * intros Hhead. rewrite Hhead in Hstr. by rewrite Hstr, lookup_insert_eq.
  - intros Hhead. by destruct (Response.writeHead_throws res).
  - intros key Hkey. split.
    + rewrite Hsent. destruct (generate env _);
        by rewrite !lookup_insert_ne.
    + rewrite Hstr. destruct (Response.writeHead_throws res); [done|].
      destruct (generate env _); [|by rewrite !lookup_insert_ne].
      destruct (Response.end_throws res); by rewrite !lookup_insert_ne.
Qed.

Lemma artifacts_set_by_completion_witness :
  let env := sampleEnv (fun _ => Rejected (Error (str "Request timeout"))) in
  let sent :=
    (handleMessageSend env (Some (sendParams "Sherlock Holmes")) (IdNum 1) ∅).1 in
  let streamed :=
    (handleMessageStream env (Some (sendParams "Sherlock Holmes")) (IdNum 1)
       freshResponse ∅).1.1 in
  TelexTask.artifacts sampleTask = []
  /\ sent !! sampleId = Some sampleTask
  /\ streamed !! sampleId = Some sampleTask.
Proof.
  intros env sent streamed.
  destruct (artifacts_set_by_completion env (sendParams "Sherlock Holmes") (IdNum 1)
              freshResponse ∅
              (textMessage user (str "Sherlock Holmes")) (str "Sherlock Holmes")
              sampleTask) as ([H1 _] & [H2 H3] & _).
  - split_and!; vm_compute; reflexivity.
  - split; [exact H1|]. split; [exact H2|]. apply H3. reflexivity.
Defined.

(** The tool answers a search that finds nothing with its failure outcome,
    after one request and without throwing. *)
Lemma execute_no_results (get : jsstring -> nat -> SearchResponse + Thrown)
  (fetch : jsstring -> unknown + Thrown) (URL_parses : jsstring -> bool)
  (searchQuery encodedQuery : jsstring) :
  trim searchQuery <> [] ->
  BookAgent.encodeURIComponent searchQuery = Some encodedQuery ->
  get (BookAgent.searchUrl encodedQuery) 1%nat = inl (Results []) ->
  BookTool.execute get fetch URL_parses searchQuery
  = ([BookAgent.Request 1], noBooksFound).
Proof.
  intros Hq Henc Hget. unfold BookTool.execute.
  destruct (trim searchQuery) as [|c q] eqn:Ht; [done|]. cbn [length Nat.eqb].
  unfold BookAgent.searchGutenbergBooks. rewrite Henc.
  change (BookAgent.iterations BookAgent.defaultMaxRetries) with 3%nat.
  cbn [BookAgent.searchLoop]. rewrite Hget. reflexivity.
Qed.

Lemma artifact_attached_to_failure_outcome :
  let env := sampleEnv (fun _ => Resolved (Obj noBooksFound)) in
  let after :=
    (handleMessageSend env (Some (sendParams "zzzzz-nonexistent-book-zzzzz"))
       (IdNum 1) ∅).1 in
  (BookTool.execute emptyCatalog (fun _ => inl Undefined) (fun _ => true)
     (str "zzzzz-nonexistent-book-zzzzz")).2 = noBooksFound
  /\ generate env (extractionPrompt (str "zzzzz-nonexistent-book-zzzzz"))
  = Resolved (Obj noBooksFound)
  /\ isFailureOutcome (Obj noBooksFound) = true
  /\ (stateOf <$> after !! sampleId) = Some completed
  /\ ((fun t => TelexArtifact.data <$> TelexTask.artifacts t) <$> after !! sampleId)
     = Some [Obj noBooksFound].
Proof. vm_compute. done. Qed.

Lemma sendStreamData_ok (res : Response.t) (d : TelexResponse) :
  Response.write_throws res = None ->
  Response.write_throws (sendStreamData res d) = None
  /\ Response.frames (sendStreamData res d) = Response.frames res ++ [d]
  /\ Response.ended (sendStreamData res d) = Response.ended res.
Proof. intros H. unfold sendStreamData. by rewrite H. Qed.

Lemma streamExtractionFailed_ok (res : Response.t) (id : ReqId) (error : Thrown) :
  Response.write_throws res = None ->
  exists failure,
    Response.frames (streamExtractionFailed res id error)
      = Response.frames res ++ [Failure failure]
    /\ Response.ended (streamExtractionFailed res id error) = Response.ended res.
Proof.
  intros H. unfold streamExtractionFailed, sendStreamError.
  destruct (isRequestTimeout error); [|destruct error];
    eexists; split;
    first [apply (sendStreamData_ok res (Failure _) H) | reflexivity].
Qed.

(** What [message/stream] does when the extraction call rejects after the
    task was created, on a response object whose methods do not throw:
    three frames, the last one an error, the task stored as created, the
    stream not ended. *)
Lemma stream_extraction_rejected (env : Env) (params : Params.t) (id : ReqId)
  (res : Response.t) (taskCache : gmap jsstring TelexTask.t) message searchQuery task error :
  Response.writeHead_throws res = None ->
  Response.write_throws res = None ->
  accepted env params message searchQuery task ->
  generate env (extractionPrompt searchQuery) = Rejected error ->
  exists res' failure,
    handleMessageStream env (Some params) id res taskCache =
      (<[TelexTask.id task := task]> taskCache, res', Ok ())
    /\ stateOf task = working
    /\ Response.ended res' = Response.ended res
    /\ Response.frames res' =
         Response.frames res ++
         [Success (StreamTask task (str "started") (now env 3%nat)) id;
          Success (StreamProgress (TelexTask.id task) (str "searching")
                     (str "Searching for books...") (now env 4%nat)) id;
          Failure failure].
Proof.
  intros Hhead Hwrite (Hm & Hq & Ht) Hg.
  pose proof (createTask_fresh _ _ _ _ _ _ Ht) as (Hw & _).
  unfold handleMessageStream, handleMessageStream_try.
  assert (Params.message params <> NoMessage) as Hnm.
  { intros Heq. by rewrite Heq in Hm. }
  rewrite Hm. unfold writeHead. rewrite Hhead, Hq, Ht, Hg.
  set (res0 := Response.mk _ _ _ _ _ _).
  assert (Response.write_throws res0 = None) as H0 by done.
  destruct (sendStreamData_ok res0
              (Success (StreamTask task (str "started") (now env 3%nat)) id) H0)
    as (H1 & Hf1 & He1).
  destruct (sendStreamData_ok _
              (Success (StreamProgress (TelexTask.id task) (str "searching")
                          (str "Searching for books...") (now env 4%nat)) id) H1)
    as (H2 & Hf2 & He2).
  destruct (streamExtractionFailed_ok _ id error H2) as (failure & Hf3 & He3).
  destruct (Params.message params); [done|..];
    cbn [try_end try_cache try_res]; eexists _, failure;
    (split; [reflexivity|]); rewrite He3, He2, He1, Hf3, Hf2, Hf1;
    cbn; rewrite <- !app_assoc; done.
Qed.

(** C4: a [message/stream] request whose extraction times out after the
    task was created gets one error frame, with code -32603, after the two
    progress frames; the task stays stored in state [working] and the
    stream is not ended. *)
Theorem stream_failure_leaves_task_working :
  let env := sampleEnv (fun _ => Rejected (Error (str "Request timeout"))) in
  let '(taskCache, res, finished) :=
    handleMessageStream env (Some (sendParams "Sherlock Holmes")) (IdNum 1)
      freshResponse ∅ in
  finished = Ok ()
  /\ (stateOf <$> taskCache !! sampleId) = Some working
  /\ errorCode <$> Response.frames res = [None; None; Some (-32603)%Z]
  /\ Response.ended res = false.
Proof. vm_compute. done. Qed.

(** * The task id *)
Lemma task_id_char_not_white_space c :
  is_task_id_char c = true -> is_white_space c = false.
Proof.
  unfold is_task_id_char, is_lower, is_upper, is_digit, in_range, is_white_space.
  intros H. bool_to_prop; bool_false;
    try (left; apply N.leb_gt; lia); try (right; apply N.leb_gt; lia).
Qed.

Lemma task_id_char_not_control c :
  is_task_id_char c = true -> is_control c = false.
Proof.
  unfold is_task_id_char, is_lower, is_upper, is_digit, is_control, in_range.
  intros H. bool_to_prop; bool_false;
    try (left; apply N.leb_gt; lia); try (right; apply N.leb_gt; lia).
Qed.

Lemma trimStart_white (ws s : jsstring) :
  Forall (fun c => is_white_space c = true) ws -> trimStart (ws ++ s) = trimStart s.
Proof. induction 1 as [|c ws Hc _ IH]; [done|]. cbn. by rewrite Hc. Qed.

Lemma trimStart_head (c : N) (s : jsstring) :
  is_white_space c = false -> trimStart (c :: s) = c :: s.
Proof. intros H. cbn. by rewrite H. Qed.

Lemma trim_around (ws1 ws2 key : jsstring) :
  Forall (fun c => is_white_space c = true) ws1 ->
  Forall (fun c => is_white_space c = true) ws2 ->
  key <> [] ->
  Forall (fun c => is_white_space c = false) key ->
  trim (ws1 ++ key ++ ws2) = key.
Proof.
  intros H1 H2 Hne Hkey. unfold trim, trimEnd.
  rewrite trimStart_white by done.
  destruct key as [|c key']; [done|].
  rewrite <- app_comm_cons, trimStart_head by (by inversion Hkey).
  rewrite app_comm_cons, rev_app_distr.
  rewrite trimStart_white by (by apply Forall_rev).
  destruct (rev (c :: key')) as [|d r] eqn:Hrev.
  { apply (f_equal (@length N)) in Hrev. rewrite length_rev in Hrev. done. }
  rewrite trimStart_head.
  - by rewrite <- Hrev, rev_involutive.
  - assert (d ∈ c :: key') as Hd.
    { apply list_elem_of_In, in_rev. rewrite Hrev. by left. }
    by eapply Forall_forall in Hkey.
Qed.

Lemma forallb_true_Forall {A} (f : A -> bool) (l : list A) :
  forallb f l = true -> Forall (fun x => f x = true) l.
Proof.
  induction l as [|x l IH]; cbn; [done|]. intros H.
  apply andb_true_iff in H as [Hx Hl]. constructor; [done|by apply IH].
Qed.

Lemma filter_stripped_white (l : jsstring) :
  forallb stripped l = true ->
  Forall (fun c => is_white_space c = true)
    (List.filter (fun c => negb (is_control c)) l).
Proof.
  intros H. apply forallb_true_Forall in H.
  induction H as [|c l Hc _ IH]; [done|]. cbn.
  destruct (is_control c) eqn:Hctl; cbn; [done|].
  constructor; [|done]. unfold stripped in Hc. rewrite Hctl in Hc.
  by rewrite orb_false_r in Hc.
Qed.

Lemma sanitizeString_strips (raw key : jsstring) :
  wellFormedTaskId key -> differsByStripped raw key ->
  sanitizeString (Str raw) = Ok key.
Proof.
  intros [Hne Hkey] (pre & mid & post & -> & Hpre & Hpost & Hmid).
  unfold sanitizeString, re_control. rewrite replace_all_chr.
  rewrite !List.filter_app, Hmid. f_equal.
  apply trim_around; try done; try by apply filter_stripped_white.
  eapply Forall_impl; [exact (forallb_true_Forall _ _ Hkey)|].
  apply task_id_char_not_white_space.
Qed.

Lemma greedy_star_all (p : N -> bool) (k : Cont) (r : jsstring) :
  forall s prev,
    Forall (fun c => p c = true) s ->
    (forall prev', k prev' [] = Some r) ->
    greedy_star p k prev s = Some r.
Proof.
  induction s as [|c s IH]; intros prev Hall Hk; [apply Hk|].
  inversion Hall as [|? ? Hc Hs]; subst. cbn. rewrite Hc.
  by rewrite (IH (Some c) Hs Hk).
Qed.

Lemma test_re_task_id (key : jsstring) :
  wellFormedTaskId key -> test re_task_id key = true.
Proof.
  intros [Hne Hkey]. destruct key as [|c key]; [done|].
  apply forallb_true_Forall in Hkey.
  inversion Hkey as [|? ? Hc Hrest]; subst.
  unfold test, re_task_id. cbn [test_from seq_of]. unfold exec_at.
  rewrite rmatch_Seq, rmatch_Bol, rmatch_Seq, rmatch_Plus_chr, Hc, rmatch_star_greedy.
  by rewrite (greedy_star_all _ _ [] key (Some c) Hrest).
Qed.

Lemma differsByStripped_nonempty (raw key : jsstring) :
  key <> [] -> differsByStripped raw key -> raw <> [].
Proof.
  intros Hne (pre & mid & post & -> & _ & _ & Hmid) Hnil.
  apply app_eq_nil in Hnil as [_ Hnil]. apply app_eq_nil in Hnil as [-> _].
  by cbn in Hmid.
Qed.

Lemma taskId_accepts (raw key : jsstring) :
  wellFormedTaskId key -> differsByStripped raw key ->
  schemas.taskId (Str raw) = Ok key.
Proof.
  intros Hwf Hd. pose proof Hwf as [Hne Hkey].
  pose proof (differsByStripped_nonempty raw key Hne Hd) as Hraw.
  unfold schemas.taskId. destruct raw as [|c raw]; [done|].
  unfold validateTaskId. rewrite (sanitizeString_strips _ key Hwf Hd).
  destruct key as [|k key]; [done|]. cbn -[test re_task_id].
  by rewrite (test_re_task_id (k :: key) Hwf).
Qed.

Lemma differsByStripped_refl (key : jsstring) :
  wellFormedTaskId key -> differsByStripped key key.
Proof.
  intros [_ Hkey]. exists [], key, []. rewrite app_nil_r. split_and!; try done.
  apply forallb_true_Forall in Hkey.
  induction Hkey as [|c key Hc _ IH]; [done|]. cbn.
  by rewrite (task_id_char_not_control c Hc), IH.
Qed.

Lemma names_withId (p : Params.t) (raw key : jsstring) :
  wellFormedTaskId key -> differsByStripped raw key ->
  names (withId p (Str raw)) key.
Proof.
  intros Hwf Hd. split; [|by apply taskId_accepts].
  cbn. destruct raw; [|done].
  by destruct (differsByStripped_nonempty [] key (proj1 Hwf) Hd).
Qed.

(** C10 (amended): the task id of a request is first stripped of the
    control characters U+0000 to U+0008, U+000B, U+000C, U+000E to U+001F
    and U+007F, wherever they stand, and of the white space at its ends,
    and the format check is applied to what is left; so an id that differs
    from a stored, well-formed id only in this way passes the check and
    each of the five task operations treats it as the stored id. *)
Theorem task_id_is_sanitized_first (env : Env) (p : Params.t) (id : ReqId)
  (taskCache : gmap jsstring TelexTask.t) (raw key : jsstring) (task : TelexTask.t) :
  wellFormedTaskId key ->
  differsByStripped raw key ->
  taskCache !! key = Some task ->
  schemas.taskId (Str raw) = Ok key
  /\ responseTask (handleTaskGet env (withId p (Str raw)) id taskCache).2 = Some task
  /\ handleTaskGet env (withId p (Str raw)) id taskCache
     = handleTaskGet env (withId p (Str key)) id taskCache
  /\ handleTaskCancel env (withId p (Str raw)) id taskCache
     = handleTaskCancel env (withId p (Str key)) id taskCache
  /\ handleSetTaskPushNotificationConfig env (withId p (Str raw)) id taskCache
     = handleSetTaskPushNotificationConfig env (withId p (Str key)) id taskCache
  /\ handleGetTaskPushNotificationConfig env (withId p (Str raw)) id taskCache
     = handleGetTaskPushNotificationConfig env (withId p (Str key)) id taskCache
  /\ handleTaskResubscribe env (withId p (Str raw)) id taskCache
     = handleTaskResubscribe env (withId p (Str key)) id taskCache.
Proof.
  intros Hwf Hd Hget.
  destruct (names_withId p raw key Hwf Hd) as [Hm Hk].
  destruct (names_withId p key key Hwf (differsByStripped_refl key Hwf)) as [Hm' Hk'].
  split; [by apply taskId_accepts|].
  unfold handleTaskGet, handleTaskCancel, handleSetTaskPushNotificationConfig,
    handleGetTaskPushNotificationConfig, handleTaskResubscribe.
  rewrite Hm, Hm', Hk, Hk'. unfold TelexTaskStore.getTask. rewrite Hget.
  split_and!; done.
Qed.


Lemma task_id_is_sanitized_first_witness :
  schemas.taskId (Str idWithNoise) = Ok sampleId
  /\ responseTask
       (handleTaskGet (sampleEnv noGenerate) (paramsFor (Str idWithNoise) NoConfig)
          (IdNum 1) sampleCache).2
     = Some sampleTask.
Proof.
  destruct (task_id_is_sanitized_first (sampleEnv noGenerate)
              {| Params.id := Undefined; Params.message := NoMessage;
                 Params.sessionId := Undefined;
                 Params.pushNotificationConfig := NoConfig |}
              (IdNum 1) sampleCache idWithNoise sampleId sampleTask)
    as (H1 & H2 & _).
  - split; vm_compute; [discriminate|reflexivity].
  - exists [32], (take 4 sampleId ++ [0] ++ drop 4 sampleId), [32; 10].
    split_and!; vm_compute; reflexivity.
  - vm_compute. reflexivity.
  - split; [exact H1|exact H2].
Defined.

Lemma embedded_tab_is_rejected :
  List.filter (fun c => negb (c =? 9)) idWithTab = sampleId
  /\ sampleCache !! sampleId = Some sampleTask
  /\ errorCode
       (handleTaskGet (sampleEnv noGenerate) (paramsFor (Str idWithTab) NoConfig)
          (IdNum 1) sampleCache).2
     = Some (-32602)%Z
  /\ responseTask
       (handleTaskGet (sampleEnv noGenerate) (paramsFor (Str idWithTab) NoConfig)
          (IdNum 1) sampleCache).2
     = None.
Proof. vm_compute. done. Qed.

(** * The sanitizer, the request check and the query extraction *)

Lemma trimStart_decomp (s : jsstring) :
  exists ws, s = ws ++ trimStart s
    /\ Forall (fun c => is_white_space c = true) ws
    /\ head_is is_white_space (trimStart s) = false.
Proof.
  induction s as [|c s (ws & Hs & Hws & Hh)].
  - by exists [].
  - cbn. destruct (is_white_space c) eqn:Hc.
    + exists (c :: ws). split_and!; [by rewrite Hs at 1|by constructor|done].
    + exists []. split_and!; [done|done|]. cbn. done.
Qed.

Lemma last_is_rev (p : N -> bool) (s : jsstring) : last_is p (rev s) = head_is p s.
Proof.
  unfold last_is, head_is. destruct s as [|c s]; [done|].
  cbn. by rewrite last_snoc.
Qed.

Lemma trimEnd_decomp (s : jsstring) :
  exists ws, s = trimEnd s ++ ws
    /\ Forall (fun c => is_white_space c = true) ws
    /\ last_is is_white_space (trimEnd s) = false.
Proof.
  unfold trimEnd. destruct (trimStart_decomp (rev s)) as (ws & Hs & Hws & Hh).
  exists (rev ws). split_and!.
  - rewrite <- rev_app_distr, <- Hs. by rewrite rev_involutive.
  - by apply Forall_rev.
  - by rewrite last_is_rev.
Qed.

Lemma head_is_prefix (p : N -> bool) (x y : jsstring) :
  head_is p (x ++ y) = false -> head_is p x = false.
Proof. by destruct x. Qed.

Lemma trim_decomp (s : jsstring) :
  exists ws1 ws2, s = ws1 ++ trim s ++ ws2
    /\ Forall (fun c => is_white_space c = true) ws1
    /\ Forall (fun c => is_white_space c = true) ws2
    /\ head_is is_white_space (trim s) = false
    /\ last_is is_white_space (trim s) = false.
Proof.
  destruct (trimStart_decomp s) as (ws1 & Hs & Hws1 & Hh).
  destruct (trimEnd_decomp (trimStart s)) as (ws2 & Ht & Hws2 & Hl).
  exists ws1, ws2. unfold trim. split_and!; try done.
  - by rewrite <- Ht.
  - rewrite Ht in Hh. by apply head_is_prefix in Hh.
Qed.

Lemma head_last_no_white (t : jsstring) :
  head_is is_white_space t = false -> last_is is_white_space t = false ->
  trim t = t.
Proof.
  intros Hh Hl. unfold trim, trimEnd.
  destruct t as [|c t]; [done|]. cbn in Hh.
  rewrite trimStart_head by done.
  destruct (rev (c :: t)) as [|d r] eqn:Hrev.
  { apply (f_equal (@length N)) in Hrev. rewrite length_rev in Hrev. done. }
  assert (last (c :: t) = Some d) as Hd.
  { rewrite <- (rev_involutive (c :: t)), Hrev. cbn. by rewrite last_snoc. }
  unfold last_is in Hl. rewrite Hd in Hl.
  rewrite trimStart_head by done. by rewrite <- Hrev, rev_involutive.
Qed.

Lemma trim_idem (s : jsstring) : trim (trim s) = trim s.
Proof.
  destruct (trim_decomp s) as (? & ? & _ & _ & _ & Hh & Hl).
  by apply head_last_no_white.
Qed.

Lemma filter_id_Forall {A} (f : A -> bool) (l : list A) :
  Forall (fun x => f x = true) l -> List.filter f l = l.
Proof. induction 1 as [|x l Hx _ IH]; [done|]. cbn. by rewrite Hx, IH. Qed.

Lemma Forall_filter_true {A} (f : A -> bool) (l : list A) :
  Forall (fun x => f x = true) (List.filter f l).
Proof.
  induction l as [|x l IH]; [done|]. cbn. destruct (f x) eqn:Hx; [by constructor|done].
Qed.

Lemma sublist_filter' {A} (f : A -> bool) (l : list A) : sublist (List.filter f l) l.
Proof.
  induction l as [|x l IH]; [done|]. cbn. destruct (f x).
  - by apply sublist_skip.
  - by apply sublist_cons.
Qed.

Lemma Forall_true_forallb {A} (f : A -> bool) (l : list A) :
  Forall (fun x => f x = true) l -> forallb f l = true.
Proof. induction 1 as [|x l Hx _ IH]; [done|]. cbn. by rewrite Hx, IH. Qed.

(** What [sanitizeString] makes of a string. *)
Lemma sanitizeString_Str (s : jsstring) :
  sanitizeString (Str s) = Ok (trim (List.filter (fun c => negb (is_control c)) s)).
Proof. unfold sanitizeString, re_control. by rewrite replace_all_chr. Qed.

Lemma sanitizeString_shape (s : jsstring) :
  let t := trim (List.filter (fun c => negb (is_control c)) s) in
  Forall (fun c => negb (is_control c) = true) t
  /\ head_is is_white_space t = false /\ last_is is_white_space t = false
  /\ sublist t s.
Proof.
  intros t. subst t.
  set (f := List.filter (fun c => negb (is_control c)) s).
  destruct (trim_decomp f) as (ws1 & ws2 & Hf & _ & _ & Hh & Hl).
  pose proof (Forall_filter_true (fun c => negb (is_control c)) s) as Hall.
  fold f in Hall. rewrite Hf in Hall.
  apply Forall_app in Hall as [_ Hall]. apply Forall_app in Hall as [Hall _].
  split_and!; try done.
  transitivity f; [|apply sublist_filter'].
  rewrite Hf at 2. apply sublist_inserts_l, sublist_inserts_r. done.
Qed.

Lemma sanitizeString_fixed (t : jsstring) :
  Forall (fun c => negb (is_control c) = true) t ->
  head_is is_white_space t = false -> last_is is_white_space t = false ->
  sanitizeString (Str t) = Ok t.
Proof.
  intros Hall Hh Hl. rewrite sanitizeString_Str, filter_id_Forall by done.
  by rewrite head_last_no_white.
Qed.

(** X1: sanitizeString on a string never throws; its result is a
    subsequence of the input, holds none of the stripped control
    characters, neither starts nor ends with white space, and is left as
    it is by a second pass. *)
Theorem sanitizeString_normal_form (s : jsstring) :
  exists t, sanitizeString (Str s) = Ok t
    /\ sanitizeString (Str t) = Ok t
    /\ forallb (fun c => negb (is_control c)) t = true
    /\ head_is is_white_space t = false
    /\ last_is is_white_space t = false
    /\ sublist t s.
Proof.
  eexists. split; [apply sanitizeString_Str|].
  destruct (sanitizeString_shape s) as (Hall & Hh & Hl & Hsub).
  split_and!; try done.
  - by apply sanitizeString_fixed.
  - by apply Forall_true_forallb.
Qed.

Lemma test_from_lit_ci (w : string) (s : jsstring) :
  forall prev, test_from (lit_ci w) prev s = mentions (str w) s.
Proof.
  induction s as [|c s IH]; intros prev; cbn [test_from mentions]; unfold exec_at;
    fold Kend; rewrite lit_ci_Kend; destruct (prefix_ci (str w) _); try done.
Qed.

Lemma test_lit_ci (w : string) (s : jsstring) :
  test (lit_ci w) s = mentions (str w) s.
Proof. apply test_from_lit_ci. Qed.

Lemma test_from_later (r : regex) (s : jsstring) :
  (forall prev, is_Some (exec_at r prev s)) ->
  forall pre prev, test_from r prev (pre ++ s) = true.
Proof.
  intros Hs pre. induction pre as [|c pre IH]; intros prev.
  - cbn [app]. destruct (Hs prev) as [x Hx].
    destruct s; cbn [test_from]; by rewrite Hx.
  - cbn [app test_from]. destruct (exec_at r prev _); [done|apply IH].
Qed.

Lemma orelse_is_Some_r {A} (x y : option A) : is_Some y -> is_Some (orelse x y).
Proof. destruct x; [by eauto|done]. Qed.

Lemma orelse_is_Some_l {A} (x y : option A) : is_Some x -> is_Some (orelse x y).
Proof. by intros [? ->]. Qed.

Lemma greedy_star_some (p : N -> bool) (k : Cont) (w rest : jsstring) :
  Forall (fun c => p c = true) w ->
  (forall prev, is_Some (k prev rest)) ->
  forall prev, is_Some (greedy_star p k prev (w ++ rest)).
Proof.
  intros Hw Hk. induction Hw as [|c w Hc _ IH]; intros prev.
  - cbn [app]. destruct rest as [|d rest]; cbn; [apply Hk|].
    destruct (p d); [apply orelse_is_Some_r|]; apply Hk.
  - cbn. rewrite Hc. apply orelse_is_Some_l, IH.
Qed.

Lemma exec_re_handler (o n : N) (w ws post : jsstring) :
  eq_ci 111 o = true -> eq_ci 110 n = true ->
  w <> [] -> forallb is_word w = true -> forallb is_white_space ws = true ->
  forall prev, is_Some (exec_at re_handler prev ([o; n] ++ w ++ ws ++ [61] ++ post)).
Proof.
  intros Ho Hn Hne Hw Hws prev. unfold exec_at, re_handler. cbn [seq_of].
  rewrite rmatch_Seq, rmatch_lit_ci.
  change (str "on") with [111; 110]. cbn [app match_chars]. rewrite Ho, Hn.
  destruct w as [|c w]; [done|]. cbn [forallb] in Hw.
  apply andb_true_iff in Hw as [Hc Hw].
  rewrite rmatch_Seq. cbn [app]. rewrite rmatch_Plus_chr, Hc, rmatch_star_greedy.
  apply greedy_star_some; [by apply forallb_true_Forall|].
  intros prev'. rewrite rmatch_Seq, rmatch_star_greedy.
  apply greedy_star_some; [by apply forallb_true_Forall|].
  intros prev''. cbn. by eauto.
Qed.

Lemma handlerLike_test (s : jsstring) : handlerLike s -> test re_handler s = true.
Proof.
  intros (pre & o & n & w & ws & post & -> & Ho & Hn & Hne & Hw & Hws).
  apply test_from_later. by apply exec_re_handler.
Qed.

Lemma sanitizeSearchQuery_Str (s : jsstring) :
  sanitizeSearchQuery (Str s) =
    let sanitized := trim (List.filter (fun c => negb (is_control c)) s) in
    if (length sanitized <? 1)%nat then
      Throw (newValidationError "Search query cannot be empty")
    else if (200 <? length sanitized)%nat then
      Throw (newValidationError "Search query is too long (max 200 characters)")
    else if existsb (fun pattern => test pattern sanitized) dangerousPatterns then
      Throw dangerousContent
    else Ok sanitized.
Proof. unfold sanitizeSearchQuery. by rewrite sanitizeString_Str. Qed.

Lemma sanitizeSearchQuery_inv (query : unknown) (t : jsstring) :
  sanitizeSearchQuery query = Ok t ->
  sanitizeString query = Ok t
  /\ (1 <= length t <= 200)%nat
  /\ existsb (fun pattern => test pattern t) dangerousPatterns = false.
Proof.
  unfold sanitizeSearchQuery. destruct (sanitizeString query) as [s|e]; [|done].
  cbn -[dangerousPatterns Nat.ltb].
  destruct (Nat.ltb_spec (length s) 1); [done|].
  destruct (Nat.ltb_spec 200 (length s)); [done|].
  destruct (existsb _ _) eqn:He; [done|]. intros [= <-]. split_and!; try done; lia.
Qed.

Lemma sanitizeString_inv (query : unknown) (t : jsstring) :
  sanitizeString query = Ok t ->
  Forall (fun c => negb (is_control c) = true) t
  /\ head_is is_white_space t = false /\ last_is is_white_space t = false.
Proof.
  destruct query as [|s|]; try done. rewrite sanitizeString_Str. intros [= <-].
  destruct (sanitizeString_shape s) as (? & ? & ? & _). done.
Qed.

Lemma sanitizeSearchQuery_fixed (query : unknown) (t : jsstring) :
  sanitizeSearchQuery query = Ok t -> sanitizeSearchQuery (Str t) = Ok t.
Proof.
  intros H. apply sanitizeSearchQuery_inv in H as (Hs & Hlen & Hpat).
  apply sanitizeString_inv in Hs as (Hall & Hh & Hl).
  unfold sanitizeSearchQuery. rewrite sanitizeString_fixed by done.
  cbn -[dangerousPatterns Nat.ltb].
  destruct (Nat.ltb_spec (length t) 1); [lia|].
  destruct (Nat.ltb_spec 200 (length t)); [lia|].
  by rewrite Hpat.
Qed.

(** X2: a query that sanitizeSearchQuery returns is the sanitized input,
    has between 1 and 200 code units, does not hold the text javascript:
    in any casing, and is returned unchanged when given again. *)
Theorem sanitizeSearchQuery_result (query : unknown) (t : jsstring) :
  sanitizeSearchQuery query = Ok t ->
  sanitizeString query = Ok t
  /\ (1 <= length t <= 200)%nat
  /\ mentions (str "javascript:") t = false
  /\ sanitizeSearchQuery (Str t) = Ok t.
Proof.
  intros H. pose proof (sanitizeSearchQuery_fixed _ _ H) as Hfix.
  apply sanitizeSearchQuery_inv in H as (Hs & Hlen & Hpat).
  split; [done|]. split; [done|]. split; [|done].
  cbn [existsb dangerousPatterns] in Hpat.
  apply orb_false_iff in Hpat as [_ Hpat]. apply orb_false_iff in Hpat as [Hjs _].
  unfold re_javascript in Hjs. by rewrite test_lit_ci in Hjs.
Qed.

Lemma sanitizeSearchQuery_result_witness :
  sanitizeString (Str (str "  Sherlock Holmes ")) = Ok (str "Sherlock Holmes")
  /\ (1 <= length (str "Sherlock Holmes") <= 200)%nat
  /\ mentions (str "javascript:") (str "Sherlock Holmes") = false
  /\ sanitizeSearchQuery (Str (str "Sherlock Holmes")) = Ok (str "Sherlock Holmes").
Proof.
  apply (sanitizeSearchQuery_result (Str (str "  Sherlock Holmes "))).
  vm_compute. reflexivity.
Defined.

(** X3: a query whose sanitized text is at most 200 code units long and
    holds the letters on (in any casing) followed by word characters,
    optional white space and an equals sign is refused as dangerous,
    wherever the letters stand, inside a word too. *)
Theorem handler_like_query_is_rejected (raw q : jsstring) :
  sanitizeString (Str raw) = Ok q ->
  (length q <= 200)%nat ->
  handlerLike q ->
  sanitizeSearchQuery (Str raw) = Throw dangerousContent.
Proof.
  intros Hs Hlen Hq. pose proof (handlerLike_test q Hq) as Ht.
  unfold sanitizeSearchQuery. rewrite Hs. cbn -[dangerousPatterns Nat.ltb].
  assert (q <> []) as Hne.
  { destruct Hq as (pre & o & n & w & ws & post & -> & _). by destruct pre. }
  destruct (Nat.ltb_spec (length q) 1) as [Hlt|_].
  { destruct q; [done|]. cbn [length] in Hlt. lia. }
  destruct (Nat.ltb_spec 200 (length q)); [lia|].
  cbn [existsb dangerousPatterns]. rewrite Ht. by rewrite !orb_true_r.
Qed.

Lemma handler_like_query_is_rejected_witness :
  sanitizeSearchQuery (Str (str "London = capital")) = Throw dangerousContent.
Proof.
  apply (handler_like_query_is_rejected _ (str "London = capital")).
  - vm_compute. reflexivity.
  - vm_compute. lia.
  - exists (str "L"), 111, 110, (str "don"), (str " "), (str " capital").
    split_and!; try (vm_compute; reflexivity). done.
Defined.

Lemma test_class_line (p : N -> bool) (s : jsstring) :
  test (seq_of [Bol; Plus true (Chr p); Eol]) s =
    match s with [] => false | _ :: _ => forallb p s end.
Proof.
  cbn [seq_of]. rewrite test_anchored, rmatch_Seq, rmatch_Plus_chr.
  destruct s as [|c s]; [done|]. cbn [forallb]. destruct (p c); [|done].
  rewrite rmatch_star_greedy.
  rewrite greedy_class_eol by (intros; apply eol_Kend).
  cbn [andb]. by destruct (forallb p s).
Qed.

Lemma validateTaskId_inv (v : unknown) (t : jsstring) :
  validateTaskId v = Ok t -> sanitizeString v = Ok t /\ wellFormedTaskId t.
Proof.
  unfold validateTaskId. destruct (sanitizeString v) as [s|e]; [|done].
  cbn -[test re_task_id]. destruct s as [|c s]; [done|].
  destruct (test re_task_id (c :: s)) eqn:Ht; [|done]. cbn [negb].
  intros [= <-]. split; [done|]. split; [done|].
  unfold re_task_id in Ht. by rewrite test_class_line in Ht.
Qed.

Lemma validateTaskId_wellFormed (t : jsstring) :
  wellFormedTaskId t -> validateTaskId (Str t) = Ok t.
Proof.
  intros Hwf. unfold validateTaskId.
  rewrite (sanitizeString_strips t t Hwf (differsByStripped_refl t Hwf)).
  destruct Hwf as [Hne Hall]. destruct t as [|c t]; [done|].
  cbn -[test re_task_id]. unfold re_task_id. rewrite test_class_line.
  by rewrite Hall.
Qed.

(** X4: the ids that validateTaskId returns are exactly the non-empty
    strings over the letters, the digits, the underscore and the hyphen,
    and such an id is returned as it is. *)
Theorem validateTaskId_returns (t : jsstring) :
  ((exists v, validateTaskId v = Ok t) <-> wellFormedTaskId t)
  /\ (wellFormedTaskId t -> validateTaskId (Str t) = Ok t).
Proof.
  split; [split|].
  - intros [v Hv]. by apply validateTaskId_inv in Hv as [_ ?].
  - intros Hwf. exists (Str t). by apply validateTaskId_wellFormed.
  - apply validateTaskId_wellFormed.
Qed.

Lemma test_re_method (m : jsstring) :
  test re_method m = match m with [] => false | _ :: _ => forallb is_method_char m end.
Proof. unfold re_method. apply test_class_line. Qed.

Lemma validateRequest_spec (request : TelexRequest.t) :
  (validateRequest request = None <->
     exists m, TelexRequest.method request = Str m
               /\ m <> [] /\ forallb is_method_char m = true)
  /\ (forall e, validateRequest request = Some e ->
        exists message data,
          e = mkErrorResponse (mkRpcError (-32600) message data)
                (id_or_null (TelexRequest.id request))).
Proof.
  unfold validateRequest, schemas.telexRequest.
  destruct (TelexRequest.method request) as [|[|c m]|b] eqn:Hm;
    cbn -[test str createErrorResponse re_method]; try rewrite test_re_method.
  - split; [split; [done|by intros (? & ? & _)]|]. intros e [= <-]. by eexists _, _.
  - split; [split; [done|by intros (? & [= <-] & ? & _)]|].
    intros e [= <-]. by eexists _, _.
  - destruct (forallb is_method_char (c :: m)) eqn:Hall; cbn [negb].
    + split; [split; [intros _; by exists (c :: m)|done]|done].
    + split; [split; [done|]|].
      * intros (m' & [= <-] & _ & Hall'). congruence.
      * intros e [= <-]. by eexists _, _.
  - split; [split; [done|by intros (? & ? & _)]|]. intros e [= <-]. by eexists _, _.
Qed.


Lemma strip_prefix_app (p r : jsstring) : strip_prefix p (p ++ r) = Some r.
Proof. induction p as [|a p IH]; [done|]. cbn. by rewrite N.eqb_refl. Qed.

Lemma includes_app (p r : jsstring) : includes p (p ++ r) = true.
Proof. destruct (p ++ r) eqn:E; cbn; rewrite <- E, strip_prefix_app; done. Qed.

Lemma replace_first_app (p r : jsstring) : replace_first p (p ++ r) = r.
Proof.
  destruct (p ++ r) eqn:E; cbn; rewrite <- E, strip_prefix_app; done.
Qed.

Lemma trim_white_l (ws s : jsstring) :
  Forall (fun c => is_white_space c = true) ws -> trim (ws ++ s) = trim s.
Proof. intros H. unfold trim. by rewrite trimStart_white. Qed.

Lemma last_is_app_r (p : N -> bool) (x y : jsstring) :
  y <> [] -> last_is p (x ++ y) = last_is p y.
Proof.
  intros Hy. unfold last_is. destruct y as [|c y] using rev_ind; [done|].
  by rewrite app_assoc, !last_snoc.
Qed.

Lemma extractSearchQuery_textMessage (role : Role) (s : jsstring) :
  s <> [] ->
  extractSearchQuery (textMessage role s) =
    if (length (trim s) =? 0)%nat then
      Throw (newValidationError "Message text cannot be empty")
    else
      sanitizedText ← sanitizeString (Str s);
      sanitizeSearchQuery
        (Str (if includes queryPrefix sanitizedText
              then trim (replace_first queryPrefix sanitizedText)
              else trim sanitizedText)).
Proof. intros Hs. destruct s as [|c s]; [done|]. reflexivity. Qed.

(** X6: the prompt that the handlers build for a query and the query
    extraction are inverse to each other: a message whose text is the
    prompt of a query that sanitizeSearchQuery returns gives back that
    query. *)
Theorem prompt_round_trip (role : Role) (v : unknown) (q : jsstring) :
  sanitizeSearchQuery v = Ok q ->
  extractSearchQuery (textMessage role (extractionPrompt q)) = Ok q.
Proof.
  intros Hq. pose proof (sanitizeSearchQuery_fixed _ _ Hq) as Hfix.
  apply sanitizeSearchQuery_inv in Hq as (Hs & Hlen & _).
  apply sanitizeString_inv in Hs as (Hall & Hh & Hl).
  assert (q <> []) as Hne by (destruct q; [cbn in Hlen; lia|done]).
  assert (extractionPrompt q = queryPrefix ++ [32] ++ q) as Hp by reflexivity.
  assert (sanitizeString (Str (extractionPrompt q)) = Ok (extractionPrompt q)) as Hsan.
  { apply sanitizeString_fixed.
    - rewrite Hp. apply Forall_app. split; [|apply Forall_app; split; [|done]].
      + apply forallb_true_Forall. vm_compute. reflexivity.
      + apply forallb_true_Forall. vm_compute. reflexivity.
    - reflexivity.
    - unfold extractionPrompt. by rewrite last_is_app_r. }
  rewrite extractSearchQuery_textMessage by (by rewrite Hp).
  assert (trim (extractionPrompt q) = extractionPrompt q) as Ht.
  { apply head_last_no_white; [reflexivity|].
    unfold extractionPrompt. by rewrite last_is_app_r. }
  rewrite Ht, Hsan. cbn [mbind result_bind].
  rewrite Hp at 1. cbn [length app Nat.eqb].
  rewrite Hp, includes_app, replace_first_app.
  rewrite trim_white_l by (by repeat constructor).
  by rewrite head_last_no_white.
Qed.

Lemma prompt_round_trip_witness :
  extractSearchQuery (textMessage user (extractionPrompt (str "Sherlock Holmes")))
  = Ok (str "Sherlock Holmes").
Proof.
  apply (prompt_round_trip user (Str (str " Sherlock Holmes"))).
  vm_compute. reflexivity.
Defined.

(** X7: a query that extractSearchQuery returns is one that
    sanitizeSearchQuery returns unchanged: it has between 1 and 200 code
    units, none of the stripped control characters, no white space at its
    ends; and every failure of extractSearchQuery is a ValidationError. *)
Theorem extractSearchQuery_result (message : TelexMessage.t) :
  (forall q, extractSearchQuery message = Ok q ->
     sanitizeSearchQuery (Str q) = Ok q
     /\ (1 <= length q <= 200)%nat
     /\ forallb (fun c => negb (is_control c)) q = true
     /\ head_is is_white_space q = false /\ last_is is_white_space q = false)
  /\ (forall e, extractSearchQuery message = Throw e ->
        exists m, e = ValidationError m 400 (str "VALIDATION_ERROR") None).
Proof.
  unfold extractSearchQuery.
  destruct (List.find _ _) as [part|]; [|split; [done|intros e [= <-]; by eexists]].
  destruct (Part.text part) as [[|c s]|]; [split; [done|intros e [= <-]; by eexists]| |
    split; [done|intros e [= <-]; by eexists]].
  destruct (length (trim (c :: s)) =? 0)%nat; [split; [done|intros e [= <-]; by eexists]|].
  rewrite sanitizeString_Str. cbn [mbind result_bind].
  set (sq := if includes _ _ then _ else _). clearbody sq. split.
  - intros q Hq. pose proof (sanitizeSearchQuery_fixed _ _ Hq) as Hfix.
    apply sanitizeSearchQuery_inv in Hq as (Hs & Hlen & _).
    apply sanitizeString_inv in Hs as (Hall & Hh & Hl).
    split_and!; try done; try lia. by apply Forall_true_forallb.
  - intros e. rewrite sanitizeSearchQuery_Str. cbn zeta.
    repeat case_match; intros [= <-]; by eexists.
Qed.

(** * The id of a new task *)

Lemma str_append (a b : string) : str (a +:+ b) = str a ++ str b.
Proof. induction a as [|c a IH]; [done|]. simpl. by f_equal. Qed.

Lemma pretty_N_char_digit (x : N) :
  x < 10 ->
  is_digit (Ascii.N_of_ascii (pretty_N_char x)) = true
  /\ (Z.of_N (Ascii.N_of_ascii (pretty_N_char x)) - 48 = Z.of_N x)%Z.
Proof.
  intros Hx.
  assert (x = 0 \/ x = 1 \/ x = 2 \/ x = 3 \/ x = 4 \/ x = 5 \/ x = 6 \/ x = 7
          \/ x = 8 \/ x = 9) as H by lia.
  repeat destruct H as [->|H]; try subst x; by vm_compute.
Qed.

(** The digits that [pretty_N_go] puts before its accumulator. *)
Lemma pretty_N_go_digits (x : N) :
  forall s, exists d,
    pretty_N_go x s = d +:+ s
    /\ Forall (fun c => is_digit c = true) (str d)
    /\ (0 < x -> d <> EmptyString)
    /\ forall acc rest,
         digits_value acc (str d ++ rest)
         = digits_value (acc * 10 ^ Z.of_nat (length (str d)) + Z.of_N x)%Z rest.
Proof.
  induction (N.lt_wf_0 x) as [x _ IH]; intros s.
  destruct (decide (x = 0)) as [->|Hx].
  - exists EmptyString. rewrite pretty_N_go_0.
    split; [done|]. split; [done|]. split; [lia|].
    intros acc rest. cbn [str app length]. f_equal. lia.
  - rewrite pretty_N_go_step by lia.
    destruct (IH (x `div` 10)) with (s := String (pretty_N_char (x `mod` 10)) s)
      as (d & Hd & Hdig & _ & Hval).
    { apply N.div_lt; lia. }
    destruct (pretty_N_char_digit (x `mod` 10)) as [Hc Hv].
    { apply N.mod_lt. lia. }
    exists (d +:+ String (pretty_N_char (x `mod` 10)) EmptyString).
    split_and!.
    + rewrite Hd. clear. induction d as [|c d IH]; [done|].
      change (String c (d +:+ String (pretty_N_char (x `mod` 10)) s)
              = String c ((d +:+ String (pretty_N_char (x `mod` 10)) "") +:+ s)).
      by f_equal.
    + rewrite str_append. apply Forall_app. split; [done|]. by repeat constructor.
    + intros _. by destruct d.
    + intros acc rest. rewrite str_append, <- app_assoc, Hval. cbn [str app].
      cbn [digits_value]. rewrite Hc, Hv. f_equal.
      rewrite length_app. cbn [length].
      replace (Z.of_nat (length (str d) + 1)) with (Z.of_nat (length (str d)) + 1)%Z by lia.
      rewrite Z.pow_add_r by lia.
      pose proof (N.div_mod x 10 ltac:(lia)) as Hdm.
      rewrite Hdm at 3. rewrite N2Z.inj_add, N2Z.inj_mul. lia.
Qed.

Lemma decimal_digits (n : N) :
  decimal n <> []
  /\ Forall (fun c => is_digit c = true) (decimal n)
  /\ forall rest, digits_value 0 (decimal n ++ rest) = digits_value (Z.of_N n) rest.
Proof.
  unfold decimal, pretty, pretty_N. destruct (decide (n = 0)) as [->|Hn].
  - split_and!; [done|by repeat constructor|]. intros rest. reflexivity.
  - destruct (pretty_N_go_digits n EmptyString) as (d & Hd & Hdig & Hne & Hval).
    assert (d +:+ EmptyString = d) as Hd'.
    { clear. induction d as [|c d IH]; [done|].
      change (String c (d +:+ EmptyString) = String c d). by f_equal. }
    rewrite Hd, Hd'. split; [|split; [done|]].
    + destruct d; [by destruct Hne; [lia|]|done].
    + intros rest. rewrite Hval. f_equal.
Qed.

Lemma digits_value_stop (acc : Z) (rest : jsstring) :
  head_is is_digit rest = false -> digits_value acc rest = acc.
Proof. destruct rest as [|c rest]; [done|]. cbn. by intros ->. Qed.

Lemma digit_not_white (c : N) : is_digit c = true -> is_white_space c = false.
Proof. intros H. by apply digit_is_no_space in H as [_ ?]. Qed.

Lemma toDouble_small (z : Z) : (Z.abs z < 2 ^ 53)%Z -> toDouble z = Num z.
Proof.
  intros Hz. unfold toDouble, roundedMagnitude.
  apply Z.ltb_lt in Hz as Hz'. rewrite Hz'.
  assert ((2 ^ 53 < 2 ^ 1024)%Z) as Hpow by (by apply Z.pow_lt_mono_r).
  destruct (Z.leb_spec (2 ^ 1024) (Z.abs z)) as [Hle|_]; [lia|].
  f_equal. lia.
Qed.

(** [parseInt] reads back what [String] wrote. *)
Lemma parseInt10_decimal (n : N) (rest : jsstring) :
  n < 2 ^ 53 ->
  head_is is_digit rest = false ->
  parseInt10 (Some (decimal n ++ rest)) = Num (Z.of_N n).
Proof.
  intros Hn Hrest. destruct (decimal_digits n) as (Hne & Hdig & Hval).
  unfold parseInt10. destruct (decimal n) as [|c d] eqn:Hd; [done|].
  inversion Hdig as [|? ? Hc Hd']; subst.
  cbn [app]. rewrite trimStart_head by (by apply digit_not_white).
  assert (c <> 45 /\ c <> 43) as [H45 H43].
  { unfold is_digit, in_range in Hc. apply andb_true_iff in Hc as [H1 H2].
    apply N.leb_le in H1, H2. lia. }
  assert (match c :: d ++ rest with
          | 45 :: s' => ((-1)%Z, s')
          | 43 :: s' => (1%Z, s')
          | _ => (1%Z, c :: d ++ rest)
          end = (1%Z, c :: d ++ rest)) as ->.
  { destruct c as [|p]; [done|]. repeat (destruct p as [p|p|]; try done). }
  rewrite Hc. specialize (Hval rest). cbn [app] in Hval. rewrite Hval.
  rewrite digits_value_stop by done.
  replace (1 * Z.of_N n)%Z with (Z.of_N n) by lia.
  apply toDouble_small. change (2 ^ 53)%Z with (Z.of_N (2 ^ 53)). lia.
Qed.

Lemma split_on_go_piece (sep : N) (x cur rest : jsstring) :
  Forall (fun c => c <> sep) x ->
  split_on_go sep cur (x ++ sep :: rest) = (cur ++ x) :: split_on_go sep [] rest.
Proof.
  intros Hx. revert cur. induction Hx as [|c x Hc _ IH]; intros cur.
  - cbn. by rewrite N.eqb_refl, app_nil_r.
  - cbn. apply N.eqb_neq in Hc. rewrite Hc, IH. by rewrite <- app_assoc.
Qed.

Lemma elapsedSince_newTaskId (dateNow : N) (clock : nat -> N) (rnd : jsstring) :
  clock 0%nat < 2 ^ 53 -> dateNow < 2 ^ 53 ->
  elapsedSince dateNow (newTaskId clock rnd)
  = Num (Z.of_N dateNow - Z.of_N (clock 0%nat))%Z.
Proof.
  intros Hclock Hnow. unfold elapsedSince, newTaskId, split_on.
  destruct (decimal_digits (clock 0%nat)) as (_ & Hdig & _).
  change (str "task_") with (str "task" ++ [95]). change (str "_") with [95].
  rewrite <- !app_assoc. cbn [app].
  rewrite (split_on_go_piece 95 (str "task")) by (by repeat constructor).
  rewrite (split_on_go_piece 95 (decimal (clock 0%nat))).
  2: { eapply Forall_impl; [exact Hdig|]. intros c Hc ->. done. }
  cbn [lookup list_lookup app].
  pose proof (parseInt10_decimal (clock 0%nat) [] Hclock eq_refl) as Hp.
  rewrite app_nil_r in Hp. rewrite Hp.
  apply toDouble_small.
  assert (Z.of_N (2 ^ 53) = 2 ^ 53)%Z as Hpow by reflexivity. lia.
Qed.

Lemma createTask_id clock rnd q m sid task :
  createTask clock rnd q m sid = Ok task -> TelexTask.id task = newTaskId clock rnd.
Proof.
  unfold createTask. destruct (negb _); [done|].
  destruct (truthy sid).
  - destruct (sanitizeString sid) as [[|c v]|]; cbn; try done.
    intros [= <-]. done.
  - cbn. intros [= <-]. done.
Qed.

Lemma digit_is_task_id_char c : is_digit c = true -> is_task_id_char c = true.
Proof. unfold is_task_id_char. intros ->. by rewrite !orb_true_r. Qed.

Lemma newTaskId_wellFormed (clock : nat -> N) (rnd : jsstring) :
  forallb is_task_id_char rnd = true -> wellFormedTaskId (newTaskId clock rnd).
Proof.
  intros Hrnd. split; [done|]. unfold newTaskId.
  destruct (decimal_digits (clock 0%nat)) as (_ & Hdig & _).
  rewrite !forallb_app, Hrnd. cbn [andb].
  assert (forallb is_task_id_char (decimal (clock 0%nat)) = true) as ->.
  { apply Forall_true_forallb. eapply Forall_impl; [exact Hdig|].
    apply digit_is_task_id_char. }
  reflexivity.
Qed.

(** X8: the id of a new task round-trips: when the random suffix is made
    of letters and digits, the id passes validateTaskId unchanged, and the
    time that the id holds is read back exactly, so that the elapsed time
    computed from the id is the difference of the two clock readings
    (clock readings are below 2^53, as every time in milliseconds is). *)
Theorem new_task_id_round_trip (clock : nat -> N) (rnd q : jsstring)
  (m : TelexMessage.t) (sid : unknown) (task : TelexTask.t) :
  createTask clock rnd q m sid = Ok task ->
  forallb is_task_id_char rnd = true ->
  clock 0%nat < 2 ^ 53 ->
  validateTaskId (Str (TelexTask.id task)) = Ok (TelexTask.id task)
  /\ forall dateNow,
       dateNow < 2 ^ 53 ->
       elapsedSince dateNow (TelexTask.id task)
       = Num (Z.of_N dateNow - Z.of_N (clock 0%nat))%Z.
Proof.
  intros Hc Hrnd Hclock. rewrite (createTask_id _ _ _ _ _ _ Hc). split.
  - by apply validateTaskId_wellFormed, newTaskId_wellFormed.
  - intros dateNow Hnow. by apply elapsedSince_newTaskId.
Qed.

Lemma new_task_id_round_trip_witness :
  validateTaskId (Str sampleId) = Ok sampleId
  /\ forall dateNow,
       dateNow < 2 ^ 53 ->
       elapsedSince dateNow sampleId = Num (Z.of_N dateNow - 1700000000000)%Z.
Proof.
  apply (new_task_id_round_trip (now (sampleEnv noGenerate)) (str "abc123xyz")
           (str "Sherlock Holmes") (textMessage user (str "Sherlock Holmes"))
           Undefined sampleTask).
  - vm_compute. reflexivity.
  - vm_compute. reflexivity.
  - vm_compute. reflexivity.
Defined.

(** * The router and the store *)

Lemma id_or_null_truthy (i : option ReqId) (j : ReqId) :
  id_or_null i = Some j -> id_truthy j = true.
Proof. destruct i as [i|]; [|done]. cbn. destruct (id_truthy i) eqn:H; by intros [= <-]. Qed.

Lemma requestIdOf_truthy (request : TelexRequest.t) : id_truthy (requestIdOf request) = true.
Proof.
  unfold requestIdOf. destruct (id_or_null _) as [j|] eqn:H; [|done].
  by apply id_or_null_truthy in H.
Qed.

Lemma createErrorResponse_id code message id data :
  id_truthy id = true ->
  responseId (Failure (createErrorResponse code message (Some id) data)) = Some id.
Proof. intros H. cbn. by rewrite H. Qed.

Lemma handleTaskGet_id env params id cache :
  id_truthy id = true -> responseId (handleTaskGet env params id cache).2 = Some id.
Proof.
  intros H. unfold handleTaskGet, taskIdRequired, invalidTaskId, handleTaskNotFound,
    handleValidationError, createErrorResponse.
  repeat case_match; cbn; by rewrite ?H.
Qed.

Lemma handleTaskCancel_id env params id cache :
  id_truthy id = true -> responseId (handleTaskCancel env params id cache).2 = Some id.
Proof.
  intros H. unfold handleTaskCancel, taskIdRequired, invalidTaskId, handleTaskNotFound,
    handleValidationError, createErrorResponse.
  repeat case_match; cbn; by rewrite ?H.
Qed.

Lemma handleSetTaskPushNotificationConfig_id env params id cache :
  id_truthy id = true ->
  responseId (handleSetTaskPushNotificationConfig env params id cache).2 = Some id.
Proof.
  intros H. unfold handleSetTaskPushNotificationConfig, taskIdRequired, invalidTaskId,
    handleTaskNotFound, handleValidationError, createErrorResponse.
  repeat case_match; cbn; by rewrite ?H.
Qed.

Lemma handleGetTaskPushNotificationConfig_id env params id cache :
  id_truthy id = true ->
  responseId (handleGetTaskPushNotificationConfig env params id cache).2 = Some id.
Proof.
  intros H. unfold handleGetTaskPushNotificationConfig, taskIdRequired, invalidTaskId,
    handleTaskNotFound, handleValidationError, createErrorResponse.
  repeat case_match; cbn; by rewrite ?H.
Qed.

Lemma handleTaskResubscribe_id env params id cache :
  id_truthy id = true ->
  responseId (handleTaskResubscribe env params id cache).2 = Some id.
Proof.
  intros H. unfold handleTaskResubscribe, taskIdRequired, invalidTaskId,
    handleTaskNotFound, handleValidationError, createErrorResponse.
  repeat case_match; cbn; by rewrite ?H.
Qed.

Lemma handleMessageSend_id env params id cache :
  id_truthy id = true ->
  responseId (handleMessageSend env params id cache).2 = Some id.
Proof.
  intros H. unfold handleMessageSend, internalError, handleInternalError,
    handleValidationError, createErrorResponse, completeTask.
  repeat case_match; cbn; by rewrite ?H.
Qed.

Lemma validateRequest_id (request : TelexRequest.t) (e : ErrorResponse) :
  validateRequest request = Some e ->
  responseId (Failure e) = id_or_null (TelexRequest.id request).
Proof.
  intros H. destruct (validateRequest_spec request) as [_ He].
  destruct (He e H) as (m & d & ->). done.
Qed.

(** X9: every answer that is not a stream carries the id of the request:
    the id itself when it is truthy; otherwise null when the request is
    refused as invalid and the text default when it is routed. *)
Theorem response_carries_request_id (env : Env) (request : TelexRequest.t)
  (res : option Response.t) (taskCache : gmap jsstring TelexTask.t) :
  TelexRequest.method request <> Str (str "message/stream") ->
  exists r,
    (routeRequest env request res taskCache).2 = Some r
    /\ responseId r =
         match validateRequest request with
         | Some _ => id_or_null (TelexRequest.id request)
         | None => Some (requestIdOf request)
         end.
Proof.
  intros Hm. unfold routeRequest.
  destruct (validateRequest request) as [e|] eqn:Hv.
  { eexists. split; [done|]. by apply validateRequest_id. }
  fold (requestIdOf request).
  pose proof (requestIdOf_truthy request) as Hid.
  destruct (TelexRequest.method request) as [|m|b] eqn:Hmeth.
  - destruct (proj1 (proj1 (validateRequest_spec request)) Hv) as (? & ? & _).
    congruence.
  - cbv zeta. repeat case_bool_decide; subst; try done; eexists; (split; [done|]); cbn [snd].
    + by apply handleMessageSend_id.
    + by apply handleTaskGet_id.
    + by apply handleTaskCancel_id.
    + by apply handleSetTaskPushNotificationConfig_id.
    + by apply handleGetTaskPushNotificationConfig_id.
    + by apply handleTaskResubscribe_id.
    + unfold handleMethodNotFound. by apply createErrorResponse_id.
  - destruct (proj1 (proj1 (validateRequest_spec request)) Hv) as (? & ? & _).
    congruence.
Qed.

Lemma response_carries_request_id_witness :
  exists r,
    (routeRequest (sampleEnv noGenerate)
       {| TelexRequest.method := Str (str "tasks/get");
          TelexRequest.params := paramsFor (Str sampleId) NoConfig;
          TelexRequest.id := None |} None sampleCache).2 = Some r
    /\ responseId r = Some (IdStr (str "default")).
Proof.
  apply (response_carries_request_id (sampleEnv noGenerate)
           {| TelexRequest.method := Str (str "tasks/get");
              TelexRequest.params := paramsFor (Str sampleId) NoConfig;
              TelexRequest.id := None |} None sampleCache).
  done.
Defined.




Lemma touchesOnly_refl (k : jsstring) (m : gmap jsstring TelexTask.t) : touchesOnly k m m.
Proof. by split. Qed.

Lemma touchesOnly_insert (k : jsstring) (t : TelexTask.t)
  (before after : gmap jsstring TelexTask.t) :
  touchesOnly k before after -> touchesOnly k before (<[k := t]> after).
Proof.
  intros [H1 H2]. split; intros key.
  - intros Hne. rewrite lookup_insert_ne by done. by apply H1.
  - intros Hs. destruct (decide (k = key)) as [->|Hne].
    + rewrite lookup_insert_eq. by eauto.
    + rewrite lookup_insert_ne by done. by apply H2.
Qed.

Lemma handleMessageSend_touches (env : Env) (params : option Params.t) (id : ReqId)
  (cache : gmap jsstring TelexTask.t) :
  touchesOnly (newTaskId (now env) (randomSuffix env)) cache
    (handleMessageSend env params id cache).1.
Proof.
  unfold handleMessageSend.
  destruct params as [p|]; [|apply touchesOnly_refl].
  destruct (schemas.telexMessage _) as [message|]; [|apply touchesOnly_refl].
  destruct (extractSearchQuery message) as [q|]; [|apply touchesOnly_refl].
  destruct (createTask _ _ _ _ _) as [task|] eqn:Ht; [|apply touchesOnly_refl].
  apply createTask_id in Ht.
  unfold TelexTaskStore.createTask, completeTask, TelexTaskStore.updateTask.
  destruct (generate env _) as [result|error].
  - cbn [fst TelexTask.id]. rewrite Ht.
    apply touchesOnly_insert, touchesOnly_insert, touchesOnly_refl.
  - destruct (isRequestTimeout error);
      [|destruct error]; cbn [fst]; rewrite Ht;
      apply touchesOnly_insert, touchesOnly_refl.
Qed.

Lemma handleMessageStream_touches (env : Env) (params : option Params.t) (id : ReqId)
  (res : Response.t) (cache : gmap jsstring TelexTask.t) :
  touchesOnly (newTaskId (now env) (randomSuffix env)) cache
    (handleMessageStream env params id res cache).1.1.
Proof.
  unfold handleMessageStream, handleMessageStream_try.
  destruct params as [p|]; [|apply touchesOnly_refl].
  destruct (Params.message p) eqn:Hmsg; [apply touchesOnly_refl| |].
  - cbn. apply touchesOnly_refl.
  - destruct (schemas.telexMessage _) as [message|]; [|apply touchesOnly_refl].
    destruct (writeHead res) as [res'|err].
    2: { cbn. destruct (endResponse _); apply touchesOnly_refl. }
    destruct (extractSearchQuery message) as [q|]; [|apply touchesOnly_refl].
    destruct (createTask _ _ _ _ _) as [task|] eqn:Ht; [|apply touchesOnly_refl].
    apply createTask_id in Ht.
    unfold TelexTaskStore.createTask, completeTask, TelexTaskStore.updateTask.
    destruct (generate env _) as [result|error].
    + cbn [TelexTask.id]. rewrite Ht.
      destruct (endResponse _); cbn -[newTaskId sendStreamData sendStreamError].
      * apply touchesOnly_insert, touchesOnly_insert, touchesOnly_refl.
      * unfold cancelAfterError, TelexTaskStore.updateTask. cbn [TelexTask.id].
        destruct (endResponse _); cbn [fst];
          apply touchesOnly_insert, touchesOnly_insert, touchesOnly_insert,
            touchesOnly_refl.
    + cbn [try_end try_cache fst]. rewrite Ht.
      apply touchesOnly_insert, touchesOnly_refl.
Qed.

Lemma extends_refl (t : TelexTask.t) : extends t t.
Proof. unfold extends. split_and!; try done; [lia|by left]. Qed.

Lemma extendsStore_refl (m : gmap jsstring TelexTask.t) : extendsStore m m.
Proof. intros key t H. exists t. split; [done|apply extends_refl]. Qed.

Lemma extendsStore_insert (m : gmap jsstring TelexTask.t) (k : jsstring)
  (t0 t : TelexTask.t) :
  m !! k = Some t0 -> extends t0 t -> extendsStore m (<[k := t]> m).
Proof.
  intros Hk He key t1 H1. destruct (decide (k = key)) as [->|Hne].
  - rewrite lookup_insert_eq. exists t. split; [done|]. congruence.
  - rewrite lookup_insert_ne by done. exists t1. split; [done|apply extends_refl].
Qed.

Lemma extends_record (t t' : TelexTask.t) (record : HistoryRecord.t) :
  TelexTask.id t' = TelexTask.id t ->
  TelexTask.sessionId t' = TelexTask.sessionId t ->
  TelexTask.artifacts t' = TelexTask.artifacts t ->
  TelexTask.history t' = TelexTask.history t ++ [record] ->
  stateOf t' = stateOf t \/ (stateOf t = working /\ stateOf t' = canceled) ->
  extends t t'.
Proof.
  intros H1 H2 H3 H4 H5. unfold extends. rewrite H4. split_and!; try done.
  - by apply prefix_app_r.
  - rewrite length_app. cbn. lia.
Qed.

Lemma task_operations_extend (env : Env) (params : option Params.t) (id : ReqId)
  (cache : gmap jsstring TelexTask.t) :
  extendsStore cache (handleTaskGet env params id cache).1
  /\ extendsStore cache (handleTaskCancel env params id cache).1
  /\ extendsStore cache (handleSetTaskPushNotificationConfig env params id cache).1
  /\ extendsStore cache (handleGetTaskPushNotificationConfig env params id cache).1
  /\ extendsStore cache (handleTaskResubscribe env params id cache).1.
Proof.
  split_and!.
  - rewrite handleTaskGet_cache. apply extendsStore_refl.
  - unfold handleTaskCancel. destruct (missingId _); [apply extendsStore_refl|].
    destruct (schemas.taskId _) as [k|]; [|apply extendsStore_refl].
    unfold TelexTaskStore.getTask, TelexTaskStore.updateTask.
    destruct (cache !! k) as [t0|] eqn:Hk; [|apply extendsStore_refl].
    destruct (TelexTaskStatus.state _) eqn:Hst; [|apply extendsStore_refl..].
    cbn [fst]. apply extendsStore_insert with (t0 := t0); [done|].
    eapply extends_record; try done. right. done.
  - unfold handleSetTaskPushNotificationConfig.
    destruct (missingId _); [apply extendsStore_refl|].
    destruct (match params with Some p => _ | None => _ end);
      [apply extendsStore_refl| |].
    + destruct (schemas.taskId _) as [k|]; [|apply extendsStore_refl].
      cbn. apply extendsStore_refl.
    + destruct (schemas.taskId _) as [k|]; [|apply extendsStore_refl].
      destruct (schemas.pushNotificationConfig _ _) as [[c'|]|];
        [|apply extendsStore_refl..].
      unfold TelexTaskStore.getTask, TelexTaskStore.updateTask.
      destruct (cache !! k) as [t0|] eqn:Hk; [|apply extendsStore_refl].
      destruct (_ && _); [apply extendsStore_refl|].
      cbn [fst]. apply extendsStore_insert with (t0 := t0); [done|].
      eapply extends_record; try done. by left.
  - unfold handleGetTaskPushNotificationConfig.
    destruct (missingId _); [apply extendsStore_refl|].
    destruct (schemas.taskId _); [|apply extendsStore_refl].
    destruct (TelexTaskStore.getTask _ _); apply extendsStore_refl.
  - unfold handleTaskResubscribe. destruct (missingId _); [apply extendsStore_refl|].
    destruct (schemas.taskId _) as [k|]; [|apply extendsStore_refl].
    unfold TelexTaskStore.getTask, TelexTaskStore.updateTask.
    destruct (cache !! k) as [t0|] eqn:Hk; [|apply extendsStore_refl].
    cbn [fst]. apply extendsStore_insert with (t0 := t0); [done|].
    eapply extends_record; try done. by left.
Qed.

(** X11: no request removes a task from the store, and a message request
    changes the store at one key only, the id of the task it creates. *)
Theorem requests_keep_stored_tasks (env : Env) (request : TelexRequest.t)
  (res : option Response.t) (taskCache : gmap jsstring TelexTask.t) :
  let after := (routeRequest env request res taskCache).1.1 in
  (forall key, is_Some (taskCache !! key) -> is_Some (after !! key))
  /\ (forall key,
        TelexRequest.method request ∈ messageMethods ->
        key <> newTaskId (now env) (randomSuffix env) ->
        after !! key = taskCache !! key).
Proof.
  intros after. subst after. unfold routeRequest.
  destruct (validateRequest request) as [e|]; [done|]. cbv zeta.
  pose proof (task_operations_extend env (TelexRequest.params request)
                (requestIdOf request) taskCache) as (Hg & Hc & Hs & Hp & Hr).
  fold (requestIdOf request).
  assert (forall after, extendsStore taskCache after ->
            forall key, is_Some (taskCache !! key) -> is_Some (after !! key)) as Hext.
  { intros after H key [t Ht]. destruct (H key t Ht) as (t' & -> & _). by eauto. }
  assert (forall x, x ∈ messageMethods ->
            x = Str (str "message/send") \/ x = Str (str "message/stream")) as Hmm.
  { intros x Hx. unfold messageMethods in Hx.
    apply elem_of_cons in Hx as [->|Hx]; [by left|].
    apply elem_of_cons in Hx as [->|Hx]; [by right|].
    by apply elem_of_nil in Hx. }
  destruct (TelexRequest.method request) as [|m|b] eqn:Hm;
    repeat case_bool_decide; subst; cbn [fst snd];
    try (split; [by eauto|]; intros key Hin; apply Hmm in Hin as [[=]|[=]]; done).
  - destruct (handleMessageSend_touches env (TelexRequest.params request)
                (requestIdOf request) taskCache) as [H1 H2].
    split; [done|]. intros key _ Hne. by apply H1.
  - destruct res as [res|]; [|done].
    destruct (handleMessageStream_touches env (TelexRequest.params request)
                (requestIdOf request) res taskCache) as [H1 H2].
    destruct (handleMessageStream _ _ _ _ _) as [[c r] [|]]; cbn [fst] in *;
      (split; [done|]); intros key _ Hne; by apply H1.
Qed.

(** X12: a request that is not a message request leaves every stored task
    in place and only extends it: same id, session and artifacts, the
    history kept with at most one record added at its end, and the state
    kept, or changed from working to canceled. *)
Theorem task_requests_extend_tasks (env : Env) (request : TelexRequest.t)
  (res : option Response.t) (taskCache : gmap jsstring TelexTask.t)
  (key : jsstring) (t : TelexTask.t) :
  TelexRequest.method request ∉ messageMethods ->
  taskCache !! key = Some t ->
  exists t', (routeRequest env request res taskCache).1.1 !! key = Some t'
             /\ extends t t'.
Proof.
  intros Hm Hk. unfold routeRequest.
  destruct (validateRequest request) as [e|]; [by apply extendsStore_refl|]. cbv zeta.
  pose proof (task_operations_extend env (TelexRequest.params request)
                (requestIdOf request) taskCache) as (Hg & Hc & Hs & Hp & Hr).
  fold (requestIdOf request).
  destruct (TelexRequest.method request) as [|m|b] eqn:Hmeth;
    repeat case_bool_decide; subst; cbn [fst snd];
    try (by apply extendsStore_refl); try (by eauto).
  - exfalso. apply Hm. unfold messageMethods. apply list_elem_of_here.
  - exfalso. apply Hm. unfold messageMethods.
    apply list_elem_of_further, list_elem_of_here.
Qed.

Lemma task_requests_extend_tasks_witness :
  exists t',
    (routeRequest (sampleEnv noGenerate)
       {| TelexRequest.method := Str (str "tasks/cancel");
          TelexRequest.params := paramsFor (Str sampleId) NoConfig;
          TelexRequest.id := Some (IdNum 1) |} None sampleCache).1.1 !! sampleId
    = Some t'
    /\ extends sampleTask t'.
Proof.
  apply (task_requests_extend_tasks (sampleEnv noGenerate)
           {| TelexRequest.method := Str (str "tasks/cancel");
              TelexRequest.params := paramsFor (Str sampleId) NoConfig;
              TelexRequest.id := Some (IdNum 1) |} None sampleCache sampleId sampleTask).
  - unfold messageMethods. intros H.
    repeat (apply elem_of_cons in H as [H|H]; [by vm_compute in H|]).
    by apply elem_of_nil in H.
  - vm_compute. reflexivity.
Defined.


(** X14: a task that message/send completed can be fetched by its id: a
    later tasks/get with the id of the answer returns that same task and
    leaves the store as it is; the age it reports and the processing time
    of the answer are differences of clock readings. *)
Theorem send_then_get (env env' : Env) (params : Params.t) (id id' : ReqId)
  (taskCache : gmap jsstring TelexTask.t) (message : TelexMessage.t)
  (searchQuery : jsstring) (task : TelexTask.t) (result : AnyResult) :
  accepted env params message searchQuery task ->
  generate env (extractionPrompt searchQuery) = Resolved result ->
  forallb is_task_id_char (randomSuffix env) = true ->
  now env 0%nat < 2 ^ 53 -> now env 6%nat < 2 ^ 53 -> now env' 1%nat < 2 ^ 53 ->
  let sent := handleMessageSend env (Some params) id taskCache in
  exists task',
    sent.2 =
      Success
        (SendResult task' (TelexTaskStatus.message (TelexTask.status task'))
           (Num (Z.of_N (now env 6%nat) - Z.of_N (now env 0%nat))%Z))
        id
    /\ stateOf task' = completed
    /\ handleTaskGet env' (paramsFor (Str (TelexTask.id task')) NoConfig) id' sent.1
       = (sent.1,
          Success
            (GetResult task' (now env' 0%nat)
               (Num (Z.of_N (now env' 1%nat) - Z.of_N (now env 0%nat))%Z))
            id').
Proof.
  intros (Hm & Hq & Ht) Hg Hrnd H0 H6 H1 sent. subst sent. unfold handleMessageSend.
  rewrite Hm, Hq, Ht, Hg.
  pose proof (createTask_id _ _ _ _ _ _ Ht) as Hid.
  pose proof (newTaskId_wellFormed (now env) (randomSuffix env) Hrnd) as Hwf.
  unfold completeTask, TelexTaskStore.updateTask, TelexTaskStore.createTask.
  cbn [fst snd TelexTask.id TelexTask.status TelexTaskStatus.message].
  rewrite Hid, elapsedSince_newTaskId by done.
  match goal with |- context [SendResult ?t _ _] => exists t end.
  split; [reflexivity|]. split; [done|].
  unfold handleTaskGet, paramsFor, missingId, idOf, schemas.taskId.
  cbn [Params.id TelexTask.id].
  destruct (newTaskId (now env) (randomSuffix env)) as [|c k] eqn:Hk; [done|].
  cbn [truthy negb]. rewrite bool_decide_eq_false_2 by done. cbn [negb].
  rewrite (validateTaskId_wellFormed _ Hwf).
  unfold TelexTaskStore.getTask. rewrite lookup_insert_eq.
  cbn [TelexTask.id]. rewrite <- Hk, elapsedSince_newTaskId by done. done.
Qed.

Lemma send_then_get_witness :
  let env := sampleEnv (fun _ => Resolved (Obj noBooksFound)) in
  let sent := handleMessageSend env (Some (sendParams "Sherlock Holmes")) (IdNum 1) ∅ in
  exists task',
    sent.2 =
      Success
        (SendResult task' (TelexTaskStatus.message (TelexTask.status task'))
           (Num (Z.of_N (now env 6%nat) - Z.of_N (now env 0%nat))%Z))
        (IdNum 1)
    /\ stateOf task' = completed
    /\ handleTaskGet env (paramsFor (Str (TelexTask.id task')) NoConfig) (IdNum 2) sent.1
       = (sent.1,
          Success
            (GetResult task' (now env 0%nat)
               (Num (Z.of_N (now env 1%nat) - Z.of_N (now env 0%nat))%Z))
            (IdNum 2)).
Proof.
  intros env.
  apply (send_then_get env env (sendParams "Sherlock Holmes") (IdNum 1) (IdNum 2) ∅
           (textMessage user (str "Sherlock Holmes")) (str "Sherlock Holmes")
           sampleTask (Obj noBooksFound)).
  - split_and!; vm_compute; reflexivity.
  - vm_compute. reflexivity.
  - vm_compute. reflexivity.
  - vm_compute. reflexivity.
  - vm_compute. reflexivity.
  - vm_compute. reflexivity.
Defined.

(** * The search helper and the tool *)

Lemma num_below_iterations (j : nat) (maxRetries : Q) :
  (j < iterations maxRetries)%nat -> Qeq_bool (num j) maxRetries = false.
Proof.
  intros Hj. destruct (Qeq_bool (num j) maxRetries) eqn:Heq; [|done].
  apply Qeq_bool_eq in Heq. unfold iterations in Hj.
  rewrite <- (Qfloor_comp _ _ Heq) in Hj. unfold num in Hj. rewrite Qfloor_Z in Hj. lia.
Qed.

Lemma searchLoop_succeeds {R E : Type} (get : nat -> R + E) (err : nat -> E)
  (maxRetries : Q) (k : nat) (response : R) :
  get k = inl response ->
  forall n attempt,
    (attempt + n = k)%nat -> (k <= iterations maxRetries)%nat ->
    (forall j, (attempt <= j < k)%nat -> get j = inr (err j)) ->
    forall fuel, (n < fuel)%nat ->
    searchLoop get maxRetries fuel attempt =
      (backoffTrace attempt n ++ [Request k], Returns response).
Proof.
  intros Hk. induction n as [|n IH]; intros attempt Hsum Hle Hfail fuel Hfuel.
  - assert (attempt = k) by lia. subst attempt.
    destruct fuel as [|fuel]; [lia|]. by rewrite searchLoop_S, Hk.
  - destruct fuel as [|fuel]; [lia|].
    rewrite searchLoop_S, (Hfail attempt) by lia.
    rewrite num_below_iterations by lia.
    rewrite (IH (S attempt)) by (try lia; intros; apply Hfail; lia).
    reflexivity.
Qed.

Lemma sleeps_app (a b : list Event) : sleeps (a ++ b) = sleeps a ++ sleeps b.
Proof. unfold sleeps. by rewrite omap_app. Qed.

Lemma requests_app (a b : list Event) : requests (a ++ b) = requests a ++ requests b.
Proof. unfold requests. by rewrite omap_app. Qed.

Lemma backoff_sum (count : nat) :
  foldr N.add 0 (map (fun attempt => 2 ^ N.of_nat attempt * 1000) (seq 1 count))
  = (2 ^ N.of_nat (S count) - 2) * 1000.
Proof.
  induction count as [|n IH]; [done|].
  rewrite seq_S, map_app, foldr_app. cbn [map foldr].
  replace (foldr N.add (2 ^ N.of_nat (1 + n) * 1000 + 0)
             (map (fun attempt => 2 ^ N.of_nat attempt * 1000) (seq 1 n)))
    with (foldr N.add 0 (map (fun attempt => 2 ^ N.of_nat attempt * 1000) (seq 1 n))
          + 2 ^ N.of_nat (1 + n) * 1000).
  - rewrite IH. replace (N.of_nat (S (S n))) with (N.succ (N.of_nat (S n))) by lia.
    rewrite N.pow_succ_r'. cbn [Nat.add].
    assert (2 <= 2 ^ N.of_nat (S n)) as Hge.
    { replace (N.of_nat (S n)) with (N.succ (N.of_nat n)) by lia.
      rewrite N.pow_succ_r'. pose proof (N.pow_nonzero 2 (N.of_nat n)). lia. }
    lia.
  - generalize (2 ^ N.of_nat (1 + n) * 1000). clear. intros x.
    induction (map _ _) as [|y l IH]; cbn; [lia|]. rewrite <- IH. lia.
Qed.

Lemma backoff_waits (first count : nat) :
  (first + count <= 22)%nat ->
  map (fun attempt => timerDuration (2 ^ N.of_nat attempt * 1000)) (seq first count)
  = map (fun attempt => 2 ^ N.of_nat attempt * 1000) (seq first count).
Proof.
  intros Hle. apply map_ext_in. intros a Ha. apply in_seq in Ha.
  apply timerDuration_backoff. lia.
Qed.

(** X15: when the first [k - 1] attempts of a search fail and attempt [k],
    at most [maxRetries], succeeds, the helper returns that response after
    exactly [k] requests, having waited after each failed attempt:
    [2 ^ attempt] seconds each time and [2 ^ k - 2] seconds in all as long
    as [k] is at most 22. [maxRetries] is any number here, whole or not. *)
Theorem search_succeeds_at_attempt {R E : Type} (get : jsstring -> nat -> R + E)
  (err : nat -> E) (searchQuery encodedQuery : jsstring) (maxRetries : Q) (k : nat)
  (response : R) :
  encodeURIComponent searchQuery = Some encodedQuery ->
  (1 <= k <= iterations maxRetries)%nat ->
  (forall j, (1 <= j < k)%nat -> get (searchUrl encodedQuery) j = inr (err j)) ->
  get (searchUrl encodedQuery) k = inl response ->
  let search := searchGutenbergBooks get searchQuery maxRetries in
  search.2 = Returns response
  /\ search.1 = backoffTrace 1 (k - 1) ++ [Request k]
  /\ requests search.1 = seq 1 k
  /\ ((k <= 22)%nat ->
      sleeps search.1 = map (fun attempt => 2 ^ N.of_nat attempt * 1000) (seq 1 (k - 1))
      /\ totalWait search.1 = (2 ^ N.of_nat k - 2) * 1000).
Proof.
  intros Henc Hk Hfail Hget search. subst search. unfold searchGutenbergBooks.
  rewrite Henc.
  rewrite (searchLoop_succeeds (get (searchUrl encodedQuery)) err maxRetries k response
             Hget (k - 1) 1) by (try lia; done).
  cbn [fst snd]. split; [done|]. split; [done|]. split.
  - rewrite requests_app, requests_backoffTrace. cbn [requests omap].
    assert (seq 1 k = seq 1 (k - 1) ++ [k]) as ->; [|done].
    replace k with (S (k - 1)) at 1 by lia. rewrite seq_S. do 2 f_equal. lia.
  - intros Hsmall.
    assert (sleeps (backoffTrace 1 (k - 1) ++ [Request k])
            = map (fun attempt => 2 ^ N.of_nat attempt * 1000) (seq 1 (k - 1))) as Hs.
    { rewrite sleeps_app, sleeps_backoffTrace, backoff_waits by lia.
      cbn. by rewrite app_nil_r. }
    split; [done|]. unfold totalWait. rewrite Hs, backoff_sum.
    by replace (S (k - 1)) with k by lia.
Qed.

Lemma search_succeeds_at_attempt_witness :
  let search :=
    searchGutenbergBooks
      (fun _ attempt => if (attempt <? 3)%nat then inr attempt else inl attempt)
      (str "Sherlock Holmes") defaultMaxRetries in
  search.2 = Returns 3%nat
  /\ search.1 = backoffTrace 1 2 ++ [Request 3]
  /\ requests search.1 = [1; 2; 3]%nat
  /\ sleeps search.1 = [2000; 4000]
  /\ totalWait search.1 = 6000.
Proof.
  destruct (search_succeeds_at_attempt
           (fun _ attempt => if (attempt <? 3)%nat then inr attempt else inl attempt)
           (fun j => j) (str "Sherlock Holmes") (str "Sherlock%20Holmes")
           defaultMaxRetries 3 3%nat) as (H1 & H2 & H3 & H4).
  - reflexivity.
  - vm_compute. lia.
  - intros j Hj. destruct (Nat.ltb_spec j 3); [done|lia].
  - reflexivity.
  - destruct H4 as [H4 H5]; [lia|]. split_and!; assumption.
Defined.

Lemma requests_cons_request (a : nat) (l : list Event) :
  requests (Request a :: l) = a :: requests l.
Proof. reflexivity. Qed.

Lemma requests_cons_sleep (ms : N) (l : list Event) : requests (Sleep ms :: l) = requests l.
Proof. reflexivity. Qed.

Lemma searchLoop_bounds {R E : Type} (get : nat -> R + E) (maxRetries : nat) :
  forall n attempt,
    (attempt + n = S maxRetries)%nat ->
    let '(events, outcome) := searchLoop get (num maxRetries) n attempt in
    (length (requests events) <= n)%nat
    /\ (outcome = ReturnsUndefined <-> n = 0%nat)
    /\ outcome <> ThrowsURIError.
Proof.
  induction n as [|n IH]; intros attempt Hsum; [done|].
  rewrite searchLoop_S. destruct (get attempt) as [response|error].
  - rewrite requests_cons_request. cbn [length requests]. split; [cbn; lia|].
    split; [|done]. split; [done|lia].
  - rewrite num_eqb. destruct (Nat.eqb_spec attempt maxRetries) as [->|Hne].
    + rewrite requests_cons_request. split; [cbn; lia|]. split; [|done]. split; [done|lia].
    + specialize (IH (S attempt) ltac:(lia)).
      destruct (searchLoop get (num maxRetries) n (S attempt)) as [events outcome].
      destruct IH as (Hlen & Hout & Huri).
      rewrite requests_cons_request, requests_cons_sleep. cbn [length].
      split; [lia|]. split; [|done]. split; [|lia]. intros H. apply Hout in H. lia.
Qed.

Lemma searchGutenbergBooks_bounds {R E : Type} (get : jsstring -> nat -> R + E)
  (searchQuery : jsstring) (maxRetries : nat) :
  let search := searchGutenbergBooks get searchQuery (num maxRetries) in
  (length (requests search.1) <= maxRetries)%nat
  /\ (search.2 = ReturnsUndefined <-> maxRetries = 0%nat /\ wellFormed searchQuery = true)
  /\ (search.2 = ThrowsURIError <-> wellFormed searchQuery = false)
  /\ (maxRetries = 0%nat \/ wellFormed searchQuery = false -> search.1 = []).
Proof.
  intros search. subst search. unfold searchGutenbergBooks.
  pose proof (encodeURIComponent_wellFormed searchQuery) as Hwf.
  destruct (encodeURIComponent searchQuery) as [encodedQuery|].
  - assert (wellFormed searchQuery = true) as -> by (apply Hwf; by eexists).
    rewrite iterations_num.
    pose proof (searchLoop_bounds (get (searchUrl encodedQuery)) maxRetries maxRetries 1
                  ltac:(lia)) as H.
    destruct (searchLoop _ _ _ _) as [events outcome] eqn:Hloop.
    destruct H as (H1 & H2 & H3). cbn [fst snd]. split; [done|]. split; [|split].
    + rewrite H2. split; [done|by intros [? _]].
    + split; [done|done].
    + intros [->|?]; [|done]. cbn in Hloop. by inversion Hloop.
  - assert (wellFormed searchQuery = false) as ->.
    { destruct (wellFormed searchQuery); [|done].
      destruct (proj2 Hwf eq_refl) as [? ?]. done. }
    cbn. split; [lia|]. split; [|split]; [|done|done].
    split; [done|by intros [_ ?]].
Qed.

(** X16: a search with a whole number [maxRetries] makes at most
    [maxRetries] requests. It throws a URIError, before any request,
    exactly when the query holds a lone surrogate, and it returns
    undefined, without a response and without an error, exactly when
    [maxRetries] is 0 and the query can be encoded; so with the default of
    3 it always returns a response or throws. *)
Theorem search_request_bound {R E : Type} (get : jsstring -> nat -> R + E)
  (searchQuery : jsstring) (maxRetries : nat) :
  let search := searchGutenbergBooks get searchQuery (num maxRetries) in
  (length (requests search.1) <= maxRetries)%nat
  /\ (search.2 = ReturnsUndefined <-> maxRetries = 0%nat /\ wellFormed searchQuery = true)
  /\ (search.2 = ThrowsURIError <-> wellFormed searchQuery = false)
  /\ (maxRetries = 0%nat \/ wellFormed searchQuery = false -> search.1 = []).
Proof. apply searchGutenbergBooks_bounds. Qed.

Lemma searchLoop_fraction {R E : Type} (get : nat -> R + E) (err : nat -> E)
  (maxRetries : Q) :
  (forall n : nat, ~ (num n == maxRetries)%Q) ->
  forall n attempt,
    (forall k, (attempt <= k < attempt + n)%nat -> get k = inr (err k)) ->
    searchLoop get maxRetries n attempt = (backoffTrace attempt n, ReturnsUndefined).
Proof.
  intros Hfrac. induction n as [|n IH]; intros attempt Hfail; [done|].
  rewrite searchLoop_S, (Hfail attempt) by lia.
  destruct (Qeq_bool (num attempt) maxRetries) eqn:Heq.
  - apply Qeq_bool_eq in Heq. by apply Hfrac in Heq.
  - rewrite (IH (S attempt)) by (intros; apply Hfail; lia). reflexivity.
Qed.

(** With a [maxRetries] that is not a whole number, a search whose
    attempts all fail makes one request for every whole number up to
    [maxRetries], waits after each of them, the last one too, and returns
    undefined: no error reaches the caller. The default of 3, the only
    value the tool uses, is whole. *)
Lemma search_fraction_swallows_error {R E : Type} (get : jsstring -> nat -> R + E)
  (err : nat -> E) (searchQuery encodedQuery : jsstring) (maxRetries : Q) :
  (forall n : nat, ~ (num n == maxRetries)%Q) ->
  encodeURIComponent searchQuery = Some encodedQuery ->
  (forall k, (1 <= k <= iterations maxRetries)%nat ->
     get (searchUrl encodedQuery) k = inr (err k)) ->
  let search := searchGutenbergBooks get searchQuery maxRetries in
  search.2 = ReturnsUndefined
  /\ search.1 = backoffTrace 1 (iterations maxRetries)
  /\ requests search.1 = seq 1 (iterations maxRetries).
Proof.
  intros Hfrac Henc Hfail search. subst search. unfold searchGutenbergBooks.
  rewrite Henc, (searchLoop_fraction _ err maxRetries Hfrac) by (intros; apply Hfail; lia).
  cbn [fst snd]. split; [done|]. split; [done|]. apply requests_backoffTrace.
Qed.

Lemma extractCleanExcerpt_length (fullText bookTitle : jsstring) :
  (1 <= length (extractCleanExcerpt fullText bookTitle) <= 500)%nat.
Proof.
  unfold extractCleanExcerpt. cbv zeta.
  match goal with |- context [ensureLength ?l ?i ?e] =>
    pose proof (ensureLength_bound l i e) as Hb;
    destruct (ensureLength l i e) end.
  - vm_compute. lia.
  - cbn [length] in *. lia.
Qed.

Lemma resultOfError_error (error : Thrown) :
  is_Some (BookResult.error (BookTool.resultOfError error)).
Proof.
  destruct error as [| | | |code response request message|]; cbn; try by eauto.
  unfold BookTool.handleAxiosError. repeat case_match; cbn; by eauto.
Qed.

Lemma afterSearch_shape fetch URL_parses searchResponse r :
  BookTool.afterSearch fetch URL_parses searchResponse = Ok r ->
  is_Some (BookResult.error r) \/ isBookRecord r.
Proof.
  unfold BookTool.afterSearch.
  destruct searchResponse as [|[|[book|] rest]]; try done.
  { intros [= <-]. left. cbn. by eauto. }
  cbv zeta.
  set (title := match Book.title book with Some ((_ :: _) as t) => t | _ => _ end).
  assert (title <> []) as Htitle.
  { subst title. by destruct (Book.title book) as [[|]|]. }
  clearbody title.
  destruct (BookTool.orLink _ _) as [[|c url]|].
  - intros [= <-]. left. cbn. by eauto.
  - destruct (URL_parses _); cbn [negb]; [|done].
    destruct (BookTool.fetchBookContent _ _ _) as [[|[|d fullText]|]|]; cbn; try done.
    intros [= <-]. right. unfold isBookRecord. cbn.
    split_and!; try done; try by eauto.
    eexists. split; [done|]. apply extractCleanExcerpt_length.
  - intros [= <-]. left. cbn. by eauto.
Qed.

Lemma execute_blank get fetch URL_parses (searchQuery : jsstring) :
  trim searchQuery = [] ->
  BookTool.execute get fetch URL_parses searchQuery = ([], emptyQueryResult).
Proof. intros H. unfold BookTool.execute. by rewrite H. Qed.

Lemma execute_not_blank get fetch URL_parses (searchQuery : jsstring) :
  trim searchQuery <> [] ->
  BookTool.execute get fetch URL_parses searchQuery =
    let '(events, outcome) := searchGutenbergBooks get searchQuery defaultMaxRetries in
    (events,
     match outcome with
     | Returns searchResponse =>
         match BookTool.afterSearch fetch URL_parses searchResponse with
         | Ok r => r
         | Throw error => BookTool.resultOfError error
         end
     | Throws error => BookTool.resultOfError error
     | ThrowsURIError => BookTool.resultOfError (Error (str "URI malformed"))
     | ReturnsUndefined =>
         BookTool.resultOfError
           (Error (str "Cannot read properties of undefined (reading 'data')"))
     end).
Proof. intros H. unfold BookTool.execute. by destruct (trim searchQuery). Qed.

(** X17: the tool always answers with a result, either of the error shape
    or a complete book record whose excerpt has 1 to 500 code units; it
    makes at most three search requests, and none for a query that is
    blank, which it answers with the validation error. *)
Theorem execute_result_shape (get : jsstring -> nat -> SearchResponse + Thrown)
  (fetch : jsstring -> unknown + Thrown) (URL_parses : jsstring -> bool)
  (searchQuery : jsstring) :
  let run := BookTool.execute get fetch URL_parses searchQuery in
  (is_Some (BookResult.error run.2) \/ isBookRecord run.2)
  /\ (length (requests run.1) <= 3)%nat
  /\ (trim searchQuery = [] -> run.1 = [] /\ run.2 = emptyQueryResult).
Proof.
  intros run. subst run.
  destruct (decide (trim searchQuery = [])) as [Hb|Hb].
  - rewrite execute_blank by done. split; [left; cbn; by eauto|]. split; [cbn; lia|done].
  - rewrite execute_not_blank by done.
    pose proof (searchGutenbergBooks_bounds get searchQuery 3) as H.
    cbv zeta in H. change (num 3) with defaultMaxRetries in H.
    destruct (searchGutenbergBooks _ _ _) as [events outcome].
    destruct H as (Hlen & _ & _). cbn [fst snd] in *. split; [|split; [done|done]].
    destruct outcome as [sr|e| |]; try (left; apply resultOfError_error).
    destruct (BookTool.afterSearch _ _ _) eqn:Ha; [|left; apply resultOfError_error].
    by eapply afterSearch_shape.
Qed.

(** X18: when all three attempts of the search fail, the tool makes three
    requests with waits of 2 and 4 seconds between them and answers with
    the error result of the last failure; when that failure is a timeout
    of the request, the result is the timeout error of the search. *)
Theorem execute_when_search_fails (get : jsstring -> nat -> SearchResponse + Thrown)
  (fetch : jsstring -> unknown + Thrown) (URL_parses : jsstring -> bool)
  (searchQuery encodedQuery : jsstring) (err : nat -> Thrown) :
  trim searchQuery <> [] ->
  encodeURIComponent searchQuery = Some encodedQuery ->
  (forall k, (1 <= k <= 3)%nat -> get (searchUrl encodedQuery) k = inr (err k)) ->
  BookTool.execute get fetch URL_parses searchQuery
  = ([Request 1; Sleep 2000; Request 2; Sleep 4000; Request 3],
     BookTool.resultOfError (err 3%nat))
  /\ (forall response request message,
        err 3%nat = AxiosError (Some (str "ECONNABORTED")) response request message ->
        (BookTool.execute get fetch URL_parses searchQuery).2 = timeoutResult).
Proof.
  intros Hq Henc Hfail.
  assert (BookTool.execute get fetch URL_parses searchQuery
          = ([Request 1; Sleep 2000; Request 2; Sleep 4000; Request 3],
             BookTool.resultOfError (err 3%nat))) as Hex.
  { rewrite execute_not_blank by done.
    unfold searchGutenbergBooks. rewrite Henc.
    change (iterations defaultMaxRetries) with 3%nat.
    change defaultMaxRetries with (num 3).
    rewrite (searchLoop_all_fail (get (searchUrl encodedQuery)) err 3 2 1)
      by (try lia; done).
    reflexivity. }
  split; [done|]. intros response request message Herr.
  rewrite Hex. cbn [snd]. rewrite Herr. reflexivity.
Qed.

Lemma execute_when_search_fails_witness :
  let timeout := AxiosError (Some (str "ECONNABORTED")) None true
                   (str "timeout of 10000ms exceeded") in
  BookTool.execute (fun _ _ => inr timeout) (fun _ => inl Undefined) (fun _ => true)
    (str "Sherlock Holmes")
  = ([Request 1; Sleep 2000; Request 2; Sleep 4000; Request 3], timeoutResult).
Proof.
  intros timeout.
  destruct (execute_when_search_fails (fun _ _ => inr timeout) (fun _ => inl Undefined)
              (fun _ => true) (str "Sherlock Holmes") (str "Sherlock%20Holmes")
              (fun _ => timeout)) as [H _].
  - vm_compute. discriminate.
  - reflexivity.
  - reflexivity.
  - exact H.
Defined.

(** X19: a query that holds a lone surrogate and is not blank never reaches
    the catalog: the tool makes no request and answers with the result of
    an unknown error whose details are those of the URIError. *)
Theorem execute_lone_surrogate (get : jsstring -> nat -> SearchResponse + Thrown)
  (fetch : jsstring -> unknown + Thrown) (URL_parses : jsstring -> bool)
  (searchQuery : jsstring) :
  trim searchQuery <> [] ->
  wellFormed searchQuery = false ->
  BookTool.execute get fetch URL_parses searchQuery = ([], uriMalformedResult).
Proof.
  intros Hq Hwf. rewrite execute_not_blank by done.
  by rewrite search_lone_surrogate.
Qed.

Lemma execute_lone_surrogate_witness :
  BookTool.execute emptyCatalog (fun _ => inl Undefined) (fun _ => true) [0xD800]
  = ([], uriMalformedResult).
Proof.
  apply execute_lone_surrogate.
  - vm_compute. discriminate.
  - reflexivity.
Defined.

(** * The shape of the excerpt *)

Lemma replace_go_Forall (P : N -> Prop) (r : regex) (repl : jsstring) :
  Forall P repl ->
  forall s skip prev, Forall P s -> Forall P (replace_go r repl skip prev s).
Proof.
  intros Hrepl. induction s as [|c s IH]; intros skip prev Hs.
  - destruct skip; cbn; [|done]. destruct (exec_at r prev []); [|done].
    rewrite app_nil_r. done.
  - inversion Hs as [|? ? Hc Hs']; subst. destruct skip as [|n]; cbn [replace_go].
    + destruct (exec_at r prev (c :: s)) as [rest|].
      * apply Forall_app. split; [done|].
        destruct (length (c :: s) - length rest)%nat; [constructor; [done|]|]; by apply IH.
      * constructor; [done|]. by apply IH.
    + by apply IH.
Qed.

Lemma replace_all_Forall (P : N -> Prop) (r : regex) (repl s : jsstring) :
  Forall P repl -> Forall P s -> Forall P (replace_all r repl s).
Proof. intros. by apply replace_go_Forall. Qed.

Lemma exec_re_newlines (prev : option N) (s : jsstring) :
  exec_at re_newlines prev s = crlf_run s.
Proof. apply plus_crlf_Kend. Qed.

Lemma length_drop_while (p : N -> bool) (s : jsstring) :
  (length (drop_while p s) <= length s)%nat.
Proof. induction s as [|c s IH]; cbn; [done|]. destruct (p c); cbn; lia. Qed.

Lemma split_go_newlines_pieces (s : jsstring) :
  forall skip prev cur,
    Forall (fun c => is_crlf c = false) cur ->
    Forall (Forall (fun c => is_crlf c = false)) (split_go re_newlines skip prev cur s).
Proof.
  induction s as [|c s IH]; intros skip prev cur Hcur; cbn [split_go].
  - by repeat constructor.
  - destruct skip as [|n]; [|by apply IH].
    rewrite exec_re_newlines. cbn [crlf_run].
    destruct (is_crlf c) eqn:Hc.
    + pose proof (length_drop_while is_crlf s) as Hlen.
      destruct (length (c :: s) - length (drop_while is_crlf s))%nat eqn:Hd.
      { cbn [length] in Hd. lia. }
      constructor; [done|]. by apply IH.
    + apply IH. apply Forall_app. split; [done|]. by repeat constructor.
Qed.

Lemma split_newlines_pieces (s : jsstring) :
  Forall (Forall (fun c => is_crlf c = false)) (split re_newlines s).
Proof.
  unfold split. destruct s as [|c s].
  - destruct (exec_at _ _ _); by repeat constructor.
  - by apply split_go_newlines_pieces.
Qed.

Lemma Forall_list_filter {A} (P : A -> Prop) (f : A -> bool) (l : list A) :
  Forall P l -> Forall P (List.filter f l).
Proof.
  induction 1 as [|x l Hx _ IH]; [done|]. cbn. destruct (f x); [by constructor|done].
Qed.

Lemma nonBlankLines_pieces (s : jsstring) :
  Forall (Forall (fun c => is_crlf c = false)) (nonBlankLines s).
Proof. apply Forall_list_filter, split_newlines_pieces. Qed.

Lemma join_Forall (P : N -> Prop) (sep : jsstring) (l : list jsstring) :
  Forall P sep -> Forall (Forall P) l -> Forall P (join sep l).
Proof.
  intros Hsep. induction 1 as [|x l Hx Hl IH]; [done|].
  destruct l as [|y l]; [done|].
  change (join sep (x :: y :: l)) with (x ++ sep ++ join sep (y :: l)).
  by rewrite !Forall_app.
Qed.

Lemma slice_Forall {A} (P : A -> Prop) (a b : nat) (l : list A) :
  Forall P l -> Forall P (slice a b l).
Proof. intros H. unfold slice. by apply Forall_take, Forall_drop. Qed.

Lemma trim_Forall (P : N -> Prop) (s : jsstring) : Forall P s -> Forall P (trim s).
Proof.
  intros H. destruct (trim_decomp s) as (ws1 & ws2 & Hs & _).
  rewrite Hs in H. apply Forall_app in H as [_ H]. by apply Forall_app in H as [H _].
Qed.

Lemma cleanUp_Forall (P : N -> Prop) (s : jsstring) :
  P 32 -> P 34 -> P 39 -> Forall P s -> Forall P (cleanUp s).
Proof.
  intros H32 H34 H39 Hs. unfold cleanUp.
  repeat apply replace_all_Forall; try done; by repeat constructor.
Qed.

Lemma cleanUp_allowed (s : jsstring) :
  Forall (fun c => allowedChar c = true) (cleanUp s).
Proof.
  unfold cleanUp, re_disallowed. rewrite replace_all_chr.
  apply Forall_forall. intros c Hc. apply list_elem_of_In, filter_In in Hc as [_ Hc].
  by rewrite negb_involutive in Hc.
Qed.

Lemma ensureLength_Forall (P : N -> Prop) (lines : list jsstring) (startIndex : nat)
  (excerpt : jsstring) :
  P 32 -> P 46 -> Forall (Forall P) lines -> Forall P excerpt ->
  Forall P (ensureLength lines startIndex excerpt).
Proof.
  intros H32 H46 Hlines Hex. unfold ensureLength, substring.
  assert (Forall P (str "...")) as Hdots by (by repeat constructor).
  repeat case_match; try done.
  - apply Forall_app. split; [by apply slice_Forall|done].
  - apply Forall_app. split; [|done]. apply slice_Forall.
    rewrite !Forall_app. split_and!; try done; [by repeat constructor|].
    apply trim_Forall, join_Forall; [by repeat constructor|by apply slice_Forall].
Qed.

(** X20: the excerpt is one line: it never holds a carriage return or a line
    feed; and unless the short excerpt is extended with further lines,
    every code unit of it is a word character, white space or one of the
    punctuation marks that the clean-up keeps. *)
Theorem excerpt_is_one_line (fullText bookTitle : jsstring) :
  let lines := nonBlankLines (stripBoilerplate fullText) in
  let startIndex := startIndexOf lines in
  let cleaned :=
    cleanUp (trim (join (str " ") (slice startIndex (startIndex + 10) lines))) in
  let excerpt := extractCleanExcerpt fullText bookTitle in
  noLineBreak excerpt = true
  /\ ((100 <= length cleaned)%nat \/ (length lines <= startIndex + 10)%nat ->
      forallb allowedChar excerpt = true).
Proof.
  intros lines startIndex cleaned excerpt.
  assert (Hex : excerpt =
                match ensureLength lines startIndex cleaned with
                | [] => placeholder
                | _ :: _ => ensureLength lines startIndex cleaned
                end) by reflexivity.
  pose proof (nonBlankLines_pieces (stripBoilerplate fullText)) as Hlines.
  fold lines in Hlines.
  split.
  - apply Forall_true_forallb. rewrite Hex.
    assert (Forall (fun c => negb (is_crlf c) = true)
              (ensureLength lines startIndex cleaned)) as H.
    { apply ensureLength_Forall; try done.
      - eapply Forall_impl; [exact Hlines|]. intros l Hl.
        eapply Forall_impl; [exact Hl|]. by intros c ->.
      - apply cleanUp_Forall; try done.
        apply trim_Forall, join_Forall; [by repeat constructor|].
        apply slice_Forall. eapply Forall_impl; [exact Hlines|]. intros l Hl.
        eapply Forall_impl; [exact Hl|]. by intros c ->. }
    destruct (ensureLength lines startIndex cleaned); [|done].
    apply forallb_true_Forall. vm_compute. reflexivity.
  - intros Hcase. apply Forall_true_forallb. rewrite Hex.
    assert (Forall (fun c => allowedChar c = true)
              (ensureLength lines startIndex cleaned)) as H.
    { pose proof (cleanUp_allowed
                    (trim (join (str " ") (slice startIndex (startIndex + 10) lines))))
        as Hc. fold cleaned in Hc.
      unfold ensureLength, substring. destruct (500 <? length cleaned)%nat.
      - apply Forall_app. split; [by apply slice_Forall|by repeat constructor].
      - assert ((length cleaned <? 100)%nat && (startIndex + 10 <? length lines)%nat
                = false) as ->; [|done].
        apply andb_false_iff. destruct Hcase; [left|right]; apply Nat.ltb_ge; lia. }
    destruct (ensureLength lines startIndex cleaned); [|done].
    apply forallb_true_Forall. vm_compute. reflexivity.
Qed.

(** * The rate limiter *)

Import RateLimiter.

Lemma limitRun_cons identifier maxRequests windowMs dateNow times requests :
  limitRun identifier maxRequests windowMs (dateNow :: times) requests =
    let '(requests', verdict) :=
      checkLimit dateNow identifier maxRequests windowMs requests in
    let '(requests'', verdicts) :=
      limitRun identifier maxRequests windowMs times requests' in
    (requests'', verdict :: verdicts).
Proof. reflexivity. Qed.

Lemma roundedMagnitude_small (a : Z) : (a < 2 ^ 53)%Z -> roundedMagnitude a = a.
Proof. intros H. unfold roundedMagnitude. apply Z.ltb_lt in H. by rewrite H. Qed.

(** Inside a window that holds [c] requests so far and ends at [reset]. *)
Lemma limitRun_in_window (identifier : jsstring) (m reset : Z) (w : number)
  (times : list Z) :
  (m < 2 ^ 53)%Z ->
  Forall (fun t => (t <= reset)%Z) times ->
  forall (c : Z) (requests : gmap jsstring Entry),
    requests !! identifier = Some (mkEntry c (Num reset)) ->
    (1 <= c)%Z ->
    let '(requests', verdicts) :=
      limitRun identifier (Num m) w times requests in
    verdicts =
      replicate (Nat.min (length times) (Z.to_nat (m - c))) Allowed
      ++ replicate (length times - Z.to_nat (m - c)) (Refused (Num reset))
    /\ requests' !! identifier
       = Some (mkEntry (c + Z.of_nat (Nat.min (length times) (Z.to_nat (m - c))))
                 (Num reset))
    /\ forall other, other <> identifier -> requests' !! other = requests !! other.
Proof.
  intros Hm. induction 1 as [|t times Ht _ IH]; intros c requests Hc Hpos.
  - cbn. split; [done|]. split; [|done]. rewrite Hc. do 2 f_equal. lia.
  - rewrite limitRun_cons. unfold checkLimit. rewrite Hc. cbn [resetTime count gt ge].
    assert ((reset <? t)%Z = false) as -> by (apply Z.ltb_ge; lia).
    destruct (Z.leb_spec m c) as [Hfull|Hroom].
    + specialize (IH c requests Hc Hpos).
      destruct (limitRun _ _ _ times requests) as [requests' verdicts].
      destruct IH as (Hv & He & Hf).
      replace (Z.to_nat (m - c)) with 0%nat in * by lia.
      rewrite Nat.min_0_r in *. cbn [replicate app] in *.
      rewrite Nat.sub_0_r in *. cbn [length replicate]. by rewrite Hv.
    + rewrite roundedMagnitude_small by lia.
      specialize (IH (c + 1)%Z
                    (<[identifier := mkEntry (c + 1) (Num reset)]> requests)).
      rewrite lookup_insert_eq in IH. specialize (IH eq_refl ltac:(lia)).
      destruct (limitRun _ _ _ times _) as [requests' verdicts].
      destruct IH as (Hv & He & Hf).
      replace (Z.to_nat (m - c)) with (S (Z.to_nat (m - (c + 1)))) by lia.
      cbn [length Nat.min replicate app Nat.sub].
      split; [by rewrite Hv|]. split.
      * rewrite He. do 2 f_equal. lia.
      * intros other Hne. rewrite Hf by done. by rewrite lookup_insert_ne.
Qed.

(** X21: in one window the limiter lets through as many requests of an
    identifier as [maxRequests] says, but at least one: of [n] calls that
    start with no entry for the identifier and come no later than
    [windowMs] after the first, the first [max maxRequests 1] are allowed
    and the others are refused with the end of the window; the entries of
    other identifiers are left as they are. The limit and the end of the
    window are whole numbers below 2^53. *)
Theorem rate_limit_window (identifier : jsstring) (m w t0 : Z) (times : list Z)
  (requests : gmap jsstring Entry) :
  requests !! identifier = None ->
  (m < 2 ^ 53)%Z ->
  (Z.abs (t0 + w) < 2 ^ 53)%Z ->
  Forall (fun t => (t <= t0 + w)%Z) times ->
  let run := limitRun identifier (Num m) (Num w) (t0 :: times) requests in
  let quota := Z.to_nat (Z.max m 1) in
  run.2 =
    replicate (Nat.min (S (length times)) quota) Allowed
    ++ replicate (S (length times) - quota) (Refused (Num (t0 + w)%Z))
  /\ allowedCount run.2 = Nat.min (S (length times)) quota
  /\ forall other, other <> identifier -> run.1 !! other = requests !! other.
Proof.
  intros Hnone Hm Hw Htimes run. subst run. rewrite limitRun_cons. unfold checkLimit.
  rewrite Hnone. cbn [plus]. rewrite (toDouble_small _ Hw).
  pose proof (limitRun_in_window identifier m (t0 + w) (Num w) times Hm Htimes 1
                (<[identifier := mkEntry 1 (Num (t0 + w)%Z)]> requests)) as H.
  rewrite lookup_insert_eq in H. specialize (H eq_refl ltac:(lia)).
  destruct (limitRun _ _ _ times _) as [requests' verdicts].
  destruct H as (Hv & _ & Hf). cbv zeta. cbn [fst snd].
  assert (Z.to_nat (Z.max m 1) = S (Z.to_nat (m - 1))) as -> by lia.
  cbn [Nat.min Nat.sub replicate app].
  assert (Allowed :: verdicts =
          Allowed :: replicate (Nat.min (length times) (Z.to_nat (m - 1))) Allowed
          ++ replicate (length times - Z.to_nat (m - 1)) (Refused (Num (t0 + w)%Z)))
    as Hv' by (by rewrite Hv).
  split; [done|]. split.
  - rewrite Hv'. unfold allowedCount. cbn [List.filter length]. f_equal.
    rewrite List.filter_app, length_app.
    generalize (Nat.min (length times) (Z.to_nat (m - 1))) as a.
    generalize (length times - Z.to_nat (m - 1))%nat as b. clear.
    intros b a.
    assert (forall k, length (List.filter
              (fun v => match v with Allowed => true | Refused _ => false end)
              (replicate k Allowed)) = k) as Ha.
    { induction k; cbn; [done|]. by f_equal. }
    assert (forall k r, length (List.filter
              (fun v => match v with Allowed => true | Refused _ => false end)
              (replicate k (Refused r))) = 0%nat) as Hb.
    { induction k; cbn; done. }
    rewrite Ha, Hb. lia.
  - intros other Hne. rewrite Hf by done. by rewrite lookup_insert_ne.
Qed.

Lemma rate_limit_window_witness :
  let run :=
    limitRun (str "10.0.0.1") (Num 2) (Num 60000) [1000; 1500; 61000; 61000]%Z ∅ in
  let quota := Z.to_nat (Z.max 2 1) in
  run.2 =
    replicate (Nat.min 4 quota) Allowed
    ++ replicate (4 - quota) (Refused (Num 61000))
  /\ allowedCount run.2 = Nat.min 4 quota
  /\ forall other, other <> str "10.0.0.1" ->
       run.1 !! other = (∅ : gmap jsstring Entry) !! other.
Proof.
  apply (rate_limit_window (str "10.0.0.1") 2 60000 1000 [1500; 61000; 61000]%Z ∅).
  - reflexivity.
  - reflexivity.
  - reflexivity.
  - repeat constructor; lia.
Defined.

(** * The environment, the limiter middleware and the error handler *)

Import EnvironmentValidator.

Lemma getOptional_set (env : ProcessEnv) (key defaultValue v : jsstring) :
  env !! key = Some v -> v <> [] -> getOptional env key defaultValue = v.
Proof. intros H Hv. unfold getOptional. rewrite H. by destruct v. Qed.

Lemma getOptional_unset (env : ProcessEnv) (key defaultValue : jsstring) :
  truthy_text (env !! key) = false -> getOptional env key defaultValue = defaultValue.
Proof. unfold getOptional. by destruct (env !! key) as [[|]|]. Qed.

Lemma truthy_text_Some (o : option jsstring) :
  truthy_text o = true -> exists v, o = Some v /\ v <> [].
Proof. destruct o as [[|c v]|]; try done. intros _. by eexists. Qed.

(** X22: when the validation of the environment passes, NODE_ENV is one of
    development, production and test, the port that the server reads is a
    number from 1 to 65535, 4111 when PORT is not set, and the host that it
    reads is not blank. *)
Theorem validated_environment (env : ProcessEnv) :
  validate env = None ->
  (exists v, env !! str "NODE_ENV" = Some v /\ v ∈ validEnvs)
  /\ (exists n, Server.port env = Num n /\ (1 <= n <= 65535)%Z
                /\ (truthy_text (env !! str "PORT") = false -> n = 4111%Z))
  /\ trim (Server.host env) <> [].
Proof.
  unfold validate, requiredVars. cbn [List.filter].
  destruct (truthy_text (env !! str "NODE_ENV")) eqn:Hnode; cbn [negb length Nat.ltb Nat.leb];
    [|done].
  intros Hval.
  assert (exists n, Server.port env = Num n /\ (1 <= n <= 65535)%Z
                    /\ (truthy_text (env !! str "PORT") = false -> n = 4111%Z)) as Hport.
  { destruct (truthy_text (env !! str "PORT")) eqn:Hport; cbn [andb] in Hval.
    - destruct (parseInt10 (env !! str "PORT")) as [|neg|port] eqn:Hp; [done|done|].
      destruct (Z.ltb_spec port 1) as [Hlo|Hlo]; [done|].
      destruct (Z.ltb_spec 65535 port) as [Hhi|Hhi]; [done|].
      exists port. apply truthy_text_Some in Hport as (p & Hpv & Hpne).
      unfold Server.port. rewrite (getOptional_set env _ _ p Hpv Hpne), <- Hpv.
      split; [done|]. split; [lia|done].
    - exists 4111%Z. unfold Server.port. rewrite getOptional_unset by done.
      split; [by vm_compute|]. split; [lia|done]. }
  assert ((truthy_text (env !! str "PORT")
           && match parseInt10 (env !! str "PORT") with
              | NaN => true
              | Infinity _ => true
              | Num port => (port <? 1)%Z || (65535 <? port)%Z
              end) = false) as Hpf.
  { destruct (_ && _); [done|done]. }
  rewrite Hpf in Hval. split; [|split; [done|]].
  - apply truthy_text_Some in Hnode as (v & Hv & Hne). rewrite Hv in Hval.
    cbn [default] in Hval.
    destruct (truthy_text (env !! str "HOST") && _); [done|]. cbn [andb] in Hval.
    case_bool_decide; [by eauto|done].
  - destruct (truthy_text (env !! str "HOST")) eqn:Hhost.
    + apply truthy_text_Some in Hhost as (h & Hh & Hhne).
      unfold Server.host. rewrite (getOptional_set env _ _ h Hh Hhne).
      rewrite Hh in Hval. cbn [andb default truthy] in Hval.
      case_bool_decide; [done|]. done.
    + unfold Server.host. rewrite getOptional_unset by done. by vm_compute.
Qed.

Lemma validated_environment_witness :
  let env : ProcessEnv :=
    {[ str "NODE_ENV" := str "production"; str "PORT" := str "8080" ]} in
  (exists v, env !! str "NODE_ENV" = Some v /\ v ∈ validEnvs)
  /\ (exists n, Server.port env = Num n /\ (1 <= n <= 65535)%Z
                /\ (truthy_text (env !! str "PORT") = false -> n = 4111%Z))
  /\ trim (Server.host env) <> [].
Proof.
  intros env. apply (validated_environment env). vm_compute. reflexivity.
Defined.

Import RateLimiter Express.

(** X23: a request over the limit is answered with the status 429, the code
    RATE_LIMIT_EXCEEDED and the end of the running window as its details,
    and it leaves the counters as they are; a request without an address
    is counted under the identifier unknown. *)
Theorem refused_request_gets_429 (m c reset : Z) (windowMs : number)
  (proc : Process) (req : Request) (requests : gmap jsstring Entry) :
  requests !! identifierOf req = Some (mkEntry c (Num reset)) ->
  (clock proc 0 <= reset)%Z ->
  (m <= c)%Z ->
  exists body,
    rateLimit (Num m) windowMs proc req requests = (requests, Sent 429%Z body)
    /\ code body = str "RATE_LIMIT_EXCEEDED"
    /\ message body = str "Too many requests"
    /\ details body = Some (ResetTime (Num reset))
    /\ timestamp body = clock proc 1.
Proof.
  intros Hentry Hnow Hfull. unfold rateLimit. fold (identifierOf req).
  unfold checkLimit. rewrite Hentry. cbn [gt ge resetTime count].
  assert ((reset <? clock proc 0)%Z = false) as -> by (apply Z.ltb_ge; lia).
  assert ((m <=? c)%Z = true) as -> by (apply Z.leb_le; lia).
  eexists. split; [reflexivity|]. done.
Qed.

Lemma refused_request_gets_429_witness :
  let proc := mkProcess None (fun _ => None) (fun k => 1000 + Z.of_nat k)%Z in
  let req := mkRequest None (str "GET") (str "/health") in
  let requests : gmap jsstring Entry := {[ str "unknown" := mkEntry 100 (Num 60000) ]} in
  exists body,
    rateLimit (Num 100) (Num 60000) proc req requests = (requests, Sent 429%Z body)
    /\ code body = str "RATE_LIMIT_EXCEEDED"
    /\ message body = str "Too many requests"
    /\ details body = Some (ResetTime (Num 60000))
    /\ timestamp body = clock proc 1.
Proof.
  intros proc req requests.
  apply (refused_request_gets_429 100 100 60000 (Num 60000) proc req requests).
  - vm_compute. reflexivity.
  - vm_compute. discriminate.
  - lia.
Defined.

Lemma checkLimit_NaN (dateNow : Z) (identifier : jsstring) (windowMs : number)
  (requests : gmap jsstring Entry) :
  (checkLimit dateNow identifier NaN windowMs requests).2 = Allowed.
Proof.
  unfold checkLimit. destruct (requests !! identifier) as [current|]; [|done].
  destruct (gt _ _); [done|]. cbn [ge]. done.
Qed.

(** X24: the server reads its limit with parseInt and does not check it: when
    RATE_LIMIT_MAX is set to a text in which parseInt finds no number, the
    limiter lets every request pass, whatever the counters hold. *)
Theorem unreadable_limit_disables_limiter (env : EnvironmentValidator.ProcessEnv)
  (proc : Process) (req : Request) (requests : gmap jsstring Entry) :
  Server.rateLimitMax env = NaN ->
  (Server.limiter env proc req requests).2 = Next ().
Proof.
  intros Hmax. unfold Server.limiter, rateLimit. rewrite Hmax.
  pose proof (checkLimit_NaN (clock proc 0) (identifierOf req)
                (Server.rateLimitWindowMs env) requests) as H.
  fold (identifierOf req).
  destruct (checkLimit _ _ _ _ _) as [requests' verdict]. cbn [snd] in H. by subst.
Qed.

Lemma unreadable_limit_disables_limiter_witness :
  let env : EnvironmentValidator.ProcessEnv :=
    {[ str "NODE_ENV" := str "production"; str "RATE_LIMIT_MAX" := str "unlimited" ]} in
  let proc := mkProcess None (fun _ => None) (fun k => 1000 + Z.of_nat k)%Z in
  let req := mkRequest (Some (str "10.0.0.1")) (str "GET") (str "/health") in
  EnvironmentValidator.validate env = None
  /\ (Server.limiter env proc req
        {[ str "10.0.0.1" := mkEntry 1000000 (Num 60000) ]}).2 = Next ().
Proof.
  intros env proc req. split; [vm_compute; reflexivity|].
  apply (unreadable_limit_disables_limiter env proc req).
  vm_compute. reflexivity.
Defined.

(** X25: an error that is none of the three error classes and no ZodError is
    answered with the status 500, the code INTERNAL_ERROR and a fixed
    message, without details; so is every request that no route takes: the
    status 404 and the code NOT_FOUND that the last handler sets on its
    error are not read. *)
Theorem unexpected_errors_are_masked (proc : Process) (tick : nat) (req : Request)
  (msg : option jsstring) (statusCode : option Z) (errorCode : option jsstring) :
  let answer := handleError proc tick (SOther msg statusCode errorCode) req in
  (answer.1 = 500%Z
   /\ code answer.2 = str "INTERNAL_ERROR"
   /\ message answer.2 = str "Internal server error"
   /\ details answer.2 = None
   /\ (NODE_ENV proc <> Some (str "development") -> stack answer.2 = None))
  /\ (Server.notFound proc req).1 = 500%Z
  /\ code (Server.notFound proc req).2 = str "INTERNAL_ERROR".
Proof.
  intros answer. subst answer. cbn. split_and!; try done.
  intros Hdev. by rewrite bool_decide_eq_false_2.
Qed.

Lemma handleError_validation_status proc tick req m sc c d :
  (handleError proc tick (SValidationError m sc c d) req).1 = sc.
Proof. reflexivity. Qed.

Lemma sanitizeSearchQuery_throws (query : unknown) (e : Thrown) :
  InputSanitizer.sanitizeSearchQuery query = Throw e ->
  exists m, e = ValidationError m 400 (str "VALIDATION_ERROR") None.
Proof.
  destruct query as [|s|b]; [cbn; intros [= <-]; by eexists| |cbn; intros [= <-]; by eexists].
  rewrite sanitizeSearchQuery_Str. cbv zeta.
  repeat case_match; intros [= <-]; by eexists.
Qed.

(** X26: the endpoint /api/extract-book hands the agent only the prompt of a
    query that the sanitizer returns unchanged, and at most one prompt; it
    answers with the result of the agent and the status 200 exactly when
    the body has a text of 1 to 200 code units as its query, the sanitizer
    accepts it and the agent resolves; a body that fails the validation is
    answered with the status 400 without a call of the agent. *)
Theorem extract_book_endpoint (proc : Process) (generate : jsstring -> Outcome)
  (req : Request) (body : ExtractBody) :
  let run := Server.extractBook proc generate req body in
  (forall prompt, prompt ∈ run.1 ->
     exists q, prompt = extractionPrompt q /\ run.1 = [prompt]
               /\ InputSanitizer.sanitizeSearchQuery (Str q) = Ok q)
  /\ (forall data time,
        run.2 = (200%Z, Server.ExtractOk data time) <->
        time = clock proc 0
        /\ exists raw q,
             body = WithQuery (Str raw) /\ (1 <= length raw <= 200)%nat
             /\ InputSanitizer.sanitizeSearchQuery (Str raw) = Ok q
             /\ generate (extractionPrompt q) = Resolved data)
  /\ ((forall q, bookExtractionRequest body <> Parsed q) ->
      run.1 = [] /\ run.2.1 = 400%Z).
Proof.
  intros run. subst run. unfold Server.extractBook, validateRequest.
  destruct (bookExtractionRequest body) as [q|issues|error] eqn:Hb.
  - assert (exists raw, body = WithQuery (Str raw) /\ (1 <= length raw <= 200)%nat
                        /\ InputSanitizer.sanitizeSearchQuery (Str raw) = Ok q)
      as (raw & -> & Hlen & Hq).
    { unfold bookExtractionRequest in Hb. destruct body as [|[|raw|]]; try done.
      destruct (Nat.ltb_spec (length raw) 1); [done|].
      destruct (Nat.ltb_spec 200 (length raw)); [done|].
      destruct (InputSanitizer.sanitizeSearchQuery (Str raw)) eqn:Hs; [|done].
      injection Hb as <-. exists raw. split; [done|]. split; [lia|done]. }
    fold (extractionPrompt q).
    pose proof (sanitizeSearchQuery_fixed _ _ Hq) as Hfix.
    destruct (generate (extractionPrompt q)) as [result|error] eqn:Hg.
    + cbn [fst snd]. split; [|split].
      * intros prompt Hin. apply list_elem_of_singleton in Hin as ->. by eauto.
      * intros data time. split.
        -- intros [= <- <-]. split; [done|]. by exists raw, q.
        -- intros (-> & raw' & q' & [= <-] & _ & Hq' & Hg').
           rewrite Hq in Hq'. injection Hq' as <-. rewrite Hg in Hg'.
           by injection Hg' as <-.
      * intros Hno. by destruct (Hno q).
    + unfold Server.errorMiddleware.
      destruct (handleError proc 0 (ofThrown error) req) as [status errorBody].
      cbn [fst snd]. split; [|split].
      * intros prompt Hin. apply list_elem_of_singleton in Hin as ->. by eauto.
      * intros data time. split; [done|].
        intros (-> & raw' & q' & [= <-] & _ & Hq' & Hg').
        rewrite Hq in Hq'. injection Hq' as <-. rewrite Hg in Hg'. done.
      * intros Hno. by destruct (Hno q).
  - cbn -[InputSanitizer.sanitizeSearchQuery Nat.ltb extractionPrompt str length].
    split; [|split].
    + intros prompt Hin. by apply elem_of_nil in Hin.
    + intros data time. split; [done|].
      intros (_ & raw & q & -> & Hlen & Hq & _). unfold bookExtractionRequest in Hb.
      assert ((length raw <? 1)%nat = false) as H1 by (apply Nat.ltb_ge; lia).
      assert ((200 <? length raw)%nat = false) as H2 by (apply Nat.ltb_ge; lia).
      by rewrite H1, H2, Hq in Hb.
    + done.
  - assert (exists m, error = ValidationError m 400 (str "VALIDATION_ERROR") None)
      as (m & ->).
    { unfold bookExtractionRequest in Hb. destruct body as [|[|raw|]]; try done.
      destruct (_ <? _)%nat; [done|]. destruct (_ <? _)%nat; [done|].
      destruct (InputSanitizer.sanitizeSearchQuery (Str raw)) eqn:Hs; [done|].
      injection Hb as <-. by apply sanitizeSearchQuery_throws in Hs. }
    cbn -[InputSanitizer.sanitizeSearchQuery Nat.ltb extractionPrompt str length].
    split; [|split].
    + intros prompt Hin. by apply elem_of_nil in Hin.
    + intros data time. split; [done|].
      intros (_ & raw & q & -> & Hlen & Hq & _). unfold bookExtractionRequest in Hb.
      assert ((length raw <? 1)%nat = false) as H1 by (apply Nat.ltb_ge; lia).
      assert ((200 <? length raw)%nat = false) as H2 by (apply Nat.ltb_ge; lia).
      by rewrite H1, H2, Hq in Hb.
    + done.
Qed.

(** * The workflow step, the stream and the refusals of the task operations *)

Import BookWorkflow.

(** X27: the validation step of the workflow returns the trimmed query, of
    1 to 200 code units, and agrees with the sanitizer on every query that
    holds none of the control characters the sanitizer strips: each accepts
    what the other accepts, with the same result; unlike the sanitizer the
    step keeps such characters. *)
Theorem workflow_validation_agrees (searchQuery : jsstring) :
  (forall t, validateInput searchQuery = Ok t ->
     t = trim searchQuery /\ (1 <= length t <= 200)%nat)
  /\ (forallb (fun c => negb (InputSanitizer.is_control c)) searchQuery = true ->
      forall t, validateInput searchQuery = Ok t
                <-> InputSanitizer.sanitizeSearchQuery (Str searchQuery) = Ok t).
Proof.
  split.
  - intros t. unfold validateInput. destruct (negb _); [done|].
    destruct (Nat.eqb_spec (length (trim searchQuery)) 0); [done|].
    destruct (Nat.ltb_spec 200 (length (trim searchQuery))); [done|].
    destruct (existsb _ _); [done|]. intros [= <-]. split; [done|lia].
  - intros Hclean t. rewrite sanitizeSearchQuery_Str.
    rewrite filter_id_Forall by (by apply forallb_true_Forall). cbv zeta.
    unfold validateInput. destruct searchQuery as [|c s]; [done|].
    cbn [truthy negb]. rewrite bool_decide_eq_false_2 by done. cbn [negb].
    destruct (Nat.eqb_spec (length (trim (c :: s))) 0) as [H0|H0];
      destruct (Nat.ltb_spec (length (trim (c :: s))) 1) as [H1|H1]; try lia; [done|].
    destruct (_ <? _)%nat; [done|]. by destruct (existsb _ _).
Qed.

Lemma sendStreamData_facts (res : Response.t) (d : TelexResponse) :
  Response.write_throws res = None ->
  Response.write_throws (sendStreamData res d) = None
  /\ Response.frames (sendStreamData res d) = Response.frames res ++ [d]
  /\ Response.end_throws (sendStreamData res d) = Response.end_throws res
  /\ Response.head (sendStreamData res d) = Response.head res
  /\ Response.ended (sendStreamData res d) = Response.ended res.
Proof. intros Hw. unfold sendStreamData. by rewrite Hw. Qed.

(** X28: a stream that meets no failure sends six frames in a fixed order
    after the head with the status 200: the task as started, the progress
    of the search, the progress of the processing, the task as completed,
    the message and the end of the stream; it ends the response and leaves
    the completed task in the store. *)
Theorem stream_success_frames (env : Env) (params : Params.t) (id : ReqId)
  (res : Response.t) (taskCache : gmap jsstring TelexTask.t)
  (message : TelexMessage.t) (searchQuery : jsstring) (task : TelexTask.t)
  (result : AnyResult) :
  accepted env params message searchQuery task ->
  generate env (extractionPrompt searchQuery) = Resolved result ->
  Response.writeHead_throws res = None ->
  Response.write_throws res = None ->
  Response.end_throws res = None ->
  let out := handleMessageStream env (Some params) id res taskCache in
  let task' :=
    (completeTask (fun k => now env (6 + k)%nat) task result
       (TelexTaskStore.createTask task taskCache)).2 in
  out.2 = Ok ()
  /\ out.1.1 !! TelexTask.id task = Some task'
  /\ stateOf task' = completed
  /\ Response.head out.1.2 = Some (200%Z, streamHeaders)
  /\ Response.ended out.1.2 = true
  /\ Response.frames out.1.2 =
       Response.frames res ++
       [ Success (StreamTask task (str "started") (now env 3%nat)) id;
         Success (StreamProgress (TelexTask.id task) (str "searching")
                    (str "Searching for books...") (now env 4%nat)) id;
         Success (StreamProgress (TelexTask.id task) (str "processing")
                    (str "Processing book content...") (now env 5%nat)) id;
         Success (StreamTask task' (str "completed") (now env 9%nat)) id;
         Success (StreamMessage (TelexTask.id task)
                    (TelexTaskStatus.message (TelexTask.status task'))
                    (elapsedSince (now env 10%nat) (TelexTask.id task))) id;
         Success (StreamStatus (TelexTask.id task) (str "stream_complete")
                    (now env 11%nat)) id ].
Proof.
  intros (Hm & Hq & Ht) Hg Hhead Hwrite Hend out task'. subst out task'.
  unfold handleMessageStream, handleMessageStream_try.
  assert (Params.message params <> NoMessage) as Hmsg.
  { intros H. by rewrite H in Hm. }
  rewrite Hm. unfold writeHead. rewrite Hhead, Hq, Ht, Hg.
  destruct (Params.message params); [done|..]; clear Hmsg.
  all: set (res0 := Response.mk _ _ _ _ _ _).
  all: unfold completeTask, TelexTaskStore.updateTask, TelexTaskStore.createTask.
  all: cbv beta iota zeta.
  all: cbn [TelexTask.id TelexTask.status TelexTaskStatus.message fst snd].
  all: set (r1 := sendStreamData res0 _).
  all: destruct (sendStreamData_facts res0
         (Success (StreamTask task (str "started") (now env 3%nat)) id) Hwrite)
         as (Hw1 & Hf1 & He1 & Hh1 & Hd1).
  all: fold r1 in Hw1, Hf1, He1, Hh1, Hd1; clearbody r1.
  all: set (r2 := sendStreamData r1 _).
  all: destruct (sendStreamData_facts r1
         (Success (StreamProgress (TelexTask.id task) (str "searching")
                     (str "Searching for books...") (now env 4%nat)) id) Hw1)
         as (Hw2 & Hf2 & He2 & Hh2 & Hd2).
  all: fold r2 in Hw2, Hf2, He2, Hh2, Hd2; clearbody r2.
  all: set (r3 := sendStreamData r2 _).
  all: destruct (sendStreamData_facts r2
         (Success (StreamProgress (TelexTask.id task) (str "processing")
                     (str "Processing book content...") (now env 5%nat)) id) Hw2)
         as (Hw3 & Hf3 & He3 & Hh3 & Hd3).
  all: fold r3 in Hw3, Hf3, He3, Hh3, Hd3; clearbody r3.
  all: set (r4 := sendStreamData r3 _).
  all: match goal with r := sendStreamData ?r0 ?d |- _ =>
         destruct (sendStreamData_facts r0 d ltac:(assumption)) as (Hw4 & Hf4 & He4 & Hh4 & Hd4) end.
  all: fold r4 in Hw4, Hf4, He4, Hh4, Hd4; clearbody r4.
  all: set (r5 := sendStreamData r4 _).
  all: match goal with r := sendStreamData ?r0 ?d |- _ =>
         destruct (sendStreamData_facts r0 d ltac:(assumption)) as (Hw5 & Hf5 & He5 & Hh5 & Hd5) end.
  all: fold r5 in Hw5, Hf5, He5, Hh5, Hd5; clearbody r5.
  all: set (r6 := sendStreamData r5 _).
  all: match goal with r := sendStreamData ?r0 ?d |- _ =>
         destruct (sendStreamData_facts r0 d ltac:(assumption)) as (Hw6 & Hf6 & He6 & Hh6 & Hd6) end.
  all: fold r6 in Hw6, Hf6, He6, Hh6, Hd6; clearbody r6.
  all: unfold endResponse; rewrite He6, He5, He4, He3, He2, He1.
  all: change (Response.end_throws res0) with (Response.end_throws res); rewrite Hend.
  all: cbn [try_end try_cache try_res fst snd Response.head Response.ended
            Response.frames].
  all: rewrite lookup_insert_eq, Hf6, Hf5, Hf4, Hf3, Hf2, Hf1, Hh6, Hh5, Hh4, Hh3, Hh2, Hh1.
  all: rewrite <- !app_assoc; done.
Qed.

Lemma stream_success_frames_witness :
  let env := sampleEnv (fun _ => Resolved (Obj noBooksFound)) in
  let out :=
    handleMessageStream env (Some (sendParams "Sherlock Holmes")) (IdNum 1)
      freshResponse ∅ in
  let task' :=
    (completeTask (fun k => now env (6 + k)%nat) sampleTask (Obj noBooksFound)
       (TelexTaskStore.createTask sampleTask ∅)).2 in
  out.2 = Ok ()
  /\ out.1.1 !! TelexTask.id sampleTask = Some task'
  /\ stateOf task' = completed
  /\ Response.head out.1.2 = Some (200%Z, streamHeaders)
  /\ Response.ended out.1.2 = true
  /\ Response.frames out.1.2 =
       Response.frames freshResponse ++
       [ Success (StreamTask sampleTask (str "started") (now env 3%nat)) (IdNum 1);
         Success (StreamProgress (TelexTask.id sampleTask) (str "searching")
                    (str "Searching for books...") (now env 4%nat)) (IdNum 1);
         Success (StreamProgress (TelexTask.id sampleTask) (str "processing")
                    (str "Processing book content...") (now env 5%nat)) (IdNum 1);
         Success (StreamTask task' (str "completed") (now env 9%nat)) (IdNum 1);
         Success (StreamMessage (TelexTask.id sampleTask)
                    (TelexTaskStatus.message (TelexTask.status task'))
                    (elapsedSince (now env 10%nat) (TelexTask.id sampleTask))) (IdNum 1);
         Success (StreamStatus (TelexTask.id sampleTask) (str "stream_complete")
                    (now env 11%nat)) (IdNum 1) ].
Proof.
  intros env.
  apply (stream_success_frames env (sendParams "Sherlock Holmes") (IdNum 1)
           freshResponse ∅ (textMessage user (str "Sherlock Holmes"))
           (str "Sherlock Holmes") sampleTask (Obj noBooksFound)).
  - split_and!; vm_compute; reflexivity.
  - reflexivity.
  - reflexivity.
  - reflexivity.
  - reflexivity.
Defined.

